(** * Run tracking and artifact staging of the Loretech tool server

    A shallow embedding of [src/runs.ts] (run directory manager),
    [src/memory.ts] (local echo files, the module [server.ts] imports as
    [./memory.js]) and the tool handlers of [src/server.ts], together with
    the properties of the run ledger, the artifact store, the replay
    controller and the echo catalog.

    Conventions of the embedding.
    - A JavaScript string is the list of its UTF-16 code units ([list N]).
    - The resolved [.loretech] directory is the state [World]: the [.env]
      file, the [runs/] tree and the [echoes/] directory.  Path resolution
      ([findLoretechDir]) is taken as fixed during a call, and file names
      are flat (no path separators inside a run id or an artifact name).
    - A string obtained with [JSON.stringify(v, null, 2)] is kept symbolic
      as [Json v]; [JSON.parse] of such a string gives [v] back.
    - Effects are threaded through the monad [M]: world passing with
      JavaScript exceptions ([Throw], carrying the error message). *)

From Stdlib Require Import Strings.String Strings.Ascii Numbers.DecimalString.
From stdpp Require Import base option list gmap sorting.

Local Open Scope N_scope.

Abbreviation str := (list N).

(** ** JavaScript strings and the regular expressions of the sources *)
Module Js.

Definition lit (s : string) : str := N_of_ascii <$> list_ascii_of_string s.

Definition LF : N := 10.
Definition DQUOTE : N := 34.
Definition BACKSLASH : N := 92.

(** [LineTerminator] of ECMAScript: what [.] refuses and what [^]/[$]
    look at under the [m] flag. *)
Definition is_line_terminator (c : N) : bool :=
  (c =? 10) || (c =? 13) || (c =? 8232) || (c =? 8233).

(** [\s], which is also what [String.prototype.trim] removes:
    [WhiteSpace] and [LineTerminator]. *)
Definition is_space (c : N) : bool :=
  (c =? 9) || (c =? 10) || (c =? 11) || (c =? 12) || (c =? 13) || (c =? 32)
  || (c =? 160) || (c =? 5760) || ((8192 <=? c) && (c <=? 8202))
  || (c =? 8232) || (c =? 8233) || (c =? 8239) || (c =? 8287)
  || (c =? 12288) || (c =? 65279).

(** Truthiness of a string: non-empty. *)
Definition truthy (s : str) : bool :=
  match s with [] => false | _ :: _ => true end.

(** Truthiness of an optional string ([undefined] is falsy). *)
Definition truthy_opt (o : option str) : bool :=
  match o with Some s => truthy s | None => false end.

(** [s.startsWith(p)], returning what follows the prefix. *)
Fixpoint strip_prefix (p s : str) : option str :=
  match p, s with
  | [], _ => Some s
  | x :: p', y :: s' => if x =? y then strip_prefix p' s' else None
  | _ :: _, [] => None
  end.

Definition starts_with (p s : str) : bool :=
  match strip_prefix p s with Some _ => true | None => false end.

Definition ends_with (p s : str) : bool :=
  starts_with (rev p) (rev s).

(** [s.includes(p)]. *)
Fixpoint includes (p s : str) : bool :=
  starts_with p s || match s with [] => false | _ :: s' => includes p s' end.

(** [s.indexOf(p)] counted from the head of [s]; [-1] when absent. *)
Fixpoint index_of (p s : str) : Z :=
  if starts_with p s then 0%Z
  else match s with
       | [] => (-1)%Z
       | _ :: s' => let i := index_of p s' in
                    if (i <? 0)%Z then (-1)%Z else (i + 1)%Z
       end.

(** [s.indexOf(p, from)] for [0 <= from]. *)
Definition index_of_from (p s : str) (from : nat) : Z :=
  if decide (from ≤ length s)%nat then
    let i := index_of p (drop from s) in
    if (i <? 0)%Z then (-1)%Z else (i + Z.of_nat from)%Z
  else if Nat.eqb (length p) 0 then Z.of_nat (length s) else (-1)%Z.

(** [s.slice(i)] for [0 <= i]. *)
Definition slice_from (i : Z) (s : str) : str := drop (Z.to_nat i) s.

Fixpoint trim_start (s : str) : str :=
  match s with
  | c :: s' => if is_space c then trim_start s' else s
  | [] => []
  end.

(** [s.trim()]. *)
Definition trim (s : str) : str := rev (trim_start (rev (trim_start s))).

(** [s.split("\n")]: never empty, the pieces hold no line feed. *)
Fixpoint split_lines (s : str) : list str :=
  match s with
  | [] => [[]]
  | c :: s' =>
      match split_lines s' with
      | l :: ls => if c =? LF then [] :: l :: ls else (c :: l) :: ls
      | [] => [[c]]
      end
  end.

(** [pieces.join(sep)]. *)
Fixpoint join (sep : str) (pieces : list str) : str :=
  match pieces with
  | [] => []
  | [p] => p
  | p :: ps => p ++ sep ++ join sep ps
  end.

(** [s.replace(/"/g, '\\"')]: a backslash before every double quote. *)
Fixpoint escape_quotes (s : str) : str :=
  match s with
  | [] => []
  | c :: s' => if c =? DQUOTE then BACKSLASH :: DQUOTE :: escape_quotes s'
               else c :: escape_quotes s'
  end.

(** [s.replace(/^"|"$/g, empty)]: without the [m] flag [^] and [$] are the two
    ends of the input, so at most the first and the last code unit go.
    On the one-character string of a quote the first alternative consumes
    it and nothing is left for the second. *)
Definition strip_first_quote (s : str) : str :=
  match s with
  | c :: s' => if c =? DQUOTE then s' else s
  | [] => []
  end.

Definition strip_outer_quotes (s : str) : str :=
  rev (strip_first_quote (rev (strip_first_quote s))).

(** The longest prefix without a line terminator: what a greedy [.+] or
    [.*] consumes before it has to stop. *)
Fixpoint dot_run (s : str) : str :=
  match s with
  | c :: s' => if is_line_terminator c then [] else c :: dot_run s'
  | [] => []
  end.

(** [(.+)$] under the [m] flag, anchored at the head of [s]: the greedy
    [.+] takes [dot_run s]; it stops at a line terminator or at the end of
    the input, where [$] holds.  A shorter run would be followed by a
    character that is no line terminator, where [$] fails, so no other
    length matches. *)
Definition dot_plus_eol (s : str) : option str :=
  match dot_run s with
  | [] => None
  | r => Some r
  end.

(** [\s*(.+)$] anchored at the head of [s].  The greedy star first tries
    to take one more white-space character and only when the rest fails
    from there gives it back (backtracking).  Line terminators are
    white space: the star walks over line ends. *)
Fixpoint spaces_then_value (s : str) : option str :=
  match s with
  | c :: s' =>
      if is_space c then
        match spaces_then_value s' with
        | Some v => Some v
        | None => dot_plus_eol s
        end
      else dot_plus_eol s
  | [] => dot_plus_eol s
  end.

(** [s.match(new RegExp(`^${key}:\\s*(.+)$`, "m"))], giving capture 1.
    Start positions are tried from left to right; [bol] tells whether the
    current position is the start of the input or follows a line
    terminator, the places where [^] holds under the [m] flag.  The keys
    used by the source hold no regular-expression metacharacter. *)
Fixpoint match_key_from (key : str) (bol : bool) (s : str) : option str :=
  let here :=
    if bol then
      match strip_prefix (key ++ lit ":") s with
      | Some rest => spaces_then_value rest
      | None => None
      end
    else None in
  match here with
  | Some v => Some v
  | None =>
      match s with
      | c :: s' => match_key_from key (is_line_terminator c) s'
      | [] => None
      end
  end.

Definition match_key (key s : str) : option str := match_key_from key true s.

(** The shortest prefix of [s] that is followed by [stop]: a lazy
    [[\s\S]*?] in front of the literal [stop]. *)
Fixpoint lazy_until (stop s : str) : option str :=
  if starts_with stop s then Some []
  else match s with
       | c :: s' => cons c <$> lazy_until stop s'
       | [] => None
       end.

(** [content.match(/^---\n([\s\S]*?)\n---/)], giving capture 1. *)
Definition match_frontmatter (content : str) : option str :=
  match strip_prefix (lit "---" ++ [LF]) content with
  | Some rest => lazy_until (LF :: lit "---") rest
  | None => None
  end.

(** Comparison of strings by code units, the order of [Array.sort()]
    without a comparator. *)
Fixpoint leb (a b : str) : bool :=
  match a, b with
  | [], _ => true
  | _ :: _, [] => false
  | x :: a', y :: b' => (x <? y) || ((x =? y) && leb a' b')
  end.

(** [String(n)] of a non-negative integer. *)
Definition of_nat (n : nat) : str :=
  lit (NilEmpty.string_of_uint (Nat.to_uint n)).

(** *** Text and names as the file system takes them *)

Definition REPLACEMENT : N := 65533.

Definition is_high_surrogate (c : N) : bool := (55296 <=? c) && (c <=? 56319).
Definition is_low_surrogate (c : N) : bool := (56320 <=? c) && (c <=? 57343).

(** The string that the encoding [utf-8] keeps of a string, which is
    [String.prototype.toWellFormed]: a surrogate that is not half of a pair
    becomes U+FFFD, every other code unit stays. *)
Fixpoint to_well_formed (s : str) : str :=
  match s with
  | [] => []
  | c :: s' =>
      if is_high_surrogate c then
        match s' with
        | d :: s'' =>
            if is_low_surrogate d then c :: d :: to_well_formed s''
            else REPLACEMENT :: to_well_formed s'
        | [] => [REPLACEMENT]
        end
      else if is_low_surrogate c then REPLACEMENT :: to_well_formed s'
      else c :: to_well_formed s'
  end.

Definition well_formed (s : str) : bool :=
  bool_decide (to_well_formed s = s).

(** The number of bytes of the encoding [utf-8] of a well-formed string:
    the two halves of a surrogate pair give four bytes together. *)
Definition utf8_unit_length (c : N) : nat :=
  if c <? 128 then 1
  else if c <? 2048 then 2
  else if is_high_surrogate c || is_low_surrogate c then 2
  else 3.

Definition utf8_length (s : str) : nat :=
  foldr (λ c n, utf8_unit_length c + n)%nat 0%nat s.

(** The longest name of an entry, in bytes. *)
Definition NAME_MAX : nat := 255.

(** A name that [path.join(dir, name)] leaves as it is, as the name of one
    entry of [dir], on a POSIX file system: not empty, neither [.] nor
    [..], free of [/] and of the NUL character, well formed (so that the
    entry carries this very name) and not longer than [NAME_MAX]. *)
Definition entry_name (s : str) : bool :=
  truthy s
  && negb (bool_decide (s = lit "."))
  && negb (bool_decide (s = lit ".."))
  && forallb (λ c, negb (c =? 47) && negb (c =? 0)) s
  && well_formed s
  && bool_decide (utf8_length s ≤ NAME_MAX)%nat.
End Js.

(** ** Data model *)

(** A JSON value, for payloads the code passes on without looking inside
    (signals, attribution, source lists, datasets). *)
Local Unset Elimination Schemes.
Inductive json :=
| JNull
| JBool (b : bool)
| JNum (n : Z)
| JStr (s : str)
| JArr (items : list json)
| JObj (fields : list (str * json)).
Local Set Elimination Schemes.

(** Result of a JavaScript call: a value, or an exception with its message
    ([err instanceof Error ? err.message : String(err)]). *)
Inductive outcome (A : Type) :=
| Ok (a : A)
| Throw (e : str).
Arguments Ok {A} a.
Arguments Throw {A} e.

Inductive StepStatus := Pending | Running | Completed | Failed.
Inductive RunStatus := RunRunning | RunCompleted | RunFailed.

Global Instance StepStatus_eq_dec : EqDecision StepStatus.
Proof. solve_decision. Defined.
Global Instance RunStatus_eq_dec : EqDecision RunStatus.
Proof. solve_decision. Defined.

(** [interface StepMeta]. *)
Module StepMeta.
Record t := mk {
  name : str;
  status : StepStatus;
  startedAt : option str;
  completedAt : option str;
  artifact : option str;
}.
End StepMeta.

(** [interface RunMeta]. *)
Module RunMeta.
Record t := mk {
  runId : str;
  status : RunStatus;
  startedAt : str;
  completedAt : option str;
  steps : list StepMeta.t;
  echoId : option str;
  error : option str;
}.
End RunMeta.

(** The object stored in [context.json]: the input fields written by
    [loretech_echo], and the replay marks written by [loretech_rerun].  A key
    whose value is [undefined] is dropped by [JSON.stringify]: [None]. *)
Module ContextArtifact.
Record t := mk {
  context : str;
  depth : str;
  focus : option str;
  intent : option str;
  signals : option json;
  scope : option str;
  source : option json;
  replayedFrom : option str;
  replayedStep : option str;
}.
End ContextArtifact.

(** What [JSON.stringify] is applied to in the sources. *)
Inductive doc :=
| DMeta (m : RunMeta.t)
| DContext (c : ContextArtifact.t)
| DValue (v : json).

(** The content of a file: text written as it is, or the serialisation of a
    document. *)
Inductive content :=
| Raw (s : str)
| Json (d : doc).

(** [interface EchoRef]. *)
Module EchoRef.
Record t := mk {
  echoId : str;
  privateKey : str;
  title : str;
  status : str;
  createdAt : str;
  updatedAt : str;
  markdown : str;
  jsonPath : option str;
}.
End EchoRef.

(** The success payload of [POST /echo] as the handlers cast it. *)
Module EchoData.
Record t := mk {
  echoId : str;
  status : str;
  title : str;
  subtitle : option str;
  markdown : str;
  tags : list str;
  sources : list json;
  privateUrl : str;
  privateKey : str;
  createdAt : str;
  updatedAt : str;
  websetId : option str;
  websetStatus : option str;
}.
End EchoData.

(** The payload of [GET /echo/{id}] as the poll casts it. *)
Module PollData.
Record t := mk {
  websetStatus : option str;
  dataset : option (list json);
}.
End PollData.

(** A response of the engine: [res.ok], [res.status], and what
    [res.text()] and [res.json()] give (either may reject). *)
Module Response.
Record t (P : Type) := mk {
  ok : bool;
  status : nat;
  text : outcome str;
  json : outcome P;
}.
Arguments mk {P}.
Arguments ok {P}.
Arguments status {P}.
Arguments text {P}.
Arguments json {P}.
End Response.

(** What [await fetch(...)] does: it rejects (network failure, the abort
    signal of the timeout) or resolves to a response. *)
Inductive fetched (P : Type) :=
| Rejected (e : str)
| Resolved (r : Response.t P).
Arguments Rejected {P} e.
Arguments Resolved {P} r.

(** The body of [POST /echo]. *)
Module EngineBody.
Record t := mk {
  context : str;
  depth : str;
  focus : option str;
  intent : option str;
  signals : option json;
  scope : option str;
  source : option json;
  echoId : option str;
  model : option str;
}.
End EngineBody.

(** A request handed to [fetch]. *)
Module Request.
Record t := mk {
  method : str;
  url : str;
  headers : list (str * str);
  body : option EngineBody.t;
}.
End Request.

(** Arguments of a pending [setTimeout(poll, INTERVAL_MS)] of
    [pollWebsetDataset]. *)
Module PollJob.
Record t := mk {
  echoId : str;
  privateKey : str;
  runId : str;
  exaKey : str;
}.
End PollJob.

(** ** The world *)

(** The [.loretech] directory and the environment of a call.
    - [runs_dir !! id] is the directory [runs/{id}/] (absent: no directory).
    - [echoes] is the directory [echoes/] (absent: no directory).
    - [ticks] counts the reads of the clock.
    - [io_faults] is the behaviour of the storage layer: one entry for each
      coming call of a file-system primitive that can fail ([mkdirSync],
      [writeFileSync], [readFileSync], [readdirSync]); [Some e] makes that
      call throw [e]; past the end of the list no call fails.
    - [posts] and [gets] are the behaviour of the engine: what the coming
      [fetch] calls of the two endpoints do; past the end a call rejects.
    - [sent] logs the requests issued, oldest first.
    - [timers] holds the polls handed to [setTimeout] by the handlers.
    - [strayed] logs the writes whose file name is not the name of an
      entry ([Js.entry_name]), with the path handed to [path.join] and the
      text, oldest first.

    The keys of [runs_dir !! id] and of [echoes] are the names of the
    entries of the two directories, which hold files only. *)
Record World := mkWorld {
  env_file : option str;
  runs_dir : gmap str (gmap str content);
  echoes : option (gmap str content);
  ticks : nat;
  io_faults : list (option str);
  posts : list (fetched EchoData.t);
  gets : list (fetched PollData.t);
  sent : list Request.t;
  timers : list PollJob.t;
  strayed : list (str * content);
}.

(** The files of the world: [.env], the run directories and [echoes/]. *)
Definition Files : Type :=
  option str * gmap str (gmap str content) * option (gmap str content).

(** What the embedding takes from the JavaScript host without defining it:
    the clock ([toISOString n] is the value of [new Date().toISOString()]
    at the [n]-th read), [String.prototype.localeCompare], the base URL
    [LORETECH_API], [JSON.parse] on a text that the matching
    [JSON.stringify] did not write, and [fs.writeFileSync] on a path whose
    last part is not the name of an entry of the directory it is joined
    to (it is empty, or has a [/], a [..] or a NUL in it, and so on).
    Such a path names the directory itself or a place somewhere else, in
    the [.loretech] directory or out of it, and the call throws or writes
    there, as the file system of the host has it: [write_stray log files
    path c] gives, after the earlier writes of the kind [log] and with the
    files [files], the outcome of the call and the files after it;
    [exists_stray log files path] is [fs.existsSync] on such a path. *)
Class Host := {
  toISOString : nat → str;
  localeCompare : str → str → Z;
  LORETECH_API : str;
  parse_foreign_meta : content → outcome RunMeta.t;
  parse_foreign_context : content → outcome ContextArtifact.t;
  write_stray : list (str * content) → Files → str → content
                → outcome () * Files;
  exists_stray : list (str * content) → Files → str → bool;
}.

(** ** The effect monad *)

Definition M (A : Type) : Type := World → outcome A * World.

Global Instance M_ret : MRet M := λ A a w, (Ok a, w).
Global Instance M_bind : MBind M := λ A B f m w,
  match m w with
  | (Ok a, w') => f a w'
  | (Throw e, w') => (Throw e, w')
  end.
Global Instance M_throw : MThrow str M := λ A e w, (Throw e, w).

(** [try { body } catch (err) { handler(msg) }]. *)
Definition try_catch {A} (body : M A) (handler : str → M A) : M A := λ w,
  match body w with
  | (Ok a, w') => (Ok a, w')
  | (Throw e, w') => handler e w'
  end.

Definition get_world : M World := λ w, (Ok w, w).
Definition set_world (f : World → World) : M () := λ w, (Ok (), f w).

(** A call of a file-system primitive that can fail: the next entry of the
    fault schedule decides. *)
Definition io_point : M () := λ w,
  match io_faults w with
  | [] => (Ok (), w)
  | o :: rest =>
      let w' := mkWorld (env_file w) (runs_dir w) (echoes w) (ticks w) rest
                        (posts w) (gets w) (sent w) (timers w) (strayed w) in
      match o with
      | None => (Ok (), w')
      | Some e => (Throw e, w')
      end
  end.

Definition with_runs (f : gmap str (gmap str content) → gmap str (gmap str content))
    (w : World) : World :=
  mkWorld (env_file w) (f (runs_dir w)) (echoes w) (ticks w) (io_faults w)
          (posts w) (gets w) (sent w) (timers w) (strayed w).

Definition with_echoes (f : option (gmap str content) → option (gmap str content))
    (w : World) : World :=
  mkWorld (env_file w) (runs_dir w) (f (echoes w)) (ticks w) (io_faults w)
          (posts w) (gets w) (sent w) (timers w) (strayed w).

Definition ENOENT : str := Js.lit "ENOENT: no such file or directory".

Definition files (w : World) : Files := (env_file w, runs_dir w, echoes w).

(** The text a file holds after [fs.writeFileSync(path, c, "utf-8")]: the
    encoding loses the unpaired surrogates of a text.  [JSON.stringify]
    writes them as escapes, which [JSON.parse] reads back. *)
Definition stored (c : content) : content :=
  match c with
  | Raw s => Raw (Js.to_well_formed s)
  | Json d => Json d
  end.

Section host.
Context `{Host}.

(** [fs.writeFileSync(path, c, "utf-8")] on a path that is not an entry of
    the directory it was joined to; [path] is given relative to the
    [.loretech] directory, as [path.join] received it. *)
Definition write_elsewhere (path : str) (c : content) : M () := λ w,
  let '(o, (env, runs, ech)) := write_stray (strayed w) (files w) path c in
  (o, mkWorld env runs ech (ticks w) (io_faults w) (posts w) (gets w)
              (sent w) (timers w) (strayed w ++ [(path, c)])).

(** [new Date().toISOString()]. *)
Definition now : M str := λ w,
  (Ok (toISOString (ticks w)),
   mkWorld (env_file w) (runs_dir w) (echoes w) (S (ticks w)) (io_faults w)
           (posts w) (gets w) (sent w) (timers w) (strayed w)).
End host.

(** ** [src/runs.ts]: the run ledger and the artifact store *)
Module Runs.
Section host.
Context `{Host}.

Definition STEPS : list str :=
  Js.lit <$> ["context"; "sources"; "compose"; "store"; "record"; "webset"]%string.

Definition META : str := Js.lit "meta.json".

(** [fs.mkdirSync(runDir(runId), { recursive: true })]: an existing
    directory is left as it is. *)
Definition mkdir_run (runId : str) : M () :=
  io_point;;
  set_world (with_runs (λ rs,
    match rs !! runId with
    | Some _ => rs
    | None => <[runId := ∅]> rs
    end)).

(** [fs.writeFileSync(path.join(runDir(runId), filename), c, "utf-8")]:
    for the name of an entry, the file is created or replaced, and without
    the directory the call throws; any other name leads out of the
    directory. *)
Definition write_run_file (runId filename : str) (c : content) : M () :=
  io_point;;
  w ← get_world;
  if Js.entry_name filename then
    match runs_dir w !! runId with
    | None => mthrow ENOENT
    | Some d => set_world (with_runs (<[runId := <[filename := stored c]> d]>))
    end
  else
    write_elsewhere (Js.lit "runs/" ++ runId ++ Js.lit "/" ++ filename) c.

(** [fs.existsSync(path.join(runDir(runId), filename))]. *)
Definition run_file (w : World) (runId filename : str) : option content :=
  runs_dir w !! runId ≫= (.!! filename).

Definition writeMeta (runId : str) (meta : RunMeta.t) : M () :=
  write_run_file runId META (Json (DMeta meta)).

(** [JSON.parse(...)] of the text of [meta.json]. *)
Definition parse_meta (c : content) : M RunMeta.t :=
  match c with
  | Json (DMeta m) => mret m
  | _ => match parse_foreign_meta c with
         | Ok m => mret m
         | Throw e => mthrow e
         end
  end.

Definition readMeta (runId : str) : M (option RunMeta.t) :=
  w ← get_world;
  match run_file w runId META with
  | None => mret None
  | Some c => io_point;; m ← parse_meta c; mret (Some m)
  end.

Definition pending_step (name : str) : StepMeta.t :=
  StepMeta.mk name Pending None None None.

Definition createRun (runId : str) : M RunMeta.t :=
  mkdir_run runId;;
  t ← now;
  let meta := RunMeta.mk runId RunRunning t None (pending_step <$> STEPS)
                         None None in
  writeMeta runId meta;;
  mret meta.

(** The path returned is given relative to the [.loretech] directory. *)
Definition writeArtifact (runId filename : str) (c : content) : M str :=
  write_run_file runId filename c;;
  mret (Js.lit "runs/" ++ runId ++ Js.lit "/" ++ filename).

Definition readArtifact (runId filename : str) : M (option content) :=
  w ← get_world;
  match run_file w runId filename with
  | None => mret None
  | Some c => io_point;; mret (Some c)
  end.

(** [fs.readdirSync(dir)]: the names of the entries, in the order the
    file system gives them. *)
Definition readdir (d : gmap str content) : list str := (map_to_list d).*1.

(** [names.sort()]: ascending by code units.  The names of a directory are
    pairwise different, so the sorted list does not depend on the sorting
    algorithm. *)
Definition sort_names (names : list str) : list str :=
  merge_sort (λ a b, Js.leb a b) names.

Definition listArtifacts (runId : str) : M (list str) :=
  w ← get_world;
  match runs_dir w !! runId with
  | None => mret []
  | Some d => io_point;; mret (sort_names (readdir d))
  end.

(** The assignments of [updateStep] to the step object it found. *)
Definition set_step (status : StepStatus) (artifact : option str) (t : str)
    (s : StepMeta.t) : StepMeta.t :=
  StepMeta.mk
    (StepMeta.name s)
    status
    (if decide (status = Running) then Some t else StepMeta.startedAt s)
    (if decide (status = Completed ∨ status = Failed) then Some t
     else StepMeta.completedAt s)
    (if Js.truthy_opt artifact then artifact else StepMeta.artifact s).

(** [meta.steps.find((s) => s.name === stepName)] and the mutation of the
    element found, which is the first of that name. *)
Fixpoint update_first (stepName : str) (f : StepMeta.t → StepMeta.t)
    (steps : list StepMeta.t) : option (list StepMeta.t) :=
  match steps with
  | [] => None
  | s :: rest =>
      if decide (StepMeta.name s = stepName) then Some (f s :: rest)
      else cons s <$> update_first stepName f rest
  end.

Definition with_steps (steps : list StepMeta.t) (m : RunMeta.t) : RunMeta.t :=
  RunMeta.mk (RunMeta.runId m) (RunMeta.status m) (RunMeta.startedAt m)
             (RunMeta.completedAt m) steps (RunMeta.echoId m)
             (RunMeta.error m).

Definition updateStep (runId stepName : str) (status : StepStatus)
    (artifact : option str) : M () :=
  meta ← readMeta runId;
  match meta with
  | None => mret ()
  | Some meta =>
      match update_first stepName id (RunMeta.steps meta) with
      | None => mret ()
      | Some _ =>
          (* the clock is read only by the branches that stamp a time *)
          t ← (if decide (status = Pending) then mret [] else now);
          match update_first stepName (set_step status artifact t)
                             (RunMeta.steps meta) with
          | None => mret ()
          | Some steps => writeMeta runId (with_steps steps meta)
          end
      end
  end.

(** The assignments of [completeRun] to the record it read. *)
Definition set_result (echoId error : option str) (t : str)
    (m : RunMeta.t) : RunMeta.t :=
  RunMeta.mk
    (RunMeta.runId m)
    (if Js.truthy_opt error then RunFailed else RunCompleted)
    (RunMeta.startedAt m)
    (Some t)
    (RunMeta.steps m)
    (if Js.truthy_opt echoId then echoId else RunMeta.echoId m)
    (if Js.truthy_opt error then error else RunMeta.error m).

Definition completeRun (runId : str) (echoId error : option str) : M () :=
  meta ← readMeta runId;
  match meta with
  | None => mret ()
  | Some meta =>
      t ← now;
      writeMeta runId (set_result echoId error t meta)
  end.
End host.
End Runs.

(** ** [src/memory.ts]: the local echo files *)
Module Memory.
Section host.
Context `{Host}.

(** Truthiness of a JSON value. *)
Definition truthy_json (v : json) : bool :=
  match v with
  | JNull => false
  | JBool b => b
  | JNum n => negb (n =? 0)%Z
  | JStr s => Js.truthy s
  | JArr _ | JObj _ => true
  end.

Definition truthy_json_opt (o : option json) : bool :=
  match o with Some v => truthy_json v | None => false end.

(** [ensureEchoesDir()]: [fs.mkdirSync(echoesDir(), { recursive: true })]. *)
Definition ensureEchoesDir : M () :=
  io_point;;
  set_world (with_echoes (λ e,
    match e with Some d => Some d | None => Some ∅ end)).

(** [fs.writeFileSync(path.join(echoesDir(), filename), c, "utf-8")]:
    the name is made of an identifier that the engine or a file gave, and
    only the name of an entry stays in [echoes/]. *)
Definition write_echo_file (filename : str) (c : content) : M () :=
  io_point;;
  w ← get_world;
  if Js.entry_name filename then
    match echoes w with
    | None => mthrow ENOENT
    | Some d =>
        set_world (with_echoes (λ _, Some (<[filename := stored c]> d)))
    end
  else write_elsewhere (Js.lit "echoes/" ++ filename) c.

Definition md_name (echoId : str) : str := echoId ++ Js.lit ".md".
Definition json_name (echoId : str) : str := echoId ++ Js.lit ".json".

(** The lines [writeEchoRef] puts between the two delimiter lines. *)
Definition field_lines (ref : EchoRef.t) (hasDataset : bool) : list str :=
  [ Js.lit "echoId: " ++ EchoRef.echoId ref;
    Js.lit "privateKey: " ++ EchoRef.privateKey ref;
    Js.lit "title: " ++ [Js.DQUOTE]
      ++ Js.escape_quotes (EchoRef.title ref) ++ [Js.DQUOTE];
    Js.lit "status: " ++ EchoRef.status ref;
    Js.lit "createdAt: " ++ EchoRef.createdAt ref;
    Js.lit "updatedAt: " ++ EchoRef.updatedAt ref ]
  ++ (if hasDataset
      then [ Js.lit "dataset: " ++ [Js.DQUOTE] ++ Js.lit "[["
             ++ EchoRef.echoId ref ++ Js.lit ".json]]" ++ [Js.DQUOTE] ]
      else []).

(** The frontmatter block built by [writeEchoRef]. *)
Definition frontmatter (ref : EchoRef.t) (hasDataset : bool) : str :=
  Js.join [Js.LF]
    ([ Js.lit "---" ] ++ field_lines ref hasDataset ++ [ Js.lit "---" ]).

(** The text of the [.md] file. *)
Definition echo_file_text (ref : EchoRef.t) (hasDataset : bool) : str :=
  if Js.truthy (EchoRef.markdown ref)
  then frontmatter ref hasDataset ++ [Js.LF; Js.LF] ++ EchoRef.markdown ref
       ++ [Js.LF]
  else frontmatter ref hasDataset ++ [Js.LF].

Definition writeEchoRef (ref : EchoRef.t) (dataset : option json) : M () :=
  ensureEchoesDir;;
  let hasDataset := truthy_json_opt dataset in
  write_echo_file (md_name (EchoRef.echoId ref))
                  (Raw (echo_file_text ref hasDataset));;
  match dataset with
  | Some v =>
      if truthy_json v
      then write_echo_file (json_name (EchoRef.echoId ref)) (Json (DValue v))
      else mret ()
  | None => mret ()
  end.

(** The closure [get] of [parseEchoRef], on the frontmatter [fm]. *)
Definition get (fm key : str) : str :=
  match Js.match_key key fm with
  | Some v => Js.trim (Js.strip_outer_quotes v)
  | None => []
  end.

(** [a || b] on strings. *)
Definition or_else (a b : str) : str := if Js.truthy a then a else b.

Definition parseEchoRef (content : str) : option EchoRef.t :=
  match Js.match_frontmatter content with
  | None => None
  | Some fm =>
      let echoId := get fm (Js.lit "echoId") in
      let privateKey := get fm (Js.lit "privateKey") in
      if negb (Js.truthy echoId) || negb (Js.truthy privateKey) then None
      else
        let bodyStart := Js.index_of_from (Js.lit "---") content 4 in
        let markdown :=
          if decide (bodyStart ≠ (-1)%Z) then
            Js.trim (Js.slice_from
              (Js.index_of_from [Js.LF] content (Z.to_nat bodyStart) + 1)%Z
              content)
          else [] in
        Some (EchoRef.mk echoId privateKey
                (get fm (Js.lit "title"))
                (or_else (get fm (Js.lit "status")) (Js.lit "draft"))
                (get fm (Js.lit "createdAt"))
                (get fm (Js.lit "updatedAt"))
                markdown None)
  end.

(** [parseEchoRef] on the text of a file.  The serialisation of a JSON
    document does not start with the frontmatter delimiter, so the first
    match fails on it. *)
Definition parse_echo_file (c : content) : option EchoRef.t :=
  match c with
  | Raw s => parseEchoRef s
  | Json _ => None
  end.

Definition with_jsonPath (p : option str) (r : EchoRef.t) : EchoRef.t :=
  EchoRef.mk (EchoRef.echoId r) (EchoRef.privateKey r) (EchoRef.title r)
             (EchoRef.status r) (EchoRef.createdAt r) (EchoRef.updatedAt r)
             (EchoRef.markdown r) p.

(** [fs.existsSync(path.join(echoesDir(), name))] while the directory
    [echoes/] is [d]: the name of an entry is looked up in the directory;
    any other name (the name is made of an identifier read from a file)
    leads out of it. *)
Definition echo_file_exists (w : World) (d : gmap str content) (name : str)
    : bool :=
  if Js.entry_name name then bool_decide (is_Some (d !! name))
  else exists_stray (strayed w) (files w) (Js.lit "echoes/" ++ name).

(** The body of the [for] loop of [readEchoRefs] over the entries still to
    visit, inside its [try]: an exception ends the loop and keeps the
    references pushed so far. *)
Fixpoint read_files (d : gmap str content) (files : list (str * content))
    (refs : list EchoRef.t) (w : World) : list EchoRef.t * World :=
  match files with
  | [] => (refs, w)
  | (file, c) :: rest =>
      if negb (Js.ends_with (Js.lit ".md") file) then read_files d rest refs w
      else
        match io_point w with
        | (Throw _, w') => (refs, w')
        | (Ok _, w') =>
            match parse_echo_file c with
            | None => read_files d rest refs w'
            | Some ref =>
                let jsonFile := json_name (EchoRef.echoId ref) in
                let ref' :=
                  if echo_file_exists w' d jsonFile
                  then with_jsonPath (Some (Js.lit "echoes/" ++ jsonFile)) ref
                  else ref in
                read_files d rest (refs ++ [ref']) w'
            end
        end
  end.

(** Insertion of [x] in front of the first element that the comparator
    does not put before it. *)
Fixpoint insert_by {A} (cmp : A → A → Z) (x : A) (l : list A) : list A :=
  match l with
  | [] => [x]
  | y :: l' => if (0 <? cmp x y)%Z then y :: insert_by cmp x l'
               else x :: y :: l'
  end.

(** [l.sort(cmp)]: the sort of ECMAScript is stable, and for a consistent
    comparator every stable sort gives this list. *)
Definition sort_by {A} (cmp : A → A → Z) (l : list A) : list A :=
  foldr (insert_by cmp) [] l.

Definition newest_first (a b : EchoRef.t) : Z :=
  localeCompare (EchoRef.updatedAt b) (EchoRef.updatedAt a).

(** The [try] block of [readEchoRefs] with the sort that follows it. *)
Definition read_dir (d : gmap str content) : M (list EchoRef.t) := λ w,
  match io_point w with
  | (Throw _, w') => (Ok (sort_by newest_first []), w')
  | (Ok _, w') =>
      let '(refs, w'') := read_files d (map_to_list d) [] w' in
      (Ok (sort_by newest_first refs), w'')
  end.

Definition readEchoRefs : M (list EchoRef.t) :=
  ensureEchoesDir;;
  w ← get_world;
  match echoes w with
  | None => mret []
  | Some d => read_dir d
  end.
End host.
End Memory.

(** ** [src/server.ts]: the poll of the background enrichment and the tools *)

(** The object a tool handler returns ([isError] absent: [false]). *)
Module ToolResult.
Record t := mk {
  text : str;
  isError : bool;
}.
End ToolResult.

(** Arguments of [loretech_echo] ([echoInputSchema]). *)
Module EchoArgs.
Record t := mk {
  context : str;
  depth : str;
  focus : option str;
  intent : option str;
  signals : option json;
  scope : option str;
  source : option json;
  echoId : option str;
  model : option str;
}.
End EchoArgs.

(** The [fromStep] enumeration of [loretech_rerun]. *)
Inductive FromStep := FromContext | FromSources | FromCompose.

Global Instance FromStep_eq_dec : EqDecision FromStep.
Proof. solve_decision. Defined.

(** Arguments of [loretech_rerun]. *)
Module RerunArgs.
Record t := mk {
  runId : str;
  fromStep : FromStep;
  overrideContext : option str;
}.
End RerunArgs.

Module Server.
Section host.
Context `{Host}.

Definition with_sent (r : Request.t) (w : World) : World :=
  mkWorld (env_file w) (runs_dir w) (echoes w) (ticks w) (io_faults w)
          (posts w) (gets w) (sent w ++ [r]) (timers w) (strayed w).

Definition with_posts (l : list (fetched EchoData.t)) (w : World) : World :=
  mkWorld (env_file w) (runs_dir w) (echoes w) (ticks w) (io_faults w)
          l (gets w) (sent w) (timers w) (strayed w).

Definition with_gets (l : list (fetched PollData.t)) (w : World) : World :=
  mkWorld (env_file w) (runs_dir w) (echoes w) (ticks w) (io_faults w)
          (posts w) l (sent w) (timers w) (strayed w).

Definition with_timer (j : PollJob.t) (w : World) : World :=
  mkWorld (env_file w) (runs_dir w) (echoes w) (ticks w) (io_faults w)
          (posts w) (gets w) (sent w) (timers w ++ [j]) (strayed w).

Definition FETCH_FAILED : str := Js.lit "fetch failed".

(** [await fetch(url, { method: "POST", ... })]. *)
Definition fetch_post (r : Request.t) : M (Response.t EchoData.t) := λ w,
  let w := with_sent r w in
  match posts w with
  | [] => (Throw FETCH_FAILED, w)
  | Rejected e :: rest => (Throw e, with_posts rest w)
  | Resolved res :: rest => (Ok res, with_posts rest w)
  end.

(** [await fetch(url, { headers, signal })]. *)
Definition fetch_get (r : Request.t) : M (Response.t PollData.t) := λ w,
  let w := with_sent r w in
  match gets w with
  | [] => (Throw FETCH_FAILED, w)
  | Rejected e :: rest => (Throw e, with_gets rest w)
  | Resolved res :: rest => (Ok res, with_gets rest w)
  end.

(** [await p] of a promise that resolves or rejects. *)
Definition await {A} (o : outcome A) : M A :=
  match o with
  | Ok a => mret a
  | Throw e => mthrow e
  end.

(** *** [loadEnv] *)

Definition is_env_key_char (c : N) : bool :=
  ((65 <=? c) && (c <=? 90)) || (c =? 95).

(** [line.match(/^([A-Z_]+)=(.+)$/)] on one piece of the split: the greedy
    class run has to be followed by [=], and without the [m] flag [$] is
    the end of the piece, so what follows has to be a non-empty run free
    of line terminators up to there. *)
Fixpoint match_env_value (key : str) (s : str) : option (str * str) :=
  match s with
  | c :: s' =>
      if is_env_key_char c then match_env_value (key ++ [c]) s'
      else if (c =? 61) && Js.truthy key && Js.truthy s'
              && bool_decide (Js.dot_run s' = s')
           then Some (key, s') else None
  | [] => None
  end.

Definition match_env_line (line : str) : option (str * str) :=
  match_env_value [] line.

(** The loop of [loadEnv] over the lines of the file: a later line for a
    key replaces an earlier one. *)
Definition parse_env (txt : str) : gmap str str :=
  foldl (λ (env : gmap str str) line,
           match match_env_line line with
           | Some (k, v) => <[k := v]> env
           | None => env
           end) ∅ (Js.split_lines txt).

Definition loadEnv : M (gmap str str) :=
  w ← get_world;
  match env_file w with
  | None => mret ∅
  | Some txt => io_point;; mret (parse_env txt)
  end.

(** *** [pollWebsetDataset] *)

Definition MAX_ATTEMPTS : nat := 30.

Definition poll_request (job : PollJob.t) : Request.t :=
  Request.mk (Js.lit "GET")
    (LORETECH_API ++ Js.lit "/echo/" ++ PollJob.echoId job)
    [ (Js.lit "Authorization", Js.lit "Bearer " ++ PollJob.privateKey job);
      (Js.lit "X-Exa-Key", PollJob.exaKey job) ]
    None.

(** How one run of the closure [poll] ends: it returned from inside the
    [try] block, it handed itself to [setTimeout] again, or it marked the
    step and ended. *)
Inductive PollExit := Returned | Rescheduled | MarkedDone.

(** The [try] block of [poll]: [true] when it ran into a [return], [false]
    when control reaches the statements after the block (also through
    the empty [catch]). *)
Definition poll_try (job : PollJob.t) : M bool :=
  try_catch
    (res ← fetch_get (poll_request job);
     if negb (Response.ok res) then mret true
     else
       data ← await (Response.json res);
       match PollData.dataset data with
       | Some (item :: items) =>
           if bool_decide (PollData.websetStatus data
                           = Some (Js.lit "completed")) then
             Runs.writeArtifact (PollJob.runId job) (Js.lit "dataset.json")
               (Json (DValue (JArr (item :: items))));;
             Runs.updateStep (PollJob.runId job) (Js.lit "webset")
               Completed None;;
             Memory.write_echo_file (Memory.json_name (PollJob.echoId job))
               (Json (DValue (JArr (item :: items))));;
             mret true
           else mret false
       | _ => mret false
       end)
    (λ _, mret false).

(** One run of the closure [poll]; [attempts] is the counter after its
    increment. *)
Definition poll (job : PollJob.t) (attempts : nat) : M PollExit :=
  returned ← poll_try job;
  if returned : bool then mret Returned
  else if decide (attempts < MAX_ATTEMPTS)%nat then mret Rescheduled
  else
    Runs.updateStep (PollJob.runId job) (Js.lit "webset") Completed None;;
    mret MarkedDone.

(** The chain of timer callbacks started by [pollWebsetDataset], from the
    counter value [attempts]; [fuel] bounds the callbacks followed.  The
    result is the exit of the last callback run, [Rescheduled] when the
    fuel ended with a timer still pending. *)
Fixpoint poll_chain (fuel : nat) (job : PollJob.t) (attempts : nat)
    : M PollExit :=
  match fuel with
  | O => mret Rescheduled
  | S fuel' =>
      e ← poll job (S attempts);
      match e with
      | Rescheduled => poll_chain fuel' job (S attempts)
      | _ => mret e
      end
  end.

(** The whole background activity of one [pollWebsetDataset] call. *)
Definition run_poll (job : PollJob.t) : M PollExit :=
  poll_chain MAX_ATTEMPTS job 0.

(** [pollWebsetDataset(...)] itself only arms the first timer. *)
Definition pollWebsetDataset (job : PollJob.t) : M () :=
  set_world (with_timer job).

(** *** The tool [loretech_echo] *)

Definition MISSING_KEYS : ToolResult.t :=
  ToolResult.mk (Js.lit "Missing API keys. Run `bunx loretech` to configure.")
                true.

(** [if (x) body.k = x]: a falsy value leaves the key out. *)
Definition keep (o : option str) : option str :=
  if Js.truthy_opt o then o else None.

Definition keep_json (o : option json) : option json :=
  if Memory.truthy_json_opt o then o else None.

Definition header_if (name : string) (o : option str) : list (str * str) :=
  match o with
  | Some v => if Js.truthy v then [(Js.lit name, v)] else []
  | None => []
  end.

Definition engine_headers (loretechKey openrouterKey exaKey : str)
    : list (str * str) :=
  [ (Js.lit "Content-Type", Js.lit "application/json");
    (Js.lit "X-Loretech-Key", loretechKey);
    (Js.lit "X-OpenRouter-Key", openrouterKey);
    (Js.lit "X-Exa-Key", exaKey) ].

Definition echo_url : str := LORETECH_API ++ Js.lit "/echo".

Definition engine_error (res : Response.t EchoData.t) (text : str) : str :=
  Js.lit "Engine returned " ++ Js.of_nat (Response.status res)
  ++ Js.lit ": " ++ text.

Definition echo_ref_of (data : EchoData.t) : EchoRef.t :=
  EchoRef.mk (EchoData.echoId data) (EchoData.privateKey data)
             (EchoData.title data) (EchoData.status data)
             (EchoData.createdAt data) (EchoData.updatedAt data)
             (EchoData.markdown data) None.

(** [`${x}`] of an optional string. *)
Definition show_opt (o : option str) : str :=
  match o with Some s => s | None => Js.lit "undefined" end.

(** [pieces.filter(Boolean).join("\n")]. *)
Definition join_truthy (pieces : list str) : str :=
  Js.join [Js.LF] (filter (λ p, Js.truthy p) pieces).

Definition echo_success_text (runId : str) (data : EchoData.t) : str :=
  let tagLine :=
    match EchoData.tags data with
    | [] => []
    | tags => Js.LF :: Js.lit "Tags: " ++ Js.join (Js.lit ", ") tags
    end in
  let sourceLine :=
    Js.LF :: Js.lit "Sources: "
      ++ Js.of_nat (length (EchoData.sources data)) ++ Js.lit " found" in
  let websetLine :=
    if Js.truthy_opt (EchoData.websetId data)
    then Js.LF :: Js.lit "Webset: " ++ show_opt (EchoData.websetStatus data)
         ++ Js.lit " (enriching in background)"
    else [] in
  let runLine :=
    Js.LF :: Js.lit "Run artifacts: .loretech/runs/" ++ runId ++ Js.lit "/" in
  join_truthy
    [ Js.lit "# " ++ EchoData.title data;
      (if Js.truthy_opt (EchoData.subtitle data)
       then Js.lit "*" ++ show_opt (EchoData.subtitle data) ++ Js.lit "*"
       else []);
      tagLine; sourceLine; websetLine; runLine; [];
      Js.lit "Private URL: " ++ EchoData.privateUrl data;
      Js.lit "Echo saved to: .loretech/echoes/" ++ EchoData.echoId data
        ++ Js.lit ".md";
      []; Js.lit "---"; [];
      EchoData.markdown data ].

Definition echo_context (args : EchoArgs.t) : ContextArtifact.t :=
  ContextArtifact.mk (EchoArgs.context args) (EchoArgs.depth args)
    (EchoArgs.focus args) (EchoArgs.intent args) (EchoArgs.signals args)
    (EchoArgs.scope args) (EchoArgs.source args) None None.

Definition echo_body (args : EchoArgs.t) : EngineBody.t :=
  EngineBody.mk (EchoArgs.context args) (EchoArgs.depth args)
    (keep (EchoArgs.focus args)) (keep (EchoArgs.intent args))
    (keep_json (EchoArgs.signals args)) (keep (EchoArgs.scope args))
    (keep_json (EchoArgs.source args)) (keep (EchoArgs.echoId args))
    (keep (EchoArgs.model args)).

(** The block "if updating, add auth" of the handler: the private key of
    the first local reference with the identifier becomes the bearer
    credential. *)
Definition with_authorization (args : EchoArgs.t) (headers : list (str * str))
    : M (list (str * str)) :=
  if Js.truthy_opt (EchoArgs.echoId args) then
    refs ← Memory.readEchoRefs;
    match List.find (λ r, bool_decide
                       (Some (EchoRef.echoId r) = EchoArgs.echoId args))
                    refs with
    | Some existing =>
        if Js.truthy (EchoRef.privateKey existing)
        then mret (headers ++ [ (Js.lit "Authorization",
                     Js.lit "Bearer " ++ EchoRef.privateKey existing) ])
        else mret headers
    | None => mret headers
    end
  else mret headers.

(** The [try] block of the handler. *)
Definition echo_try (args : EchoArgs.t) (env : gmap str str)
    (loretechKey openrouterKey exaKey runId : str) : M ToolResult.t :=
  let body := echo_body args in
  let headers :=
    engine_headers loretechKey openrouterKey exaKey
    ++ header_if "X-Display-Name" (env !! Js.lit "DISPLAY_NAME")
    ++ header_if "X-Handle" (env !! Js.lit "X_HANDLE") in
  headers ← with_authorization args headers;
  res ← fetch_post (Request.mk (Js.lit "POST") echo_url headers (Some body));
  if negb (Response.ok res) then
    text ← await (Response.text res);
    Runs.updateStep runId (Js.lit "sources") Failed None;;
    Runs.completeRun runId None (Some (engine_error res text));;
    mret (ToolResult.mk
            (Js.lit "Echo creation failed ("
             ++ Js.of_nat (Response.status res) ++ Js.lit "): " ++ text)
            true)
  else
    data ← await (Response.json res);
    Runs.writeArtifact runId (Js.lit "sources.json")
      (Json (DValue (JArr (EchoData.sources data))));;
    Runs.updateStep runId (Js.lit "sources") Completed
      (Some (Js.lit "sources.json"));;
    Runs.updateStep runId (Js.lit "compose") Running None;;
    Runs.writeArtifact runId (Js.lit "echo.md") (Raw (EchoData.markdown data));;
    Runs.updateStep runId (Js.lit "compose") Completed
      (Some (Js.lit "echo.md"));;
    Runs.updateStep runId (Js.lit "store") Running None;;
    Memory.writeEchoRef (echo_ref_of data) None;;
    Runs.updateStep runId (Js.lit "store") Completed None;;
    Runs.updateStep runId (Js.lit "record") Completed None;;
    (if Js.truthy_opt (EchoData.websetId data) then
       Runs.updateStep runId (Js.lit "webset") Running None;;
       pollWebsetDataset
         (PollJob.mk (EchoData.echoId data) (EchoData.privateKey data)
                     runId exaKey)
     else Runs.updateStep runId (Js.lit "webset") Completed None);;
    Runs.completeRun runId (Some (EchoData.echoId data)) None;;
    mret (ToolResult.mk (echo_success_text runId data) false).

(** The [catch] block of the handler. *)
Definition echo_catch (runId msg : str) : M ToolResult.t :=
  Runs.completeRun runId None (Some msg);;
  mret (ToolResult.mk (Js.lit "Echo creation failed: " ++ msg) true).

(** The handler of [loretech_echo]; [runId] is the identifier it draws
    from [Date.now()] and [Math.random()]. *)
Definition loretech_echo (args : EchoArgs.t) (runId : str)
    : M ToolResult.t :=
  env ← loadEnv;
  match env !! Js.lit "LORETECH_API_KEY",
        env !! Js.lit "OPENROUTER_API_KEY",
        env !! Js.lit "EXA_API_KEY" with
  | Some loretechKey, Some openrouterKey, Some exaKey =>
      if negb (Js.truthy loretechKey) || negb (Js.truthy openrouterKey)
         || negb (Js.truthy exaKey)
      then mret MISSING_KEYS
      else
        Runs.createRun runId;;
        Runs.updateStep runId (Js.lit "context") Running None;;
        Runs.writeArtifact runId (Js.lit "context.json")
          (Json (DContext (echo_context args)));;
        Runs.updateStep runId (Js.lit "context") Completed
          (Some (Js.lit "context.json"));;
        Runs.updateStep runId (Js.lit "sources") Running None;;
        try_catch
          (echo_try args env loretechKey openrouterKey exaKey runId)
          (echo_catch runId)
  | _, _, _ => mret MISSING_KEYS
  end.

(** *** The tool [loretech_rerun] *)

Definition step_name (s : FromStep) : str :=
  match s with
  | FromContext => Js.lit "context"
  | FromSources => Js.lit "sources"
  | FromCompose => Js.lit "compose"
  end.

(** [JSON.parse(contextRaw)] of the text of [context.json]. *)
Definition parse_context (c : content) : M ContextArtifact.t :=
  match c with
  | Json (DContext a) => mret a
  | _ => await (parse_foreign_context c)
  end.

(** Truthiness of the text of a file. *)
Definition truthy_content (c : content) : bool :=
  match c with
  | Raw s => Js.truthy s
  | Json _ => true
  end.

(** The context the new run works on. *)
Definition rerun_context (args : RerunArgs.t) (original : ContextArtifact.t)
    : str :=
  if bool_decide (RerunArgs.fromStep args = FromContext)
     && Js.truthy_opt (RerunArgs.overrideContext args)
  then show_opt (RerunArgs.overrideContext args)
  else ContextArtifact.context original.

Definition rerun_artifact (args : RerunArgs.t) (original : ContextArtifact.t)
    : ContextArtifact.t :=
  ContextArtifact.mk (rerun_context args original)
    (ContextArtifact.depth original) (ContextArtifact.focus original)
    None None None None
    (Some (RerunArgs.runId args))
    (Some (step_name (RerunArgs.fromStep args))).

Definition rerun_body (args : RerunArgs.t) (original : ContextArtifact.t)
    : EngineBody.t :=
  EngineBody.mk (rerun_context args original)
    (ContextArtifact.depth original)
    (keep (ContextArtifact.focus original))
    (keep (ContextArtifact.intent original))
    (keep_json (ContextArtifact.signals original))
    (keep (ContextArtifact.scope original))
    (keep_json (ContextArtifact.source original))
    None None.

Definition rerun_success_text (args : RerunArgs.t) (newRunId : str)
    (data : EchoData.t) : str :=
  Js.join [Js.LF]
    [ Js.lit "Rerun complete: " ++ EchoData.title data;
      Js.lit "Original run: " ++ RerunArgs.runId args ++ Js.lit " "
        ++ [8594] ++ Js.lit " New run: " ++ newRunId;
      Js.lit "Replayed from: " ++ step_name (RerunArgs.fromStep args)
        ++ (if Js.truthy_opt (RerunArgs.overrideContext args)
            then Js.lit " (with modified context)" else []);
      Js.lit "Echo: .loretech/echoes/" ++ EchoData.echoId data
        ++ Js.lit ".md";
      Js.lit "Run artifacts: .loretech/runs/" ++ newRunId ++ Js.lit "/";
      Js.lit "Private URL: " ++ EchoData.privateUrl data ].

(** The [try] block of the handler. *)
Definition rerun_try (args : RerunArgs.t) (original : ContextArtifact.t)
    (loretechKey openrouterKey exaKey newRunId : str) : M ToolResult.t :=
  let body := rerun_body args original in
  res ← fetch_post
          (Request.mk (Js.lit "POST") echo_url
             (engine_headers loretechKey openrouterKey exaKey) (Some body));
  if negb (Response.ok res) then
    text ← await (Response.text res);
    Runs.updateStep newRunId (Js.lit "sources") Failed None;;
    Runs.completeRun newRunId None (Some (engine_error res text));;
    mret (ToolResult.mk
            (Js.lit "Rerun failed (" ++ Js.of_nat (Response.status res)
             ++ Js.lit "): " ++ text)
            true)
  else
    data ← await (Response.json res);
    Runs.writeArtifact newRunId (Js.lit "sources.json")
      (Json (DValue (JArr (EchoData.sources data))));;
    Runs.updateStep newRunId (Js.lit "sources") Completed
      (Some (Js.lit "sources.json"));;
    Runs.updateStep newRunId (Js.lit "compose") Running None;;
    Runs.writeArtifact newRunId (Js.lit "echo.md")
      (Raw (EchoData.markdown data));;
    Runs.updateStep newRunId (Js.lit "compose") Completed
      (Some (Js.lit "echo.md"));;
    Runs.updateStep newRunId (Js.lit "store") Running None;;
    Memory.writeEchoRef (echo_ref_of data) None;;
    Runs.updateStep newRunId (Js.lit "store") Completed None;;
    Runs.updateStep newRunId (Js.lit "record") Completed None;;
    Runs.updateStep newRunId (Js.lit "webset")
      (if Js.truthy_opt (EchoData.websetId data) then Running else Completed)
      None;;
    Runs.completeRun newRunId (Some (EchoData.echoId data)) None;;
    mret (ToolResult.mk (rerun_success_text args newRunId data) false).

(** The [catch] block of the handler. *)
Definition rerun_catch (newRunId msg : str) : M ToolResult.t :=
  Runs.completeRun newRunId None (Some msg);;
  mret (ToolResult.mk (Js.lit "Rerun failed: " ++ msg) true).

(** The handler of [loretech_rerun]; [newRunId] is the identifier it draws
    from [Date.now()] and [Math.random()]. *)
Definition loretech_rerun (args : RerunArgs.t) (newRunId : str)
    : M ToolResult.t :=
  originalMeta ← Runs.readMeta (RerunArgs.runId args);
  match originalMeta with
  | None =>
      mret (ToolResult.mk
              (Js.lit "Run " ++ RerunArgs.runId args ++ Js.lit " not found.")
              true)
  | Some _ =>
      contextRaw ← Runs.readArtifact (RerunArgs.runId args)
                                     (Js.lit "context.json");
      match contextRaw with
      | Some raw =>
          if truthy_content raw then
            original ← parse_context raw;
            env ← loadEnv;
            match env !! Js.lit "LORETECH_API_KEY",
                  env !! Js.lit "OPENROUTER_API_KEY",
                  env !! Js.lit "EXA_API_KEY" with
            | Some loretechKey, Some openrouterKey, Some exaKey =>
                if negb (Js.truthy loretechKey)
                   || negb (Js.truthy openrouterKey)
                   || negb (Js.truthy exaKey)
                then mret MISSING_KEYS
                else
                  Runs.createRun newRunId;;
                  Runs.updateStep newRunId (Js.lit "context") Running None;;
                  Runs.writeArtifact newRunId (Js.lit "context.json")
                    (Json (DContext (rerun_artifact args original)));;
                  Runs.updateStep newRunId (Js.lit "context") Completed
                    (Some (Js.lit "context.json"));;
                  Runs.updateStep newRunId (Js.lit "sources") Running None;;
                  try_catch
                    (rerun_try args original loretechKey openrouterKey
                               exaKey newRunId)
                    (rerun_catch newRunId)
            | _, _, _ => mret MISSING_KEYS
            end
          else
            mret (ToolResult.mk
                    (Js.lit "No context.json found in run "
                     ++ RerunArgs.runId args ++ Js.lit ". Cannot replay.")
                    true)
      | None =>
          mret (ToolResult.mk
                  (Js.lit "No context.json found in run "
                   ++ RerunArgs.runId args ++ Js.lit ". Cannot replay.")
                  true)
      end
  end.
End host.
End Server.

(** ** [src/runs.ts]: the listing of the runs *)

Section list_runs.
Context `{Host}.

(** The [for] loop of [listRuns] over the entries of [runs/], which are
    the run directories: the record of each run that has one is pushed; an
    exception of [readMeta] leaves the loop and the function. *)
Fixpoint read_runs (names : list str) (runs : list RunMeta.t)
    : M (list RunMeta.t) :=
  match names with
  | [] => mret runs
  | name :: rest =>
      meta ← Runs.readMeta name;
      read_runs rest (match meta with
                      | Some m => runs ++ [m]
                      | None => runs
                      end)
  end.

Definition newest_run_first (a b : RunMeta.t) : Z :=
  localeCompare (RunMeta.startedAt b) (RunMeta.startedAt a).

(** [listRuns(limit)] for a limit that is a natural number.  The world does
    not tell an empty [runs/] directory from a missing one: [runs/] is taken
    to exist when it holds a run directory, and both cases list nothing. *)
Definition listRuns (limit : nat) : M (list RunMeta.t) :=
  w ← get_world;
  match (map_to_list (runs_dir w)).*1 with
  | [] => mret []
  | names =>
      io_point;;
      runs ← read_runs names [];
      mret (take limit (Memory.sort_by newest_run_first runs))
  end.
End list_runs.

(** ** [src/memory.ts]: the resolution of the [.loretech] directory *)

(** [findLoretechDir] on absolute POSIX paths.  A path is the list of its
    segments, innermost first: [path.dirname] is the tail and leaves the
    root [[]] as it is, [path.join(dir, name)] adds a head.  The file
    system enters as the predicate [fs.existsSync], the process as its
    working directory and its home directory. *)
Module Paths.

Definition join (dir : list str) (name : string) : list str :=
  Js.lit name :: dir.

(** The [while] loop, entered with [dir]: each round moves to the parent,
    returns its [.loretech] when it exists, and breaks at a [.git]. *)
Fixpoint walk_up (existsSync : list str → bool) (dir : list str)
    : option (list str) :=
  match dir with
  | [] => None
  | _ :: parent =>
      if existsSync (join parent ".loretech") then Some (join parent ".loretech")
      else if existsSync (join parent ".git") then None
      else walk_up existsSync parent
  end.

Definition findLoretechDir (existsSync : list str → bool) (cwd home : list str)
    : list str :=
  if existsSync (join cwd ".loretech") then join cwd ".loretech"
  else match walk_up existsSync cwd with
       | Some candidate => candidate
       | None => join home ".loretech"
       end.
End Paths.

(** ** Observations and reference definitions for the properties *)

Section observations.
Context `{Host}.

(** The first step of a name in a step list, as [Array.prototype.find]
    gives it. *)
Definition find_step (name : str) (steps : list StepMeta.t)
    : option StepMeta.t :=
  List.find (λ s, bool_decide (StepMeta.name s = name)) steps.

Definition step_status_in (m : RunMeta.t) (name : str) : option StepStatus :=
  StepMeta.status <$> find_step name (RunMeta.steps m).

(** The state machine of the specification:
    pending → running → {completed, failed}. *)
Definition legal_successor (old new : StepStatus) : bool :=
  match old, new with
  | Pending, Running | Running, Completed | Running, Failed => true
  | _, _ => false
  end.

(** What [updateStep] does to a record that holds the step. *)
Definition apply_update (stepName : str) (status : StepStatus)
    (artifact : option str) (t : str) (m : RunMeta.t) : RunMeta.t :=
  match Runs.update_first stepName (Runs.set_step status artifact t)
                          (RunMeta.steps m) with
  | Some steps => Runs.with_steps steps m
  | None => m
  end.

(** A successful read of the ledger that leaves the world as it is. *)
Definition ledger_at (w : World) (runId : str) (m : RunMeta.t) : Prop :=
  io_faults w = [] ∧ Runs.readMeta runId w = (Ok (Some m), w).

(** The parts of the world outside the run directories and the clock. *)
Definition frame (w w' : World) : Prop :=
  env_file w' = env_file w ∧ echoes w' = echoes w
  ∧ io_faults w' = io_faults w ∧ posts w' = posts w ∧ gets w' = gets w
  ∧ sent w' = sent w ∧ timers w' = timers w.

(** A sequence of [completeRun] calls on one run, each with its
    [{ echoId, error }]. *)
Fixpoint complete_all (runId : str) (calls : list (option str * option str))
    : M () :=
  match calls with
  | [] => mret ()
  | (echoId, error) :: rest =>
      Runs.completeRun runId echoId error;; complete_all runId rest
  end.

(** The last truthy value of a sequence of optional strings, [d] when
    there is none. *)
Definition last_supplied (d : option str) (l : list (option str))
    : option str :=
  foldl (λ acc o, if Js.truthy_opt o then o else acc) d l.

(** The status of a step as a read of the ledger shows it. *)
Definition read_step_status (w : World) (runId name : str)
    : option StepStatus :=
  match (Runs.readMeta runId w).1 with
  | Ok (Some m) => step_status_in m name
  | _ => None
  end.

(** A world transition that leaves the artifacts of [runId] and the other
    run directories as they are. *)
Definition same_files (runId : str) (w w' : World) : Prop :=
  (∀ f, f ≠ Runs.META → Runs.run_file w' runId f = Runs.run_file w runId f)
  ∧ (∀ r, r ≠ runId → runs_dir w' !! r = runs_dir w !! r).

(** The time [updateStep] stamps: the clock is read unless the new status
    is [Pending]. *)
Definition stamp (w : World) (status : StepStatus) : str :=
  if decide (status = Pending) then [] else toISOString (ticks w).

(** The record [createRun] builds at time [t]. *)
Definition fresh_meta (runId t : str) : RunMeta.t :=
  RunMeta.mk runId RunRunning t None (Runs.pending_step <$> Runs.STEPS)
             None None.

(** Whether some line of [s] starts with [key:]; [bol] tells whether [s]
    itself starts a line. *)
Fixpoint key_at_line_start (key : str) (bol : bool) (s : str) : bool :=
  (bol && Js.starts_with (key ++ Js.lit ":") s)
  || match s with
     | c :: s' => key_at_line_start key (Js.is_line_terminator c) s'
     | [] => false
     end.

(** The frontmatter [fm] has a line for the field [key]. *)
Definition has_field (key fm : str) : bool := key_at_line_start key true fm.

(** The [.env] file of the world configures the three keys the handlers
    ask for. *)
Definition has_keys (w : World) (loretechKey openrouterKey exaKey : str)
    : Prop :=
  ∃ txt, env_file w = Some txt
    ∧ Server.parse_env txt !! Js.lit "LORETECH_API_KEY" = Some loretechKey
    ∧ Server.parse_env txt !! Js.lit "OPENROUTER_API_KEY" = Some openrouterKey
    ∧ Server.parse_env txt !! Js.lit "EXA_API_KEY" = Some exaKey
    ∧ Js.truthy loretechKey ∧ Js.truthy openrouterKey ∧ Js.truthy exaKey.

(** The statuses after step 1 and the start of step 2. *)
Definition started_meta (runId t0 t1 t2 t3 : str) : RunMeta.t :=
  apply_update (Js.lit "sources") Running None t3
    (apply_update (Js.lit "context") Completed (Some (Js.lit "context.json")) t2
       (apply_update (Js.lit "context") Running None t1
          (fresh_meta runId t0))).


(** [m] takes every world of [P] to a world of [Q], and keeps [Q] when it
    throws. *)
Definition transforms {A} (P Q : World → Prop) (m : M A) : Prop :=
  ∀ w, P w → Q (m w).2.

(** The requests sent are [S] and the file [f] of the run [rid] holds [c]. *)
Definition keeps (rid f : str) (c : content) (S : list Request.t) (w : World)
    : Prop :=
  sent w = S ∧ Runs.run_file w rid f = Some c.


(** An optional field of the stored input as the request carries it:
    unchanged when it is truthy, left out otherwise. *)
Definition carried (stored forwarded : option str) : Prop :=
  (Js.truthy_opt stored → forwarded = stored)
  ∧ (¬ Js.truthy_opt stored → forwarded = None).

Definition carried_json (stored forwarded : option json) : Prop :=
  (Memory.truthy_json_opt stored → forwarded = stored)
  ∧ (¬ Memory.truthy_json_opt stored → forwarded = None).


(** A poll response the loop does not take as a refusal: a rejected fetch,
    or a response with [res.ok]. *)
Definition no_refusal (f : fetched PollData.t) : Prop :=
  match f with
  | Rejected _ => True
  | Resolved r => Response.ok r = true
  end.

(** What the poll relies on: a quiet storage layer, a ledger record with the
    webset step, and an engine that does not refuse. *)
Definition pollable (job : PollJob.t) (w : World) (m : RunMeta.t) : Prop :=
  ledger_at w (PollJob.runId job) m
  ∧ is_Some (find_step (Js.lit "webset") (RunMeta.steps m))
  ∧ Forall no_refusal (gets w).


(** A string without a line terminator. *)
Definition single_line (s : str) : Prop :=
  Forall (λ c, Js.is_line_terminator c = false) s.

(** A reference whose header fields hold no line terminator. *)
Definition single_line_fields (ref : EchoRef.t) : Prop :=
  single_line (EchoRef.echoId ref) ∧ single_line (EchoRef.privateKey ref)
  ∧ single_line (EchoRef.title ref) ∧ single_line (EchoRef.status ref)
  ∧ single_line (EchoRef.createdAt ref) ∧ single_line (EchoRef.updatedAt ref).

(** The number of occurrences of the code unit [c]. *)
Definition occurrences (c : N) (s : str) : nat :=
  length (filter (λ x, x = c) s).

(** The lines between the delimiters, joined. *)
Definition header_text (ref : EchoRef.t) (hasDataset : bool) : str :=
  Js.join [Js.LF] (Memory.field_lines ref hasDataset).


(** A line of a frontmatter block: no line terminator inside, and not
    starting like the delimiter. *)
Definition header_line (l : str) : Prop :=
  single_line l ∧ ∃ c l', l = c :: l' ∧ c ≠ 45.

End observations.

(** ** Observations for the further properties *)

Section more_observations.
Context `{Host}.

(** What [Array.prototype.sort] asks of a comparator, as far as the
    sorted result depends on it: two elements are never each after the
    other, and "not after" is transitive. *)
Definition consistent {A} (cmp : A → A → Z) : Prop :=
  (∀ a b, (0 < cmp a b)%Z → (cmp b a ≤ 0)%Z)
  ∧ (∀ a b c, (cmp a b ≤ 0)%Z → (cmp b c ≤ 0)%Z → (cmp a c ≤ 0)%Z).

(** [a] is not older than [b]: the order of a list sorted newest first. *)
Definition not_older (a b : str) : Prop := (localeCompare b a ≤ 0)%Z.

(** The record of a run, when its [meta.json] is one that [writeMeta]
    wrote. *)
Definition record_of (w : World) (runId : str) : option RunMeta.t :=
  match Runs.run_file w runId Runs.META with
  | Some (Json (DMeta m)) => Some m
  | _ => None
  end.

(** Every [meta.json] of the world was written by [writeMeta]. *)
Definition well_kept (w : World) : bool :=
  forallb (λ rd : str * gmap str content,
             match rd.2 !! Runs.META with
             | Some (Json (DMeta _)) | None => true
             | Some _ => false
             end)
          (map_to_list (runs_dir w)).

(** The reference [readEchoRefs] pushes for a parsed file of the
    directory [d]: [jsonPath] is set when the companion file exists. *)
Definition listed (w : World) (d : gmap str content) (r : EchoRef.t)
    : EchoRef.t :=
  if Memory.echo_file_exists w d (Memory.json_name (EchoRef.echoId r))
  then Memory.with_jsonPath
         (Some (Js.lit "echoes/" ++ Memory.json_name (EchoRef.echoId r))) r
  else r.

(** What the loop of [readEchoRefs] pushes for one entry of the directory
    [d], a name with the text of the file: the reference of a file whose
    name ends in [.md] and whose text [parseEchoRef] accepts. *)
Definition listed_entry (w : World) (d : gmap str content)
    (fc : str * content) : option EchoRef.t :=
  if Js.ends_with (Js.lit ".md") fc.1
  then listed w d <$> Memory.parse_echo_file fc.2
  else None.

End more_observations.

Section catalog_observations.

(** A header value that comes back as it was written: not empty, on one
    line, not changed by [trim], and without a double quote at either
    end. *)
Definition plain (v : str) : bool :=
  Js.truthy v
  && forallb (λ c, negb (Js.is_line_terminator c)) v
  && bool_decide (Js.trim v = v)
  && bool_decide (Js.strip_outer_quotes v = v).

(** A title that comes back as it was written: on one line, without a
    double quote, and not changed by [trim]. *)
Definition plain_title (t : str) : bool :=
  forallb (λ c, negb (Js.is_line_terminator c) && negb (c =? Js.DQUOTE)) t
  && bool_decide (Js.trim t = t).

Definition plain_fields (ref : EchoRef.t) : bool :=
  plain (EchoRef.echoId ref) && plain (EchoRef.privateKey ref)
  && plain_title (EchoRef.title ref) && plain (EchoRef.status ref)
  && plain (EchoRef.createdAt ref) && plain (EchoRef.updatedAt ref).

End catalog_observations.

Section written_observations.

(** The directory [echoes/] after [writeEchoRef(ref, dataset)] on the
    directory [d]. *)
Definition after_write (ref : EchoRef.t) (dataset : option json)
    (d : gmap str content) : gmap str content :=
  let d1 := <[Memory.md_name (EchoRef.echoId ref) :=
                stored (Raw (Memory.echo_file_text ref
                               (Memory.truthy_json_opt dataset)))]> d in
  match dataset with
  | Some v =>
      if Memory.truthy_json v
      then <[Memory.json_name (EchoRef.echoId ref) := Json (DValue v)]> d1
      else d1
  | None => d1
  end.

End written_observations.

Section handler_observations.
Context `{Host}.

(** Two records of one run that differ at most in the fields
    [updateStep] assigns: the steps have the same names in the same order,
    and the fields of the run itself are equal. *)
Definition same_run (m m' : RunMeta.t) : Prop :=
  StepMeta.name <$> RunMeta.steps m' = StepMeta.name <$> RunMeta.steps m
  ∧ RunMeta.runId m' = RunMeta.runId m
  ∧ RunMeta.status m' = RunMeta.status m
  ∧ RunMeta.startedAt m' = RunMeta.startedAt m
  ∧ RunMeta.completedAt m' = RunMeta.completedAt m
  ∧ RunMeta.echoId m' = RunMeta.echoId m
  ∧ RunMeta.error m' = RunMeta.error m.

(** The world outside the [.loretech] directory: the configuration, the
    engine, the requests sent and the timers armed. *)
Definition outside_same (w w' : World) : Prop :=
  env_file w' = env_file w ∧ posts w' = posts w ∧ gets w' = gets w
  ∧ sent w' = sent w ∧ timers w' = timers w.

(** The request of [loretech_echo] without the optional headers. *)
Definition is_echo_request (args : EchoArgs.t) (req : Request.t) : Prop :=
  Request.method req = Js.lit "POST"
  ∧ Request.url req = Server.echo_url
  ∧ Request.body req = Some (Server.echo_body args).

(** The poll [loretech_echo] arms for a payload. *)
Definition poll_job_of (data : EchoData.t) (runId exaKey : str) : PollJob.t :=
  PollJob.mk (EchoData.echoId data) (EchoData.privateKey data) runId exaKey.

(** An identifier whose echo file [{echoId}.md] is an entry of [echoes/]:
    the identifier has no [/] and no NUL in it, is well formed and not too
    long.  The identifiers the engine is known to give, such as
    [echo-m4x7k9], are of this kind; the handlers do not check it. *)
Definition names_echo_file (echoId : str) : Prop :=
  Js.entry_name (Memory.md_name echoId) = true.

(** The same for the dataset file [{echoId}.json]. *)
Definition names_dataset_file (echoId : str) : Prop :=
  Js.entry_name (Memory.json_name echoId) = true.

(** An engine whose next answer, when it is a success with a payload that
    can be read, names an echo of that kind. *)
Definition answers_with_file_name (w : World) : Prop :=
  ∀ r rest data,
    posts w = Resolved r :: rest → Response.ok r = true →
    Response.json r = Ok data → names_echo_file (EchoData.echoId data).

End handler_observations.

(** ** Concrete inputs used by the examples *)

(** A host with a counting clock, comparison of strings by code units, a
    [JSON.parse] that rejects every text it is asked about, and a file
    system on which the paths that leave their directory lead through
    directories that do not exist. *)
Definition example_host : Host := {|
  toISOString n := Js.lit "2026-02-26T00:00:0" ++ Js.of_nat n;
  localeCompare a b :=
    if bool_decide (a = b) then 0%Z
    else if Js.leb a b then (-1)%Z else 1%Z;
  LORETECH_API := Js.lit "https://loretech.archive.energy";
  parse_foreign_meta _ := Throw (Js.lit "SyntaxError");
  parse_foreign_context _ := Throw (Js.lit "SyntaxError");
  write_stray _ files _ _ := (Throw ENOENT, files);
  exists_stray _ _ _ := false;
|}.

(** A host whose file system follows the paths that stay in the two
    directories of the world.  [path.join] splits the path at each [/] and
    resolves [.] and [..]; a path that comes out as an entry of [echoes/]
    or of an existing run directory is written there, and every other
    path (the directories themselves, a place in a directory that does not
    exist, a place outside [.loretech]) makes the call throw. *)
Fixpoint path_segments (seg path : str) : list str :=
  match path with
  | [] => [seg]
  | c :: path' =>
      if (c =? 47)%N then seg :: path_segments [] path'
      else path_segments (seg ++ [c]) path'
  end.

(** The segments left of a path, innermost first in [acc]; [None] when a
    [..] leads out of the [.loretech] directory. *)
Fixpoint resolve_segments (acc segs : list str) : option (list str) :=
  match segs with
  | [] => Some (rev acc)
  | seg :: rest =>
      if bool_decide (seg = []) || bool_decide (seg = Js.lit ".")
      then resolve_segments acc rest
      else if bool_decide (seg = Js.lit "..")
      then match acc with
           | [] => None
           | _ :: acc' => resolve_segments acc' rest
           end
      else resolve_segments (seg :: acc) rest
  end.

(** Where a path relative to [.loretech] leads: into [echoes/], into a run
    directory, or to no file of the world. *)
Inductive place :=
| InEchoes (name : str)
| InRun (runId name : str)
| Nowhere.

Definition place_of (path : str) : place :=
  if Js.ends_with [47%N] path then Nowhere
  else
    match resolve_segments [] (path_segments [] path) with
    | Some [dir; name] =>
        if bool_decide (dir = Js.lit "echoes") && Js.entry_name name
        then InEchoes name else Nowhere
    | Some [dir; runId; name] =>
        if bool_decide (dir = Js.lit "runs") && Js.entry_name name
        then InRun runId name else Nowhere
    | _ => Nowhere
    end.

Definition traversing_host : Host := {|
  toISOString n := Js.lit "2026-02-26T00:00:0" ++ Js.of_nat n;
  localeCompare a b :=
    if bool_decide (a = b) then 0%Z
    else if Js.leb a b then (-1)%Z else 1%Z;
  LORETECH_API := Js.lit "https://loretech.archive.energy";
  parse_foreign_meta _ := Throw (Js.lit "SyntaxError");
  parse_foreign_context _ := Throw (Js.lit "SyntaxError");
  write_stray _ '(env, runs, ech) path c :=
    match place_of path with
    | InEchoes name =>
        match ech with
        | Some d => (Ok (), (env, runs, Some (<[name := stored c]> d)))
        | None => (Throw ENOENT, (env, runs, ech))
        end
    | InRun runId name =>
        match runs !! runId with
        | Some d =>
            (Ok (), (env, <[runId := <[name := stored c]> d]> runs, ech))
        | None => (Throw ENOENT, (env, runs, ech))
        end
    | Nowhere => (Throw ENOENT, (env, runs, ech))
    end;
  exists_stray _ '(env, runs, ech) path :=
    match place_of path with
    | InEchoes name => bool_decide (is_Some (ech ≫= (.!! name)))
    | InRun runId name => bool_decide (is_Some (runs !! runId ≫= (.!! name)))
    | Nowhere => false
    end;
|}.

(** An empty [.loretech] directory, a storage layer and an engine that
    never fail and never answer. *)
Definition empty_world : World := mkWorld None ∅ None 0%nat [] [] [] [] [] [].

Definition run_1 : str := Js.lit "1772064000000-k3x9qa".

(** The world after [createRun(run_1)] and the two transitions of the
    context step, pending → running → completed. *)
Definition world_context_done : World :=
  ((Runs.createRun (H := example_host) run_1;;
    Runs.updateStep (H := example_host) run_1 (Js.lit "context") Running None;;
    Runs.updateStep (H := example_host) run_1 (Js.lit "context") Completed
      (Some (Js.lit "context.json"))) empty_world).2.


(** The reference of the test "handles title with quotes" of
    [memory.test.ts]. *)
Definition quoted_word : str := [Js.DQUOTE] ++ Js.lit "quotes" ++ [Js.DQUOTE].

Definition quoted_title : str :=
  Js.lit "Title with " ++ quoted_word ++ Js.lit " inside".

Definition ref_quotes : EchoRef.t :=
  EchoRef.mk (Js.lit "echo-quotes") (Js.lit "pk_xyz") quoted_title
    (Js.lit "published") (Js.lit "2026-02-26T00:00:00Z")
    (Js.lit "2026-02-26T00:00:00Z") [] None.

(** The title that comes back: a backslash in front of each quote. *)
Definition escaped_title : str :=
  Js.lit "Title with " ++ [Js.BACKSLASH; Js.DQUOTE] ++ Js.lit "quotes"
  ++ [Js.BACKSLASH; Js.DQUOTE] ++ Js.lit " inside".

(** A catalog file whose status field is empty, as [writeEchoRef] writes it
    for a reference with the empty status. *)
Definition ref_blank_status : EchoRef.t :=
  EchoRef.mk (Js.lit "echo-blank") (Js.lit "pk_blank") (Js.lit "Blank status")
    [] (Js.lit "2026-02-27T00:00:00Z") (Js.lit "2026-02-28T00:00:00Z")
    (Js.lit "Body.") None.

Definition blank_status_file : str :=
  Js.join [Js.LF]
    [ Js.lit "---";
      Js.lit "echoId: echo-blank";
      Js.lit "privateKey: pk_blank";
      Js.lit "title: " ++ [Js.DQUOTE] ++ Js.lit "Blank status" ++ [Js.DQUOTE];
      Js.lit "status: ";
      Js.lit "createdAt: 2026-02-27T00:00:00Z";
      Js.lit "updatedAt: 2026-02-28T00:00:00Z";
      Js.lit "---";
      [];
      Js.lit "Body.";
      [] ].

(** A catalog file without a status line. *)
Definition no_status_file : str :=
  Js.join [Js.LF]
    [ Js.lit "---";
      Js.lit "echoId: echo-plain";
      Js.lit "privateKey: pk_plain";
      Js.lit "updatedAt: 2026-02-28T00:00:00Z";
      Js.lit "---";
      [];
      Js.lit "Body.";
      [] ].

(** A catalog file without a private key. *)
Definition no_key_file : str :=
  Js.join [Js.LF]
    [ Js.lit "---";
      Js.lit "echoId: echo-plain";
      Js.lit "status: draft";
      Js.lit "---";
      [] ].

(** A catalog file whose [echoId] field is empty. *)
Definition empty_id_file : str :=
  Js.join [Js.LF]
    [ Js.lit "---";
      Js.lit "echoId: ";
      Js.lit "privateKey: pk_plain";
      Js.lit "status: draft";
      Js.lit "---";
      [] ].

(** An [echoes/] directory that holds one file. *)
Definition world_with_echo_file (name text : str) : World :=
  mkWorld None ∅ (Some {[ name := Raw text ]}) 0%nat [] [] [] [] [] [].

(** A [.env] file with the three keys. *)
Definition env_text : str :=
  Js.join [Js.LF]
    [ Js.lit "LORETECH_API_KEY=lt_key";
      Js.lit "OPENROUTER_API_KEY=or_key";
      Js.lit "EXA_API_KEY=exa_key" ].

(** A configured [.loretech] directory without runs, with the given
    behaviour of the storage layer and of the engine. *)
Definition world_configured (faults : list (option str))
    (posts : list (fetched EchoData.t)) (gets : list (fetched PollData.t))
    : World :=
  mkWorld (Some env_text) ∅ None 0%nat faults posts gets [] [] [].

Definition example_args : EchoArgs.t :=
  EchoArgs.mk (Js.lit "What changed in the spec?") (Js.lit "deep")
    None None None None None None None.

(** A success payload of the engine that announces a webset. *)
Definition data_with_webset : EchoData.t :=
  EchoData.mk (Js.lit "echo-m4x7k9") (Js.lit "draft") (Js.lit "A Claim")
    None (Js.lit "The take.") [] [] (Js.lit "https://loretech.example/p/1")
    (Js.lit "pk_m4x7k9") (Js.lit "2026-02-26T14:30:00Z")
    (Js.lit "2026-02-26T14:30:00Z") (Some (Js.lit "ws_1"))
    (Some (Js.lit "running")).

Definition ok_response : Response.t EchoData.t :=
  Response.mk true 200 (Ok (Js.lit "{...}")) (Ok data_with_webset).

(** The same payload under another identifier. *)
Definition data_named (echoId : str) : EchoData.t :=
  EchoData.mk echoId (Js.lit "draft") (Js.lit "A Claim")
    None (Js.lit "The take.") [] [] (Js.lit "https://loretech.example/p/1")
    (Js.lit "pk_m4x7k9") (Js.lit "2026-02-26T14:30:00Z")
    (Js.lit "2026-02-26T14:30:00Z") None None.

Definition response_named (echoId : str) : Response.t EchoData.t :=
  Response.mk true 200 (Ok (Js.lit "{...}")) (Ok (data_named echoId)).

(** A non-success response of the poll endpoint. *)
Definition poll_unavailable : Response.t PollData.t :=
  Response.mk false 503 (Ok (Js.lit "Service Unavailable"))
    (Throw (Js.lit "SyntaxError")).

(** The world in which the background poll of [run_1] starts: the handler
    has returned, the engine is about to answer the first poll with 503. *)
Definition world_polling : World :=
  (Server.loretech_echo (H := example_host) example_args run_1
     (world_configured [] [Resolved ok_response] [Resolved poll_unavailable])).2.

Definition poll_job_1 : PollJob.t :=
  PollJob.mk (Js.lit "echo-m4x7k9") (Js.lit "pk_m4x7k9") run_1
    (Js.lit "exa_key").

(** A storage layer whose sixth call fails.  The calls of [loretech_echo] in
    order: the read of [.env], the [mkdirSync] and the write of [meta.json]
    of [createRun], the read and the write of [meta.json] of the first
    [updateStep], and the write of [context.json]. *)
Definition disk_full : str := Js.lit "ENOSPC: no space left on device".

Definition world_disk_full : World :=
  world_configured [None; None; None; None; None; Some disk_full]
    [Resolved ok_response] [].

(** A non-success response of [POST /echo]. *)
Definition engine_refusal : Response.t EchoData.t :=
  Response.mk false 500 (Ok (Js.lit "upstream error"))
    (Throw (Js.lit "SyntaxError")).

Definition world_refused : World :=
  world_configured [] [Resolved engine_refusal] [].

(** A non-success response whose body cannot be read: the connection ends
    while [res.text()] is waiting for it. *)
Definition engine_refusal_unread : Response.t EchoData.t :=
  Response.mk false 502 (Throw (Js.lit "terminated"))
    (Throw (Js.lit "terminated")).

Definition world_refused_unread : World :=
  world_configured [] [Resolved engine_refusal_unread] [].

(** The run of the replay scenario: its input has an intent and an empty
    scope next to the content and the depth. *)
Definition args_with_intent : EchoArgs.t :=
  EchoArgs.mk (Js.lit "A") (Js.lit "standard") None (Some (Js.lit "verify"))
    None (Some []) None None None.

Definition world_replayable : World :=
  (Server.loretech_echo (H := example_host) args_with_intent run_1
     (world_configured [] [Resolved ok_response; Resolved ok_response] [])).2.

Definition run_2 : str := Js.lit "1772064600000-p0q8zt".

Definition rerun_args : RerunArgs.t :=
  RerunArgs.mk run_1 FromContext (Some (Js.lit "B")).

(** The same run with an engine that answers two replays, and the replay of
    a run from its sources step, without an override. *)
Definition world_replayable_twice : World :=
  (Server.loretech_echo (H := example_host) args_with_intent run_1
     (world_configured []
        [Resolved ok_response; Resolved ok_response; Resolved ok_response]
        [])).2.

Definition run_3 : str := Js.lit "1772065200000-w2e5rm".

Definition rerun_from_sources (runId : str) : RerunArgs.t :=
  RerunArgs.mk runId FromSources None.

(** ** Concrete inputs of the further examples *)

(** Two runs created one after the other. *)
Definition world_two_runs : World :=
  ((Runs.createRun (H := example_host) run_1;;
    Runs.createRun (H := example_host) run_2) empty_world).2.

(** A run whose [meta.json] is cut off. *)
Definition world_broken_record : World :=
  mkWorld None {[ run_1 := {[ Runs.META := Raw (Js.lit "{") ]} ]} None
          0%nat [] [] [] [] [] [].

(** The reference of the test "writes and reads back echo references with
    full markdown" of [memory.test.ts]. *)
Definition ref_plain : EchoRef.t :=
  EchoRef.mk (Js.lit "echo-test123") (Js.lit "pk_abc123")
    (Js.lit "Test Echo Title") (Js.lit "draft")
    (Js.lit "2026-02-26T00:00:00Z") (Js.lit "2026-02-26T00:00:00Z")
    (Js.join [Js.LF] [Js.lit "# Test Echo"; []; Js.lit "This is the body."])
    None.

(** An [echoes/] directory with two references, the older one under two
    names and the newer one with its dataset, a file without a private key
    and a note. *)
Definition ref_older : EchoRef.t :=
  EchoRef.mk (Js.lit "echo-a1") (Js.lit "pk_a1") (Js.lit "First")
    (Js.lit "draft") (Js.lit "2026-02-26T00:00:00Z")
    (Js.lit "2026-02-27T00:00:00Z") (Js.lit "Body A.") None.

Definition ref_newer : EchoRef.t :=
  EchoRef.mk (Js.lit "echo-b2") (Js.lit "pk_b2") (Js.lit "Second")
    (Js.lit "published") (Js.lit "2026-02-26T00:00:00Z")
    (Js.lit "2026-02-28T00:00:00Z") (Js.lit "Body B.") None.

Definition catalog_dir : gmap str content :=
  <[Js.lit "echo-a1.md" := Raw (Memory.echo_file_text ref_older false)]>
  (<[Js.lit "copy-of-a1.md" := Raw (Memory.echo_file_text ref_older false)]>
  (<[Js.lit "echo-b2.md" := Raw (Memory.echo_file_text ref_newer true)]>
  (<[Js.lit "echo-b2.json" := Json (DValue (JArr []))]>
  (<[Js.lit "broken.md" := Raw no_key_file]>
  (<[Js.lit "notes.txt" := Raw (Js.lit "to do")]> ∅))))).

Definition world_catalog : World :=
  mkWorld None ∅ (Some catalog_dir) 0%nat [] [] [] [] [] [].

(** The arguments of an update of the echo [echo-b2]. *)
Definition update_args : EchoArgs.t :=
  EchoArgs.mk (Js.lit "Add the latest numbers.") (Js.lit "standard")
    None None None None None (Some (Js.lit "echo-b2")) None.

(** A [.env] file that sets one key twice. *)
Definition env_twice : str :=
  Js.join [Js.LF]
    [ Js.lit "EXA_API_KEY=old"; Js.lit "EXA_API_KEY=new";
      Js.lit "# rotated" ].

(** A poll response that carries the completed dataset. *)
Definition poll_ready : Response.t PollData.t :=
  Response.mk true 200 (Ok (Js.lit "{...}"))
    (Ok (PollData.mk (Some (Js.lit "completed"))
           (Some [JStr (Js.lit "https://example.com")]))).

(** The world in which the background poll of [run_1] starts, with an
    engine that has the dataset ready. *)
Definition world_dataset_ready : World :=
  (Server.loretech_echo (H := example_host) example_args run_1
     (world_configured [] [Resolved ok_response] [Resolved poll_ready])).2.

(** A project [/home/ada/proj] with a [.git] and a [.loretech], and the
    working directory [/home/ada/proj/src/lib] below it; [src] is a
    repository of its own. *)
Definition project_dir : list str := Js.lit <$> ["proj"; "ada"; "home"]%string.
Definition working_dir : list str :=
  Js.lit <$> ["lib"; "src"; "proj"; "ada"; "home"]%string.
Definition home_dir : list str := Js.lit <$> ["ada"; "home"]%string.

Definition project_files (p : list str) : bool :=
  bool_decide (p = Paths.join project_dir ".loretech")
  || bool_decide (p = Paths.join project_dir ".git").

Definition nested_repository_files (p : list str) : bool :=
  project_files p
  || bool_decide (p = Paths.join (Js.lit <$> ["src"; "proj"; "ada";
                                               "home"]%string) ".git").

(** * Properties *)

(** ** The run ledger *)
Section runs_facts.
Context `{Host}.
Implicit Types (w : World) (m : RunMeta.t) (d : gmap str content).

Lemma io_point_quiet w : io_faults w = [] → io_point w = (Ok (), w).
Proof. intros Hq. unfold io_point. by rewrite Hq. Qed.

Lemma frame_refl w : frame w w.
Proof. by repeat split. Qed.

Lemma frame_trans w1 w2 w3 : frame w1 w2 → frame w2 w3 → frame w1 w3.
Proof.
  unfold frame. intros (?&?&?&?&?&?&?) (?&?&?&?&?&?&?).
  repeat split; congruence.
Qed.

Lemma bind_ok {A B} (m : M A) (f : A → M B) w a w' :
  m w = (Ok a, w') → (m ≫= f) w = f a w'.
Proof. intros Hm. unfold mbind, M_bind. by rewrite Hm. Qed.

Lemma bind_throw {A B} (m : M A) (f : A → M B) w e w' :
  m w = (Throw e, w') → (m ≫= f) w = (Throw e, w').
Proof. intros Hm. unfold mbind, M_bind. by rewrite Hm. Qed.

Lemma write_run_file_quiet w runId f c d :
  Js.entry_name f = true →
  io_faults w = [] → runs_dir w !! runId = Some d →
  Runs.write_run_file runId f c w
  = (Ok (), with_runs (<[runId := <[f := stored c]> d]>) w).
Proof.
  intros Hf Hq Hd. unfold Runs.write_run_file.
  rewrite (bind_ok _ _ _ _ _ (io_point_quiet w Hq)).
  unfold mbind, M_bind, get_world. by rewrite Hf, Hd.
Qed.

Lemma entry_name_META : Js.entry_name Runs.META = true.
Proof. reflexivity. Qed.

Lemma readMeta_stored w runId d m :
  io_faults w = [] → runs_dir w !! runId = Some d →
  d !! Runs.META = Some (Json (DMeta m)) →
  Runs.readMeta runId w = (Ok (Some m), w).
Proof.
  intros Hq Hd Hm. unfold Runs.readMeta, mbind, M_bind, get_world.
  unfold Runs.run_file. rewrite Hd. simpl. rewrite Hm.
  rewrite (io_point_quiet w Hq). done.
Qed.

Lemma same_files_refl runId w : same_files runId w w.
Proof. by split. Qed.

Lemma same_files_trans runId w1 w2 w3 :
  same_files runId w1 w2 → same_files runId w2 w3 → same_files runId w1 w3.
Proof.
  intros [F1 R1] [F2 R2]. split.
  - intros f Hf. by rewrite F2, F1.
  - intros r Hr. by rewrite R2, R1.
Qed.

Lemma ledger_run_exists w runId m :
  Runs.readMeta runId w = (Ok (Some m), w) → is_Some (runs_dir w !! runId).
Proof.
  unfold Runs.readMeta, mbind, M_bind, get_world, Runs.run_file.
  destruct (runs_dir w !! runId) as [d|]; [eauto|]. simpl. inversion 1.
Qed.

Lemma put_file_ledger w runId d m :
  io_faults w = [] →
  ledger_at (with_runs (<[runId := <[Runs.META := Json (DMeta m)]> d]>) w)
            runId m.
Proof.
  intros Hq. split; [done|].
  eapply readMeta_stored; [done| |].
  - simpl. apply lookup_insert_eq.
  - apply lookup_insert_eq.
Qed.

Lemma put_meta_same_files w runId d m :
  runs_dir w !! runId = Some d →
  same_files runId w
    (with_runs (<[runId := <[Runs.META := Json (DMeta m)]> d]>) w).
Proof.
  intros Hd. split.
  - intros f Hf. unfold Runs.run_file. simpl.
    rewrite lookup_insert_eq, Hd. simpl. by rewrite lookup_insert_ne.
  - intros r Hr. simpl. by rewrite lookup_insert_ne.
Qed.

Lemma writeMeta_quiet w runId m d :
  io_faults w = [] → runs_dir w !! runId = Some d →
  Runs.writeMeta runId m w
  = (Ok (), with_runs (<[runId := <[Runs.META := Json (DMeta m)]> d]>) w).
Proof. intros. by apply write_run_file_quiet. Qed.

Lemma update_first_is_Some name f steps :
  is_Some (Runs.update_first name f steps) ↔ is_Some (find_step name steps).
Proof.
  induction steps as [|s steps IH]; simpl.
  - split; intros [? ?]; done.
  - unfold find_step in *. simpl. rewrite bool_decide_decide.
    destruct (decide (StepMeta.name s = name)); [split; eauto|].
    rewrite fmap_is_Some. done.
Qed.

Lemma find_step_update_first name f steps steps' n :
  (∀ s, StepMeta.name (f s) = StepMeta.name s) →
  Runs.update_first name f steps = Some steps' →
  find_step n steps'
  = if decide (n = name) then f <$> find_step name steps
    else find_step n steps.
Proof.
  intros Hf. revert steps'. unfold find_step.
  induction steps as [|s steps IH]; intros steps' Hu; simpl in *; [done|].
  destruct (decide (StepMeta.name s = name)) as [Hs|Hs].
  - simplify_eq/=. rewrite Hf.
    repeat case_bool_decide; repeat case_decide; simplify_eq/=; done.
  - destruct (Runs.update_first name f steps) as [r|] eqn:Hr;
      simplify_eq/=.
    rewrite (IH r eq_refl).
    repeat case_bool_decide; repeat case_decide; simplify_eq/=; done.
Qed.

Lemma set_step_name st a t s :
  StepMeta.name (Runs.set_step st a t s) = StepMeta.name s.
Proof. done. Qed.

Lemma set_step_status st a t s :
  StepMeta.status (Runs.set_step st a t s) = st.
Proof. done. Qed.

Lemma step_status_apply_update m name st a t n :
  is_Some (find_step name (RunMeta.steps m)) →
  step_status_in (apply_update name st a t m) n
  = if decide (n = name) then Some st else step_status_in m n.
Proof.
  intros Hs. unfold apply_update, step_status_in.
  destruct (Runs.update_first name (Runs.set_step st a t) (RunMeta.steps m))
    as [steps|] eqn:Hu.
  - simpl. rewrite (find_step_update_first _ _ _ _ _ (set_step_name st a t) Hu).
    destruct (decide (n = name)); [|done].
    destruct Hs as [s ->]. done.
  - apply (update_first_is_Some name (Runs.set_step st a t)) in Hs.
    rewrite Hu in Hs. by destruct Hs.
Qed.

Lemma updateStep_known w runId name st a m :
  ledger_at w runId m →
  is_Some (find_step name (RunMeta.steps m)) →
  ∃ w', Runs.updateStep runId name st a w = (Ok (), w')
        ∧ ledger_at w' runId (apply_update name st a (stamp w st) m)
        ∧ frame w w' ∧ same_files runId w w'
        ∧ ticks w' = (if decide (st = Pending) then ticks w
                      else S (ticks w)).
Proof.
  intros [Hq Hr] Hs.
  destruct (ledger_run_exists _ _ _ Hr) as [d Hd].
  unfold Runs.updateStep. rewrite (bind_ok _ _ _ _ _ Hr).
  pose proof (proj2 (update_first_is_Some name id _) Hs) as [s0 Hs0].
  rewrite Hs0.
  pose proof (proj2 (update_first_is_Some name
    (Runs.set_step st a (stamp w st)) _) Hs) as [steps Hsteps].
  unfold apply_update. rewrite Hsteps. unfold stamp in *.
  destruct (decide (st = Pending)) as [->|Hst].
  - unfold mbind, M_bind, mret, M_ret. rewrite Hsteps.
    rewrite (writeMeta_quiet _ _ _ d) by done.
    eexists. split; [done|]. split; [by apply put_file_ledger|].
    split; [by repeat split |]. split; [by apply put_meta_same_files|done].
  - unfold mbind, M_bind, now. rewrite Hsteps.
    erewrite writeMeta_quiet; [|done|exact Hd].
    eexists. split; [done|]. split; [by apply (put_file_ledger (mkWorld _ _ _ _ _ _ _ _ _ _))|].
    split; [by repeat split |].
    split; [by apply (put_meta_same_files (mkWorld _ _ _ _ _ _ _ _ _ _))|done].
Qed.

Lemma parse_meta_pure c :
  ∃ r, ∀ w, Runs.parse_meta c w = (r, w).
Proof.
  destruct c as [s|[m|a|v]]; simpl; try (eexists; intros; reflexivity);
    destruct (parse_foreign_meta _); eexists; intros; reflexivity.
Qed.

Lemma readMeta_congr w w' runId m :
  Runs.run_file w' runId Runs.META = Runs.run_file w runId Runs.META →
  io_faults w = [] → io_faults w' = [] →
  Runs.readMeta runId w = (Ok (Some m), w) →
  Runs.readMeta runId w' = (Ok (Some m), w').
Proof.
  intros Hf Hq Hq'. unfold Runs.readMeta, mbind, M_bind, get_world.
  rewrite Hf. destruct (Runs.run_file w runId Runs.META) as [c|]; [|done].
  rewrite !io_point_quiet by done.
  destruct (parse_meta_pure c) as [r Hr]. rewrite !Hr.
  destruct r; [|done]. unfold mret, M_ret. by intros [= ->].
Qed.

Lemma updateStep_unknown_run w runId name st a :
  Runs.run_file w runId Runs.META = None →
  Runs.updateStep runId name st a w = (Ok (), w).
Proof.
  intros Hf. unfold Runs.updateStep, Runs.readMeta, mbind, M_bind, get_world.
  by rewrite Hf.
Qed.

Lemma updateStep_unknown_step w runId name st a m :
  ledger_at w runId m → find_step name (RunMeta.steps m) = None →
  Runs.updateStep runId name st a w = (Ok (), w).
Proof.
  intros [Hq Hr] Hs. unfold Runs.updateStep. rewrite (bind_ok _ _ _ _ _ Hr).
  destruct (Runs.update_first name id (RunMeta.steps m)) eqn:Hu; [|done].
  assert (is_Some (find_step name (RunMeta.steps m))) as [? ?]
    by (apply (update_first_is_Some name id); eauto).
  congruence.
Qed.

Lemma createRun_quiet w runId :
  io_faults w = [] →
  ∃ w', Runs.createRun runId w
        = (Ok (fresh_meta runId (toISOString (ticks w))), w')
        ∧ ledger_at w' runId (fresh_meta runId (toISOString (ticks w)))
        ∧ frame w w' ∧ same_files runId w w' ∧ ticks w' = S (ticks w).
Proof.
  intros Hq. unfold Runs.createRun.
  set (rs := match runs_dir w !! runId with
             | Some _ => runs_dir w
             | None => <[runId := ∅]> (runs_dir w)
             end).
  assert (Runs.mkdir_run runId w = (Ok (), with_runs (λ _, rs) w)) as Hmk.
  { unfold Runs.mkdir_run. rewrite (bind_ok _ _ _ _ _ (io_point_quiet w Hq)).
    done. }
  rewrite (bind_ok _ _ _ _ _ Hmk).
  set (d := default ∅ (runs_dir w !! runId)).
  assert (rs !! runId = Some d) as Hd.
  { unfold rs, d. destruct (runs_dir w !! runId) eqn:E; simpl; [done|].
    apply lookup_insert_eq. }
  unfold mbind, M_bind, now.
  erewrite writeMeta_quiet; [|done|simpl; exact Hd].
  eexists. split; [reflexivity|].
  split; [by apply (put_file_ledger (mkWorld _ _ _ _ _ _ _ _ _ _))|].
  split; [by repeat split|]. split; [|done].
  split.
  - intros f Hf. unfold Runs.run_file. simpl.
    rewrite lookup_insert_eq. simpl. rewrite lookup_insert_ne by done.
    unfold d. by destruct (runs_dir w !! runId).
  - intros r Hr. simpl. rewrite lookup_insert_ne by done.
    unfold rs. destruct (runs_dir w !! runId); [done|].
    by rewrite lookup_insert_ne.
Qed.

Lemma completeRun_known w runId echoId error m :
  ledger_at w runId m →
  ∃ w', Runs.completeRun runId echoId error w = (Ok (), w')
        ∧ ledger_at w' runId
            (Runs.set_result echoId error (toISOString (ticks w)) m)
        ∧ frame w w' ∧ same_files runId w w' ∧ ticks w' = S (ticks w).
Proof.
  intros [Hq Hr].
  destruct (ledger_run_exists _ _ _ Hr) as [d Hd].
  unfold Runs.completeRun. rewrite (bind_ok _ _ _ _ _ Hr).
  unfold mbind, M_bind, now.
  erewrite writeMeta_quiet; [|done|exact Hd].
  eexists. split; [done|].
  split; [by apply (put_file_ledger (mkWorld _ _ _ _ _ _ _ _ _ _))|].
  split; [by repeat split|].
  split; [by apply (put_meta_same_files (mkWorld _ _ _ _ _ _ _ _ _ _))|done].
Qed.

Lemma completeRun_unknown_run w runId echoId error :
  Runs.run_file w runId Runs.META = None →
  Runs.completeRun runId echoId error w = (Ok (), w).
Proof.
  intros Hf. unfold Runs.completeRun, Runs.readMeta, mbind, M_bind, get_world.
  by rewrite Hf.
Qed.

Lemma writeArtifact_quiet w runId f c :
  Js.entry_name f = true →
  io_faults w = [] → is_Some (runs_dir w !! runId) → f ≠ Runs.META →
  ∃ p w', Runs.writeArtifact runId f c w = (Ok p, w')
        ∧ Runs.run_file w' runId f = Some (stored c)
        ∧ (∀ m, ledger_at w runId m → ledger_at w' runId m)
        ∧ frame w w' ∧ ticks w' = ticks w
        ∧ (∀ g, g ≠ f → Runs.run_file w' runId g = Runs.run_file w runId g)
        ∧ (∀ r, r ≠ runId → runs_dir w' !! r = runs_dir w !! r).
Proof.
  intros He Hq [d Hd] Hf. unfold Runs.writeArtifact, mbind, M_bind.
  rewrite (write_run_file_quiet _ _ _ _ d) by done.
  assert (∀ g, g ≠ f →
    Runs.run_file (with_runs (<[runId := <[f := stored c]> d]>) w) runId g
    = Runs.run_file w runId g) as Hother.
  { intros g Hg. unfold Runs.run_file. simpl.
    rewrite lookup_insert_eq, Hd. simpl. by rewrite lookup_insert_ne. }
  eexists _, _. split; [reflexivity|].
  split.
  { unfold Runs.run_file. simpl. rewrite lookup_insert_eq. simpl.
    apply lookup_insert_eq. }
  split.
  { intros m [_ Hr]. split; [done|].
    eapply readMeta_congr; [|exact Hq|done|exact Hr]. by apply Hother. }
  split; [by repeat split|]. split; [done|]. split; [done|].
  intros r Hr. simpl. by rewrite lookup_insert_ne.
Qed.

(** The ledger only depends on the run directories and on the storage
    layer. *)
Lemma ledger_at_transfer w w' runId m :
  ledger_at w runId m → runs_dir w' = runs_dir w → io_faults w' = [] →
  ledger_at w' runId m.
Proof.
  intros [Hq Hr] Hd Hq'. split; [done|].
  eapply readMeta_congr; [|exact Hq|done|exact Hr].
  unfold Runs.run_file. by rewrite Hd.
Qed.

Lemma readMeta_read_step_status w runId m name :
  Runs.readMeta runId w = (Ok (Some m), w) →
  read_step_status w runId name = step_status_in m name.
Proof. intros Hr. unfold read_step_status. by rewrite Hr. Qed.

(** C1, amended: [updateStep] checks nothing about the current status.  On
    a run and a step the ledger knows, the call succeeds and the step has
    the requested status afterwards, whatever its status was; the other
    steps keep theirs. *)
Theorem updateStep_applies_any_status w runId name new artifact m old :
  ledger_at w runId m →
  step_status_in m name = Some old →
  ∃ w' m',
    Runs.updateStep runId name new artifact w = (Ok (), w')
    ∧ Runs.readMeta runId w' = (Ok (Some m'), w')
    ∧ step_status_in m' name = Some new
    ∧ ∀ n, n ≠ name → step_status_in m' n = step_status_in m n.
Proof.
  intros Hl Hold.
  assert (is_Some (find_step name (RunMeta.steps m))) as Hs.
  { unfold step_status_in in Hold.
    destruct (find_step name (RunMeta.steps m)); [eauto|done]. }
  destruct (updateStep_known w runId name new artifact m Hl Hs)
    as (w' & Hu & [_ Hr] & _).
  exists w', (apply_update name new artifact (stamp w new) m).
  split; [done|]. split; [done|].
  split.
  - rewrite step_status_apply_update by done. by rewrite decide_True.
  - intros n Hn. rewrite step_status_apply_update by done.
    by rewrite decide_False.
Qed.

Lemma complete_all_snoc runId calls c w w1 :
  complete_all runId calls w = (Ok (), w1) →
  complete_all runId (calls ++ [c]) w
  = Runs.completeRun runId c.1 c.2 w1.
Proof.
  revert w. induction calls as [|[e err] calls IH]; intros w; simpl.
  - intros [= ->]. destruct c as [e err]. simpl.
    unfold mbind, M_bind. destruct (Runs.completeRun runId e err w1) as [[[]|] ?];
      done.
  - unfold mbind, M_bind.
    destruct (Runs.completeRun runId e err w) as [[[]|x] w2]; [|done].
    apply IH.
Qed.

Lemma complete_all_known runId calls : ∀ w m,
  ledger_at w runId m →
  ∃ w' m', complete_all runId calls w = (Ok (), w')
    ∧ ledger_at w' runId m'
    ∧ ticks w' = (ticks w + length calls)%nat
    ∧ RunMeta.error m' = last_supplied (RunMeta.error m) calls.*2
    ∧ RunMeta.echoId m' = last_supplied (RunMeta.echoId m) calls.*1
    ∧ RunMeta.steps m' = RunMeta.steps m
    ∧ RunMeta.startedAt m' = RunMeta.startedAt m
    ∧ RunMeta.runId m' = RunMeta.runId m.
Proof.
  induction calls as [|[e err] calls IH]; intros w m Hl; simpl.
  - exists w, m. rewrite Nat.add_0_r.
    split; [done|]. split; [exact Hl|]. by repeat split.
  - destruct (completeRun_known w runId e err m Hl)
      as (w1 & Hc & Hl1 & _ & _ & Ht).
    destruct (IH w1 _ Hl1) as (w' & m' & Hall & Hl' & Ht' & He & Hi & Hs & Ha & Hid).
    exists w', m'. rewrite (bind_ok _ _ _ _ _ Hc).
    split; [done|]. split; [done|]. split; [lia|].
    unfold last_supplied in *. simpl. by repeat split.
Qed.

(** C2, amended: after any sequence of [completeRun] calls on a run the
    ledger knows, the record has one status, [failed] exactly when the
    last call carried a non-empty error, and one [completedAt], the time
    of the last call.  Its [error] and [echoId] are the last non-empty
    values supplied by any call so far (a call that leaves one out keeps
    the value already recorded); nothing else of the record changes. *)
Theorem completeRun_last_supplied_wins w runId m calls echoId error :
  ledger_at w runId m →
  ∃ w' m',
    complete_all runId (calls ++ [(echoId, error)]) w = (Ok (), w')
    ∧ Runs.readMeta runId w' = (Ok (Some m'), w')
    ∧ RunMeta.status m'
      = (if Js.truthy_opt error then RunFailed else RunCompleted)
    ∧ RunMeta.completedAt m'
      = Some (toISOString (ticks w + length calls))
    ∧ RunMeta.error m'
      = last_supplied (RunMeta.error m) (calls.*2 ++ [error])
    ∧ RunMeta.echoId m'
      = last_supplied (RunMeta.echoId m) (calls.*1 ++ [echoId])
    ∧ RunMeta.steps m' = RunMeta.steps m
    ∧ RunMeta.startedAt m' = RunMeta.startedAt m
    ∧ RunMeta.runId m' = RunMeta.runId m.
Proof.
  intros Hl.
  destruct (complete_all_known runId calls w m Hl)
    as (w1 & m1 & Hall & Hl1 & Ht & He & Hi & Hs & Ha & Hid).
  destruct (completeRun_known w1 runId echoId error m1 Hl1)
    as (w' & Hc & [_ Hr] & _).
  exists w', (Runs.set_result echoId error (toISOString (ticks w1)) m1).
  rewrite (complete_all_snoc _ _ (echoId, error) _ _ Hall). simpl.
  split; [done|]. split; [done|]. split; [done|].
  split; [by rewrite Ht|].
  unfold last_supplied in *. rewrite !foldl_app. simpl.
  rewrite <- He, <- Hi. by repeat split.
Qed.

(** C4, amended: [createRun] has no duplicate check.  For every run
    identifier, with or without a record, the call succeeds and writes a
    record with status [running], [startedAt] the current time and the
    six steps [pending]; a read that follows returns exactly the record
    the call returned. *)
Theorem createRun_initialises w runId :
  io_faults w = [] →
  ∃ w' meta,
    Runs.createRun runId w = (Ok meta, w')
    ∧ Runs.readMeta runId w' = (Ok (Some meta), w')
    ∧ RunMeta.runId meta = runId
    ∧ RunMeta.status meta = RunRunning
    ∧ RunMeta.startedAt meta = toISOString (ticks w)
    ∧ RunMeta.completedAt meta = None
    ∧ StepMeta.name <$> RunMeta.steps meta = Runs.STEPS
    ∧ Forall (λ s, s = Runs.pending_step (StepMeta.name s))
             (RunMeta.steps meta)
    ∧ RunMeta.echoId meta = None
    ∧ RunMeta.error meta = None.
Proof.
  intros Hq.
  destruct (createRun_quiet w runId Hq) as (w' & Hc & [_ Hr] & _).
  exists w', (fresh_meta runId (toISOString (ticks w))).
  repeat split; try done.
  simpl. unfold Runs.STEPS. simpl. repeat constructor.
Qed.
End runs_facts.

(** C1, as stated, fails: the context step of [world_context_done] is
    [completed]; [updateStep(run_1, "context", "running")] puts it back to
    [running], which the state machine does not allow after [completed]. *)
Lemma updateStep_reopens_completed_step :
  read_step_status (H := example_host) world_context_done run_1
    (Js.lit "context") = Some Completed
  ∧ read_step_status (H := example_host)
      (Runs.updateStep (H := example_host) run_1 (Js.lit "context") Running
         None world_context_done).2
      run_1 (Js.lit "context") = Some Running
  ∧ legal_successor Completed Running = false.
Proof. vm_compute. done. Qed.

Lemma updateStep_applies_any_status_witness :
  ∃ w' m',
    Runs.updateStep (H := example_host) run_1 (Js.lit "context") Running None
      world_context_done = (Ok (), w')
    ∧ Runs.readMeta (H := example_host) run_1 w' = (Ok (Some m'), w')
    ∧ step_status_in m' (Js.lit "context") = Some Running
    ∧ ∀ n, n ≠ Js.lit "context" →
        step_status_in m' n
        = read_step_status (H := example_host) world_context_done run_1 n.
Proof.
  set (m := apply_update (Js.lit "context") Completed
              (Some (Js.lit "context.json"))
              (toISOString (Host := example_host) 2)
              (apply_update (Js.lit "context") Running None
                 (toISOString (Host := example_host) 1)
                 (fresh_meta run_1 (toISOString (Host := example_host) 0)))).
  assert (ledger_at (H := example_host) world_context_done run_1 m) as Hl
    by (split; vm_compute; reflexivity).
  assert (step_status_in m (Js.lit "context") = Some Completed) as Hold
    by (vm_compute; reflexivity).
  destruct (updateStep_applies_any_status (H := example_host)
              world_context_done run_1 (Js.lit "context") Running None
              m Completed Hl Hold)
    as (w' & m' & Hu & Hr & Hs & Ho).
  exists w', m'. split; [exact Hu|]. split; [exact Hr|]. split; [exact Hs|].
  intros n Hn. rewrite (Ho n Hn).
  symmetry. apply (readMeta_read_step_status (H := example_host)).
  exact (proj2 Hl).
Defined.

(** C2, as stated, fails: a first [completeRun] with an error and a second
    with an [echoId] only leave a record that is [completed] and still
    carries the error of the first call; the error of the last call, which
    has none, did not win. *)
Lemma completeRun_keeps_earlier_error :
  let calls := [ (None, Some (Js.lit "boom")); (Some (Js.lit "echo-1"), None) ] in
  let w' := (complete_all (H := example_host) run_1 calls
               world_context_done).2 in
  ∃ m', (Runs.readMeta (H := example_host) run_1 w').1 = Ok (Some m')
        ∧ RunMeta.status m' = RunCompleted
        ∧ RunMeta.error m' = Some (Js.lit "boom")
        ∧ RunMeta.error m' ≠ None.
Proof. vm_compute. eexists. repeat split; try reflexivity. discriminate. Qed.

Lemma completeRun_last_supplied_wins_witness :
  ∃ w' m',
    complete_all (H := example_host) run_1
      ([ (None, Some (Js.lit "boom")) ] ++ [ (Some (Js.lit "echo-1"), None) ])
      world_context_done = (Ok (), w')
    ∧ Runs.readMeta (H := example_host) run_1 w' = (Ok (Some m'), w')
    ∧ RunMeta.status m' = RunCompleted
    ∧ RunMeta.completedAt m' = Some (toISOString (Host := example_host) 4)
    ∧ RunMeta.error m' = Some (Js.lit "boom")
    ∧ RunMeta.echoId m' = Some (Js.lit "echo-1").
Proof.
  set (m := apply_update (Js.lit "context") Completed
              (Some (Js.lit "context.json"))
              (toISOString (Host := example_host) 2)
              (apply_update (Js.lit "context") Running None
                 (toISOString (Host := example_host) 1)
                 (fresh_meta run_1 (toISOString (Host := example_host) 0)))).
  assert (ledger_at (H := example_host) world_context_done run_1 m) as Hl
    by (split; vm_compute; reflexivity).
  destruct (completeRun_last_supplied_wins (H := example_host)
              world_context_done run_1 m [ (None, Some (Js.lit "boom")) ]
              (Some (Js.lit "echo-1")) None Hl)
    as (w' & m' & Hc & Hr & Hst & Ht & He & Hi & _).
  exists w', m'. split; [exact Hc|]. split; [exact Hr|].
  split; [exact Hst|]. split; [exact Ht|]. split; [exact He|exact Hi].
Defined.

(** C4, as stated, fails: [run_1] has a record in [world_context_done], with
    the context step [completed]; [createRun(run_1)] does not fail and
    replaces the record, the context step is [pending] again. *)
Lemma createRun_overwrites_existing_record :
  (∃ m, (Runs.readMeta (H := example_host) run_1 world_context_done).1
        = Ok (Some m))
  ∧ read_step_status (H := example_host) world_context_done run_1
      (Js.lit "context") = Some Completed
  ∧ ∃ meta w',
      Runs.createRun (H := example_host) run_1 world_context_done
      = (Ok meta, w')
      ∧ read_step_status (H := example_host) w' run_1 (Js.lit "context")
        = Some Pending.
Proof.
  split; [vm_compute; eauto|]. split; [vm_compute; reflexivity|].
  vm_compute. eexists _, _. split; reflexivity.
Qed.

Lemma createRun_initialises_witness :
  io_faults world_context_done = []
  ∧ ∃ w' meta,
      Runs.createRun (H := example_host) run_1 world_context_done
      = (Ok meta, w')
      ∧ Runs.readMeta (H := example_host) run_1 w' = (Ok (Some meta), w')
      ∧ RunMeta.status meta = RunRunning
      ∧ RunMeta.startedAt meta = toISOString (Host := example_host) 3
      ∧ StepMeta.status <$> RunMeta.steps meta
        = [Pending; Pending; Pending; Pending; Pending; Pending].
Proof.
  assert (io_faults world_context_done = []) as Hq by (vm_compute; reflexivity).
  split; [exact Hq|].
  destruct (createRun_initialises (H := example_host) world_context_done
              run_1 Hq)
    as (w' & meta & Hc & Hr & _ & Hst & Ht & _ & Hn & Hp & _).
  exists w', meta. split; [exact Hc|]. split; [exact Hr|].
  split; [exact Hst|]. split; [exact Ht|].
  clear - Hn Hp. destruct meta as [? ? ? ? steps ? ?]. simpl in *.
  unfold Runs.STEPS in Hn.
  repeat (destruct steps as [|[? ? ? ? ?] steps]; try discriminate Hn).
  repeat match goal with
         | H : Forall _ (_ :: _) |- _ => apply Forall_cons in H; destruct H as [? H]
         end.
  unfold Runs.pending_step in *. simplify_eq/=. reflexivity.
Defined.

(** ** The artifact store *)

Section store_facts.
Context `{Host}.

Lemma leb_refl (a : str) : Js.leb a a.
Proof.
  induction a as [|x a IH]; simpl; [done|].
  rewrite N.eqb_refl. simpl. rewrite orb_True. by right.
Qed.

Lemma leb_total (a b : str) : Js.leb a b ∨ Js.leb b a.
Proof.
  revert b. induction a as [|x a IH]; intros [|y b]; simpl; auto.
  destruct (N.compare_spec x y) as [->|Hlt|Hgt].
  - rewrite N.ltb_irrefl, N.eqb_refl. simpl. apply IH.
  - left. apply N.ltb_lt in Hlt. by rewrite Hlt.
  - right. apply N.ltb_lt in Hgt. by rewrite Hgt.
Qed.

Lemma leb_cons x a y b :
  Js.leb (x :: a) (y :: b) ↔ (x < y)%N ∨ (x = y ∧ Js.leb a b).
Proof.
  simpl. rewrite orb_True, andb_True.
  rewrite <- N.ltb_lt, <- N.eqb_eq. unfold Is_true.
  split; (intros [?|[? ?]]; [left|right]);
    repeat match goal with
           | |- _ ∧ _ => split
           | H : if ?b then _ else _ |- _ => destruct b; try done
           | H : ?b = true |- _ => rewrite H; clear H
           end; done.
Qed.

Lemma leb_trans (a b c : str) : Js.leb a b → Js.leb b c → Js.leb a c.
Proof.
  revert b c. induction a as [|x a IH]; intros [|y b] [|z c]; try done.
  rewrite !leb_cons. intros [?|[-> ?]] [?|[-> ?]]; try (left; lia).
  right. split; [done|]. by eapply IH.
Qed.

Lemma leb_antisym (a b : str) : Js.leb a b → Js.leb b a → a = b.
Proof.
  revert b. induction a as [|x a IH]; intros [|y b]; try done.
  rewrite !leb_cons. intros [?|[-> ?]] [?|[? ?]]; try lia.
  f_equal. by apply IH.
Qed.

Global Instance leb_Total : Total (λ a b : str, Is_true (Js.leb a b)).
Proof. intros a b. apply leb_total. Qed.

Global Instance leb_Transitive :
  Transitive (λ a b : str, Is_true (Js.leb a b)).
Proof. intros a b c. apply leb_trans. Qed.

Global Instance leb_AntiSymm :
  AntiSymm (=) (λ a b : str, Is_true (Js.leb a b)).
Proof. intros a b. apply leb_antisym. Qed.





End store_facts.


(** ** The echo catalog *)

Section catalog_facts.
Context `{Host}.

Lemma match_key_absent key bol s :
  key_at_line_start key bol s = false → Js.match_key_from key bol s = None.
Proof.
  revert bol. induction s as [|c s IH]; intros bol; simpl.
  - rewrite orb_false_r. unfold Js.starts_with.
    destruct bol; simpl; [|done].
    destruct (Js.strip_prefix (key ++ Js.lit ":") []); done.
  - intros [H1 H2]%orb_false_elim. rewrite (IH _ H2).
    destruct bol; simpl in *; [|done].
    unfold Js.starts_with in H1.
    destruct (Js.strip_prefix (key ++ Js.lit ":") (c :: s)); done.
Qed.

(** A field without a line reads as the empty string. *)
Lemma get_absent fm key : has_field key fm = false → Memory.get fm key = [].
Proof.
  intros Hk. unfold Memory.get, Js.match_key.
  by rewrite (match_key_absent _ _ _ Hk).
Qed.

(** [parseEchoRef] gives no partial record: what it returns has a non-empty
    [echoId] and a non-empty [privateKey]. *)
Lemma parseEchoRef_complete content r :
  Memory.parseEchoRef content = Some r →
  EchoRef.echoId r ≠ [] ∧ EchoRef.privateKey r ≠ [].
Proof.
  unfold Memory.parseEchoRef.
  destruct (Js.match_frontmatter content) as [fm|]; [|done].
  destruct (Memory.get fm (Js.lit "echoId")) as [|c1 id] eqn:Hid; [done|].
  destruct (Memory.get fm (Js.lit "privateKey")) as [|c2 pk] eqn:Hpk; [done|].
  simpl. intros [= <-]. simpl. done.
Qed.

(** A file whose frontmatter has no [echoId] line or no [privateKey] line
    is skipped. *)
Lemma parseEchoRef_missing_key content fm :
  Js.match_frontmatter content = Some fm →
  has_field (Js.lit "echoId") fm = false
  ∨ has_field (Js.lit "privateKey") fm = false →
  Memory.parseEchoRef content = None.
Proof.
  intros Hfm Hk. unfold Memory.parseEchoRef. rewrite Hfm.
  destruct Hk as [Hk|Hk]; rewrite (get_absent _ _ Hk); simpl; [done|].
  by rewrite orb_true_r.
Qed.

(** A file that parses and whose frontmatter has no [status] line gets the
    status ["draft"]. *)
Lemma parseEchoRef_no_status_line content fm r :
  Js.match_frontmatter content = Some fm →
  has_field (Js.lit "status") fm = false →
  Memory.parseEchoRef content = Some r →
  EchoRef.status r = Js.lit "draft".
Proof.
  intros Hfm Hk. unfold Memory.parseEchoRef. rewrite Hfm.
  destruct (negb _ || negb _); [done|].
  intros [= <-]. simpl. by rewrite (get_absent _ _ Hk).
Qed.
End catalog_facts.

(** *** Files written by [writeEchoRef] *)

Section written_files.

Lemma single_line_app l1 l2 :
  single_line (l1 ++ l2) ↔ single_line l1 ∧ single_line l2.
Proof. apply Forall_app. Qed.

Lemma single_line_lit_cons c s :
  single_line (c :: s) ↔ Js.is_line_terminator c = false ∧ single_line s.
Proof.
  unfold single_line.
  apply (Forall_cons (λ c, Js.is_line_terminator c = false)).
Qed.

Lemma single_line_escape t : single_line t → single_line (Js.escape_quotes t).
Proof.
  induction 1 as [|c t Hc Ht IH]; simpl; [constructor|].
  destruct (c =? Js.DQUOTE) eqn:E.
  - repeat constructor; done.
  - by constructor.
Qed.

Lemma strip_prefix_app p s : Js.strip_prefix p (p ++ s) = Some s.
Proof. induction p as [|c p IH]; simpl; [done|]. by rewrite N.eqb_refl. Qed.

Lemma dot_run_line l s :
  single_line l → Js.dot_run (l ++ Js.LF :: s) = l.
Proof.
  induction 1 as [|c l Hc Hl IH]; simpl; [done|]. by rewrite Hc, IH.
Qed.

Lemma dot_run_last l : single_line l → Js.dot_run l = l.
Proof. induction 1 as [|c l Hc Hl IH]; simpl; [done|]. by rewrite Hc, IH. Qed.

(** Inside a line the anchor [^] does not hold: the search goes on at the
    next line. *)
Lemma match_key_skip_line key l s :
  single_line l →
  Js.match_key_from key false (l ++ Js.LF :: s) = Js.match_key_from key true s.
Proof.
  induction 1 as [|c l Hc Hl IH]; simpl; [done|]. by rewrite Hc.
Qed.

Lemma match_key_from_cons key bol c s :
  Js.match_key_from key bol (c :: s)
  = match (if bol : bool then
             match Js.strip_prefix (key ++ Js.lit ":") (c :: s) with
             | Some rest => Js.spaces_then_value rest
             | None => None
             end
           else None) with
    | Some v => Some v
    | None => Js.match_key_from key (Js.is_line_terminator c) s
    end.
Proof. reflexivity. Qed.

(** A line of another field is passed over. *)
Lemma match_key_other_line key c l s :
  single_line (c :: l) →
  Js.strip_prefix (key ++ Js.lit ":") (c :: l ++ Js.LF :: s) = None →
  Js.match_key_from key true ((c :: l) ++ Js.LF :: s)
  = Js.match_key_from key true s.
Proof.
  intros [Hc Hl]%single_line_lit_cons Hp.
  rewrite <- app_comm_cons, match_key_from_cons, Hp, Hc.
  by apply match_key_skip_line.
Qed.

(** The line of the field itself gives its value. *)
Lemma match_key_this_line key v s x :
  Js.spaces_then_value (v ++ s) = Some x →
  Js.match_key_from key true ((key ++ Js.lit ":" ++ v) ++ s) = Some x.
Proof.
  intros Hv.
  assert (Js.strip_prefix (key ++ Js.lit ":") ((key ++ Js.lit ":" ++ v) ++ s)
          = Some (v ++ s)) as Hp.
  { rewrite <- !app_assoc, (app_assoc key). apply strip_prefix_app. }
  destruct ((key ++ Js.lit ":" ++ v) ++ s) as [|c r] eqn:E.
  - by destruct key.
  - by rewrite match_key_from_cons, Hp, Hv.
Qed.

Lemma match_key_pass_line key l s :
  single_line l → l ≠ [] →
  Js.strip_prefix (key ++ Js.lit ":") (l ++ Js.LF :: s) = None →
  Js.match_key_from key true (l ++ Js.LF :: s) = Js.match_key_from key true s.
Proof.
  destruct l as [|c l]; [done|]. intros Hl _ Hp.
  by apply match_key_other_line.
Qed.

Lemma strip_outer_quotes_quoted e :
  Js.strip_outer_quotes (Js.DQUOTE :: e ++ [Js.DQUOTE]) = e.
Proof.
  unfold Js.strip_outer_quotes. simpl. rewrite rev_app_distr. simpl.
  apply rev_involutive.
Qed.

Lemma single_line_lit (s : string) :
  forallb (λ c, negb (Js.is_line_terminator c)) (Js.lit s) = true →
  single_line (Js.lit s).
Proof.
  intros Hb. apply Forall_forall. intros c Hc.
  rewrite forallb_forall in Hb. apply list_elem_of_In in Hc.
  specialize (Hb c Hc). by destruct (Js.is_line_terminator c).
Qed.

Lemma header_text_lines ref b :
  ∃ tail,
    header_text ref b
    = (Js.lit "echoId: " ++ EchoRef.echoId ref) ++ Js.LF ::
      (Js.lit "privateKey: " ++ EchoRef.privateKey ref) ++ Js.LF ::
      (Js.lit "title: " ++ [Js.DQUOTE]
         ++ Js.escape_quotes (EchoRef.title ref) ++ [Js.DQUOTE]) ++ Js.LF ::
      (Js.lit "status: " ++ EchoRef.status ref) ++ Js.LF ::
      (Js.lit "createdAt: " ++ EchoRef.createdAt ref) ++ Js.LF ::
      (Js.lit "updatedAt: " ++ EchoRef.updatedAt ref) ++ tail
    ∧ (tail = [] ∨ ∃ rest, tail = Js.LF :: rest).
Proof.
  unfold header_text, Memory.field_lines. destruct b.
  - eexists. split; [reflexivity|]. right. eexists. reflexivity.
  - exists []. split; [|by left]. cbn [app Js.join]. by rewrite app_nil_r.
Qed.

Ltac pass_line :=
  rewrite match_key_pass_line;
    [ | repeat (apply single_line_app; split);
        first [ assumption | by apply single_line_lit
              | by apply single_line_escape | repeat constructor ]
      | by intros ?%(f_equal length)
      | reflexivity ].

(** The title of a written reference reads back as its escaped form,
    trimmed. *)
Lemma get_title_written ref b :
  single_line_fields ref →
  Memory.get (header_text ref b) (Js.lit "title")
  = Js.trim (Js.escape_quotes (EchoRef.title ref)).
Proof.
  intros (Hid & Hpk & Ht & _).
  destruct (header_text_lines ref b) as (tail & -> & _).
  unfold Memory.get, Js.match_key.
  do 2 pass_line.
  change (Js.lit "title: " ++ [Js.DQUOTE]
          ++ Js.escape_quotes (EchoRef.title ref) ++ [Js.DQUOTE])
    with (Js.lit "title" ++ Js.lit ":"
          ++ (32 :: Js.DQUOTE :: Js.escape_quotes (EchoRef.title ref)
              ++ [Js.DQUOTE])).
  erewrite match_key_this_line.
  - by rewrite strip_outer_quotes_quoted.
  - cbn [app Js.spaces_then_value]. 
    change (Js.is_space 32) with true. change (Js.is_space Js.DQUOTE) with false.
    cbv iota. unfold Js.dot_plus_eol.
    match goal with
    | |- context [Js.dot_run (?c :: ?l ++ Js.LF :: ?s)] =>
        change (Js.dot_run (c :: l ++ Js.LF :: s))
          with (Js.dot_run ((c :: l) ++ Js.LF :: s));
        rewrite (dot_run_line (c :: l) s); [done|]
    end.
    constructor; [done|]. apply single_line_app. split.
    + by apply single_line_escape.
    + by repeat constructor.
Qed.

Lemma echo_file_text_layout ref b :
  ∃ rest,
    Memory.echo_file_text ref b
    = (Js.lit "---" ++ [Js.LF])
      ++ header_text ref b ++ (Js.LF :: Js.lit "---") ++ rest.
Proof.
  unfold Memory.echo_file_text, Memory.frontmatter, header_text,
    Memory.field_lines.
  destruct (Js.truthy (EchoRef.markdown ref));
    [exists ([Js.LF; Js.LF] ++ EchoRef.markdown ref ++ [Js.LF])
    |exists [Js.LF]];
    destruct b; cbn [Js.join app];
    repeat (rewrite <- !app_assoc; cbn [app]); reflexivity.
Qed.

Lemma lazy_until_cons stop c s :
  Js.lazy_until stop (c :: s)
  = if Js.starts_with stop (c :: s) then Some []
    else cons c <$> Js.lazy_until stop s.
Proof. reflexivity. Qed.

Lemma lazy_until_line p l s :
  single_line l →
  Js.lazy_until (Js.LF :: p) (l ++ s) = (l ++.) <$> Js.lazy_until (Js.LF :: p) s.
Proof.
  induction 1 as [|c l Hc Hl IH]; cbn [app].
  - by destruct (Js.lazy_until (Js.LF :: p) s).
  - rewrite lazy_until_cons. unfold Js.starts_with. cbn [Js.strip_prefix].
    destruct (Js.LF =? c) eqn:E.
    + apply N.eqb_eq in E. by subst c.
    + rewrite IH. by destruct (Js.lazy_until (Js.LF :: p) s).
Qed.

Lemma lazy_until_next p s :
  Js.starts_with p s = false →
  Js.lazy_until (Js.LF :: p) (Js.LF :: s)
  = (Js.LF ::.) <$> Js.lazy_until (Js.LF :: p) s.
Proof.
  intros Hp. rewrite lazy_until_cons. unfold Js.starts_with in *.
  cbn [Js.strip_prefix]. rewrite N.eqb_refl.
  by destruct (Js.strip_prefix p s).
Qed.

Lemma lazy_until_here p s :
  Js.lazy_until (Js.LF :: p) (Js.LF :: p ++ s) = Some [].
Proof.
  rewrite lazy_until_cons. unfold Js.starts_with. cbn [Js.strip_prefix].
  by rewrite N.eqb_refl, strip_prefix_app.
Qed.

Lemma header_line_start l s :
  header_line l → Js.starts_with (Js.lit "---") (l ++ s) = false.
Proof.
  intros (_ & c & l' & -> & Hc). unfold Js.starts_with.
  change (Js.lit "---") with [45; 45; 45]. cbn [app Js.strip_prefix].
  destruct (45 =? c) eqn:E; [|done]. apply N.eqb_eq in E. done.
Qed.

Lemma join_cons_cons sep l l2 ls :
  Js.join sep (l :: l2 :: ls) = l ++ sep ++ Js.join sep (l2 :: ls).
Proof. reflexivity. Qed.

Lemma join_header_start l ls s :
  Forall header_line (l :: ls) →
  Js.starts_with (Js.lit "---") (Js.join [Js.LF] (l :: ls) ++ s) = false.
Proof.
  intros [Hl Hls]%Forall_cons. destruct ls as [|l2 ls].
  - by apply header_line_start.
  - rewrite join_cons_cons, <- app_assoc. by apply header_line_start.
Qed.

(** The lazy match of the frontmatter stops at the closing delimiter of a
    block of header lines. *)
Lemma lazy_until_block lines rest :
  lines ≠ [] → Forall header_line lines →
  Js.lazy_until (Js.LF :: Js.lit "---")
    (Js.join [Js.LF] lines ++ (Js.LF :: Js.lit "---") ++ rest)
  = Some (Js.join [Js.LF] lines).
Proof.
  induction lines as [|l ls IH]; [done|]. intros _ Hall.
  pose proof Hall as [Hl Hls]%Forall_cons.
  destruct ls as [|l2 ls].
  - cbn [Js.join]. rewrite lazy_until_line by apply Hl.
    cbn [app]. rewrite lazy_until_here. simpl. by rewrite app_nil_r.
  - rewrite join_cons_cons, <- !app_assoc.
    rewrite lazy_until_line by apply Hl.
    match goal with
    | |- context [[Js.LF] ++ ?z] => change ([Js.LF] ++ z) with (Js.LF :: z)
    end.
    rewrite lazy_until_next by (by apply join_header_start).
    rewrite IH by done. done.
Qed.

Lemma field_lines_header ref b :
  single_line_fields ref → Forall header_line (Memory.field_lines ref b).
Proof.
  intros (Hid & Hpk & Ht & Hst & Hc & Hu).
  unfold Memory.field_lines. apply Forall_app. split.
  - repeat apply Forall_cons_2; try apply Forall_nil_2;
      (split; [|eexists _, _; split; [reflexivity|done]]);
      repeat (apply single_line_app; split);
      first [ assumption | by apply single_line_lit
            | by apply single_line_escape | by repeat constructor ].
  - destruct b; [|constructor]. repeat apply Forall_cons_2; [|constructor].
    split; [|eexists _, _; split; [reflexivity|done]].
    repeat (apply single_line_app; split);
      first [ assumption | by apply single_line_lit | by repeat constructor ].
Qed.

(** The frontmatter the parser finds in a written file is the block of
    field lines. *)
Lemma match_frontmatter_written ref b :
  single_line_fields ref →
  Js.match_frontmatter (Memory.echo_file_text ref b)
  = Some (header_text ref b).
Proof.
  intros Hf.
  destruct (echo_file_text_layout ref b) as [rest ->].
  unfold Js.match_frontmatter. rewrite strip_prefix_app.
  apply lazy_until_block; [|by apply field_lines_header].
  unfold Memory.field_lines. done.
Qed.

Lemma parseEchoRef_written ref b r :
  single_line_fields ref →
  Memory.parseEchoRef (Memory.echo_file_text ref b) = Some r →
  EchoRef.title r = Memory.get (header_text ref b) (Js.lit "title")
  ∧ EchoRef.status r
    = Memory.or_else (Memory.get (header_text ref b) (Js.lit "status"))
                     (Js.lit "draft").
Proof.
  intros Hf. unfold Memory.parseEchoRef.
  rewrite (match_frontmatter_written ref b Hf).
  destruct (negb _ || negb _); [done|]. by intros [= <-].
Qed.

Lemma occurrences_app c s1 s2 :
  occurrences c (s1 ++ s2) = (occurrences c s1 + occurrences c s2)%nat.
Proof. unfold occurrences. by rewrite filter_app, length_app. Qed.

Lemma occurrences_cons c x s :
  occurrences c (x :: s)
  = ((if decide (x = c) then 1 else 0) + occurrences c s)%nat.
Proof.
  unfold occurrences. rewrite filter_cons. by destruct (decide (x = c)).
Qed.

Lemma occurrences_rev c s : occurrences c (rev s) = occurrences c s.
Proof.
  induction s as [|x s IH]; [done|]. simpl.
  rewrite occurrences_app, IH, !occurrences_cons. unfold occurrences at 2.
  simpl. lia.
Qed.

Lemma occurrences_trim_start c s :
  Js.is_space c = false →
  occurrences c (Js.trim_start s) = occurrences c s.
Proof.
  intros Hc. induction s as [|x s IH]; [done|]. simpl.
  destruct (Js.is_space x) eqn:Hx; [|done].
  rewrite IH, occurrences_cons. rewrite decide_False; [done|congruence].
Qed.

Lemma occurrences_trim c s :
  Js.is_space c = false → occurrences c (Js.trim s) = occurrences c s.
Proof.
  intros Hc. unfold Js.trim.
  by rewrite occurrences_rev, occurrences_trim_start, occurrences_rev,
    occurrences_trim_start.
Qed.

Lemma occurrences_escape_quotes t :
  occurrences Js.BACKSLASH (Js.escape_quotes t)
  = (occurrences Js.BACKSLASH t + occurrences Js.DQUOTE t)%nat.
Proof.
  induction t as [|x t IH]; [done|]. simpl.
  destruct (x =? Js.DQUOTE) eqn:E.
  - apply N.eqb_eq in E. subst x. rewrite !occurrences_cons, IH.
    repeat case_decide; try done; lia.
  - apply N.eqb_neq in E. rewrite !occurrences_cons, IH.
    repeat case_decide; try done; lia.
Qed.

Lemma occurrences_pos c s : c ∈ s → (0 < occurrences c s)%nat.
Proof.
  induction 1 as [x s|x y s Hin IH]; rewrite occurrences_cons.
  - rewrite decide_True by done. lia.
  - lia.
Qed.

(** Escaping a title that holds a quote changes it beyond what [trim] can
    undo: it has more backslashes. *)
Lemma escaped_title_differs t :
  Js.DQUOTE ∈ t → Js.trim (Js.escape_quotes t) ≠ t.
Proof.
  intros Hq Heq. apply occurrences_pos in Hq.
  apply (f_equal (occurrences Js.BACKSLASH)) in Heq.
  rewrite occurrences_trim, occurrences_escape_quotes in Heq by done. lia.
Qed.

(** For every reference whose header fields are single lines and whose
    title holds a double quote, the title [parseEchoRef] reads from the
    file [writeEchoRef] writes is the escaped title, not the title. *)
Lemma quoted_title_never_round_trips ref b r :
  single_line_fields ref →
  Js.DQUOTE ∈ EchoRef.title ref →
  Memory.parseEchoRef (Memory.echo_file_text ref b) = Some r →
  EchoRef.title r = Js.trim (Js.escape_quotes (EchoRef.title ref))
  ∧ EchoRef.title r ≠ EchoRef.title ref.
Proof.
  intros Hf Hq Hr. destruct (parseEchoRef_written ref b r Hf Hr) as [-> _].
  rewrite get_title_written by done. split; [done|].
  by apply escaped_title_differs.
Qed.

(** An empty status field: the white space after [status:] runs over the
    line end, and the value is the line of the next field. *)
Lemma get_status_blank ref b :
  single_line_fields ref → EchoRef.status ref = [] →
  Memory.get (header_text ref b) (Js.lit "status")
  = Js.trim (Js.strip_outer_quotes
               (Js.lit "createdAt: " ++ EchoRef.createdAt ref)).
Proof.
  intros (Hid & Hpk & Ht & Hst & Hc & Hu) Hblank.
  destruct (header_text_lines ref b) as (tail & -> & Htail).
  unfold Memory.get, Js.match_key. rewrite Hblank.
  do 3 pass_line.
  change (Js.lit "status: " ++ [])
    with (Js.lit "status" ++ Js.lit ":" ++ [32]).
  erewrite match_key_this_line; [reflexivity|].
  cbn [app Js.spaces_then_value].
  change (Js.is_space 32) with true. change (Js.is_space Js.LF) with true.
  cbv iota.
  change (Js.lit "createdAt: ") with (99 :: Js.lit "reatedAt: ").
  cbn [app Js.spaces_then_value]. change (Js.is_space 99) with false.
  cbv iota. unfold Js.dot_plus_eol.
  match goal with
  | |- context [Js.dot_run (?c :: ?l ++ Js.LF :: ?s)] =>
      change (Js.dot_run (c :: l ++ Js.LF :: s))
        with (Js.dot_run ((c :: l) ++ Js.LF :: s));
      rewrite (dot_run_line (c :: l) s); [done|]
  end.
  constructor; [done|]. apply single_line_app. split; [|done].
  by apply single_line_lit.
Qed.

Lemma strip_first_quote_snoc l c :
  l ≠ [] → ∃ t, Js.strip_first_quote (l ++ [c]) = t ++ [c].
Proof.
  destruct l as [|y l]; [done|]. intros _. simpl.
  destruct (y =? Js.DQUOTE); [by exists l|by exists (y :: l)].
Qed.

Lemma strip_outer_quotes_head c x s :
  c ≠ Js.DQUOTE → ∃ t, Js.strip_outer_quotes (c :: x :: s) = c :: t.
Proof.
  intros Hc. unfold Js.strip_outer_quotes. simpl.
  apply N.eqb_neq in Hc. rewrite Hc. simpl.
  destruct (strip_first_quote_snoc (rev s ++ [x]) c) as [t Ht].
  { by destruct (rev s). }
  rewrite Ht, rev_app_distr. simpl. eauto.
Qed.

Lemma trim_start_snoc l c :
  Js.is_space c = false → ∃ t, Js.trim_start (l ++ [c]) = t ++ [c].
Proof.
  intros Hc. induction l as [|y l IH]; simpl.
  - rewrite Hc. by exists [].
  - destruct (Js.is_space y); [done|]. by exists (y :: l).
Qed.

Lemma trim_head c s :
  Js.is_space c = false → ∃ t, Js.trim (c :: s) = c :: t.
Proof.
  intros Hc. unfold Js.trim. simpl. rewrite Hc. simpl.
  destruct (trim_start_snoc (rev s) c Hc) as [t ->].
  rewrite rev_app_distr. simpl. eauto.
Qed.

(** For every reference whose header fields are single lines and whose
    status is empty, the status [parseEchoRef] reads from the file
    [writeEchoRef] writes is the line of the [createdAt] field, not
    ["draft"]. *)
Lemma blank_status_never_draft ref b r :
  single_line_fields ref → EchoRef.status ref = [] →
  Memory.parseEchoRef (Memory.echo_file_text ref b) = Some r →
  EchoRef.status r
  = Js.trim (Js.strip_outer_quotes
               (Js.lit "createdAt: " ++ EchoRef.createdAt ref))
  ∧ EchoRef.status r ≠ Js.lit "draft".
Proof.
  intros Hf Hblank Hr.
  destruct (parseEchoRef_written ref b r Hf Hr) as [_ ->].
  rewrite get_status_blank by done.
  destruct (strip_outer_quotes_head 99 114
              (Js.lit "eatedAt: " ++ EchoRef.createdAt ref)) as [t Ht];
    [done|].
  change (Js.lit "createdAt: " ++ EchoRef.createdAt ref)
    with (99 :: 114 :: Js.lit "eatedAt: " ++ EchoRef.createdAt ref).
  rewrite Ht. destruct (trim_head 99 t) as [t' ->]; [done|].
  unfold Memory.or_else. simpl. split; [done|]. discriminate.
Qed.
End written_files.

(** The lemmas above at concrete files, through [readEchoRefs]: a file
    without a status line is listed as a draft, a file without a private
    key is not listed. *)
Example no_status_file_is_draft :
  ∃ r w',
    Memory.readEchoRefs (H := example_host)
      (world_with_echo_file (Js.lit "echo-plain.md") no_status_file)
    = (Ok [r], w')
    ∧ EchoRef.echoId r = Js.lit "echo-plain"
    ∧ EchoRef.status r = Js.lit "draft".
Proof. vm_compute. eexists _, _. repeat split; reflexivity. Qed.

Example no_key_file_is_skipped :
  ∃ w',
    Memory.readEchoRefs (H := example_host)
      (world_with_echo_file (Js.lit "echo-plain.md") no_key_file)
    = (Ok [], w').
Proof. vm_compute. eexists. reflexivity. Qed.

(** A file whose [echoId] field is empty is not skipped: the identifier of
    the record is the text of the next line. *)
Example empty_id_file_is_not_skipped :
  EchoRef.echoId <$> Memory.parseEchoRef empty_id_file
  = Some (Js.lit "privateKey: pk_plain").
Proof. vm_compute. reflexivity. Qed.

(** C5, at the input of the repository's own test: [writeEchoRef] followed by
    [readEchoRefs] returns one record; its neighbouring fields are intact,
    but its title is not the one supplied: each quote comes back with a
    backslash in front, and the quoted word of the original is no substring
    of it. *)
Theorem quoted_title_round_trip_keeps_escapes :
  ∃ r w',
    (Memory.writeEchoRef (H := example_host) ref_quotes None;;
     Memory.readEchoRefs (H := example_host)) empty_world = (Ok [r], w')
    ∧ EchoRef.echoId r = EchoRef.echoId ref_quotes
    ∧ EchoRef.privateKey r = EchoRef.privateKey ref_quotes
    ∧ EchoRef.status r = EchoRef.status ref_quotes
    ∧ EchoRef.title r = escaped_title
    ∧ EchoRef.title r ≠ EchoRef.title ref_quotes
    ∧ Js.includes quoted_word (EchoRef.title ref_quotes) = true
    ∧ Js.includes quoted_word (EchoRef.title r) = false.
Proof.
  vm_compute. eexists _, _. split; [reflexivity|].
  repeat split; try reflexivity. discriminate.
Qed.

(** C10, at a file with an empty status field: the file written for
    [ref_blank_status] is [blank_status_file]; its frontmatter has the
    [echoId], [privateKey] and [status] lines, the status is empty, and
    reading the file back gives a record whose status is the text of the
    next line, not ["draft"]. *)
Theorem blank_status_reads_next_line :
  Memory.echo_file_text ref_blank_status false = blank_status_file
  ∧ (∃ fm,
      Js.match_frontmatter blank_status_file = Some fm
      ∧ has_field (Js.lit "echoId") fm = true
      ∧ has_field (Js.lit "privateKey") fm = true
      ∧ has_field (Js.lit "status") fm = true
      ∧ Memory.get fm (Js.lit "status")
        = Js.lit "createdAt: 2026-02-27T00:00:00Z")
  ∧ ∃ r w',
      Memory.readEchoRefs (H := example_host)
        (world_with_echo_file (Js.lit "echo-blank.md") blank_status_file)
      = (Ok [r], w')
      ∧ EchoRef.echoId r = Js.lit "echo-blank"
      ∧ EchoRef.status r = Js.lit "createdAt: 2026-02-27T00:00:00Z"
      ∧ EchoRef.status r ≠ Js.lit "draft".
Proof.
  vm_compute. split; [reflexivity|]. split.
  - eexists. repeat split; reflexivity.
  - eexists _, _. split; [reflexivity|]. split; [reflexivity|].
    split; [reflexivity|discriminate].
Qed.

(** ** The background poll *)

Section poll_facts.
Context `{Host}.

(** A non-success response ends the chain of timers at once: [poll] returns
    without touching the ledger and without arming another timer. *)
Lemma poll_returns_on_refusal w job attempts r rest :
  gets w = Resolved r :: rest → Response.ok r = false →
  Server.poll job attempts w
  = (Ok Server.Returned,
     Server.with_gets rest (Server.with_sent (Server.poll_request job) w)).
Proof.
  intros Hg Hok. unfold Server.poll, Server.poll_try, try_catch.
  unfold mbind, M_bind, Server.fetch_get. simpl. rewrite Hg, Hok. done.
Qed.

Lemma run_poll_returns_on_refusal w job r rest :
  gets w = Resolved r :: rest → Response.ok r = false →
  ∃ w', Server.run_poll job w = (Ok Server.Returned, w')
        ∧ runs_dir w' = runs_dir w ∧ timers w' = timers w.
Proof.
  intros Hg Hok. unfold Server.run_poll, Server.MAX_ATTEMPTS. simpl.
  rewrite (bind_ok _ _ _ _ _ (poll_returns_on_refusal w job 1 r rest Hg Hok)).
  eexists. split; [reflexivity|]. done.
Qed.

Lemma poll_reschedules_below_bound w job attempts w' :
  Server.poll job attempts w = (Ok Server.Rescheduled, w') →
  (attempts < Server.MAX_ATTEMPTS)%nat.
Proof.
  unfold Server.poll, mbind, M_bind.
  destruct (Server.poll_try job w) as [[[]|e] w1]; try done.
  destruct (decide (attempts < Server.MAX_ATTEMPTS)%nat); [done|].
  destruct (Runs.updateStep _ _ _ _ w1) as [[[]|e] w2]; done.
Qed.

(** The chain of timers is finite: with enough fuel to reach
    [MAX_ATTEMPTS] it ends, no timer is left pending. *)
Lemma poll_chain_ends job : ∀ fuel attempts w,
  (0 < fuel)%nat → (Server.MAX_ATTEMPTS ≤ attempts + fuel)%nat →
  (Server.poll_chain fuel job attempts w).1 ≠ Ok Server.Rescheduled.
Proof.
  induction fuel as [|fuel IH]; intros attempts w Hpos Hle; [lia|].
  simpl. unfold mbind, M_bind.
  destruct (Server.poll job (S attempts) w) as [[e|e] w1] eqn:Hp; [|done].
  destruct e; try done.
  apply poll_reschedules_below_bound in Hp.
  apply IH; lia.
Qed.

Lemma run_poll_ends job w :
  (Server.run_poll job w).1 ≠ Ok Server.Rescheduled.
Proof. apply poll_chain_ends; unfold Server.MAX_ATTEMPTS; lia. Qed.

Lemma apply_update_keeps_step m name st a t n :
  is_Some (find_step n (RunMeta.steps m)) →
  is_Some (find_step n (RunMeta.steps (apply_update name st a t m))).
Proof.
  intros Hn. unfold apply_update.
  destruct (Runs.update_first name (Runs.set_step st a t) (RunMeta.steps m))
    as [steps|] eqn:Hu; [|done].
  simpl. rewrite (find_step_update_first _ _ _ _ _ (set_step_name st a t) Hu).
  destruct (decide (n = name)) as [->|]; [|done].
  destruct Hn as [s ->]. simpl. eauto.
Qed.

Lemma fetch_get_cases req w :
  Server.fetch_get req w
  = match gets w with
    | [] => (Throw Server.FETCH_FAILED, Server.with_sent req w)
    | Rejected e :: rest =>
        (Throw e, Server.with_gets rest (Server.with_sent req w))
    | Resolved r :: rest =>
        (Ok r, Server.with_gets rest (Server.with_sent req w))
    end.
Proof. reflexivity. Qed.

Lemma write_echo_file_quiet w name c :
  Js.entry_name name = true →
  io_faults w = [] →
  Memory.write_echo_file name c w
  = match echoes w with
    | None => (Throw ENOENT, w)
    | Some d => (Ok (), with_echoes (λ _, Some (<[name := stored c]> d)) w)
    end.
Proof.
  intros Hn Hq. unfold Memory.write_echo_file.
  rewrite (bind_ok _ _ _ _ _ (io_point_quiet w Hq)).
  unfold mbind, M_bind, get_world. rewrite Hn. by destruct (echoes w).
Qed.

Lemma poll_try_pollable job w m :
  Js.entry_name (Memory.json_name (PollJob.echoId job)) = true →
  pollable job w m →
  ∃ b w' m', Server.poll_try job w = (Ok b, w') ∧ pollable job w' m'
    ∧ (b = true → step_status_in m' (Js.lit "webset") = Some Completed).
Proof.
  intros Hname (Hl & Hs & Hg). unfold Server.poll_try.
  set (req := Server.poll_request job).
  assert (∀ rest, Forall no_refusal rest →
            pollable job (Server.with_gets rest (Server.with_sent req w)) m)
    as Hnext.
  { intros rest Hrest. split; [|by split].
    eapply ledger_at_transfer; [exact Hl|done|apply Hl]. }
  unfold try_catch, mbind at 1, M_bind at 1. rewrite fetch_get_cases.
  destruct (gets w) as [|[e|r] rest] eqn:Hgets.
  - exists false, (Server.with_sent req w), m. split; [done|]. split; [|done].
    split; [|split; [done|cbn; by rewrite Hgets]].
    eapply ledger_at_transfer; [exact Hl|done|apply Hl].
  - apply Forall_cons in Hg as [_ Hrest].
    exists false, (Server.with_gets rest (Server.with_sent req w)), m.
    split; [done|]. split; [by apply Hnext|done].
  - apply Forall_cons in Hg as [Hok Hrest]. simpl in Hok. rewrite Hok.
    cbn [negb]. cbv beta iota. specialize (Hnext rest Hrest).
    set (w1 := Server.with_gets rest (Server.with_sent req w)) in *.
    destruct Hnext as (Hl1 & _ & Hg1).
    destruct (Response.json r) as [data|e]; unfold Server.await; cbv iota;
      [rewrite (bind_ok (mret data) _ w1 data w1 eq_refl)
      |rewrite (bind_throw (mthrow e) _ w1 e w1 eq_refl);
       by exists false, w1, m].
    destruct (PollData.dataset data) as [[|item items]|];
      try by exists false, w1, m.
    destruct (bool_decide _); [|by exists false, w1, m].
    destruct (writeArtifact_quiet w1 (PollJob.runId job)
                (Js.lit "dataset.json")
                (Json (DValue (JArr (item :: items)))))
      as (p & w2 & Hw2 & _ & Hl2 & Hf2 & _);
      [done|apply Hl1|apply (ledger_run_exists _ _ _ (proj2 Hl1))
      |by vm_compute|].
    specialize (Hl2 _ Hl1).
    rewrite (bind_ok _ _ _ _ _ Hw2).
    destruct (updateStep_known w2 (PollJob.runId job) (Js.lit "webset")
                Completed None m Hl2 Hs)
      as (w3 & Hu3 & Hl3 & Hf3 & _).
    rewrite (bind_ok _ _ _ _ _ Hu3).
    set (m3 := apply_update _ _ _ _ m) in *.
    assert (step_status_in m3 (Js.lit "webset") = Some Completed) as Hdone.
    { unfold m3. rewrite step_status_apply_update by done.
      by rewrite decide_True. }
    assert (is_Some (find_step (Js.lit "webset") (RunMeta.steps m3))) as Hs3
      by (by apply apply_update_keeps_step).
    assert (gets w3 = rest) as Hg3.
    { destruct Hf3 as (_&_&_&_&->&_). by destruct Hf2 as (_&_&_&_&->&_). }
    unfold mbind, M_bind.
    rewrite (write_echo_file_quiet w3) by (done || apply Hl3).
    destruct (echoes w3) as [d|] eqn:He.
    + eexists true, _, m3. split; [reflexivity|]. split; [|done].
      split; [|split; [done|by rewrite <- Hg3 in Hrest]].
      eapply ledger_at_transfer; [exact Hl3|done|apply Hl3].
    + exists false, w3, m3. split; [reflexivity|]. split; [|done].
      split; [done|]. split; [done|by rewrite Hg3].
Qed.

Lemma poll_pollable job attempts w m :
  Js.entry_name (Memory.json_name (PollJob.echoId job)) = true →
  pollable job w m →
  ∃ e w' m', Server.poll job attempts w = (Ok e, w') ∧ pollable job w' m'
    ∧ (e ≠ Server.Rescheduled →
       step_status_in m' (Js.lit "webset") = Some Completed).
Proof.
  intros Hname Hp. destruct (poll_try_pollable job w m Hname Hp)
    as (b & w1 & m1 & Ht & Hp1 & Hb).
  unfold Server.poll. rewrite (bind_ok _ _ _ _ _ Ht).
  destruct b; [by exists Server.Returned, w1, m1; auto|].
  destruct (decide (attempts < Server.MAX_ATTEMPTS)%nat);
    [by exists Server.Rescheduled, w1, m1|].
  destruct Hp1 as (Hl1 & Hs1 & Hg1).
  destruct (updateStep_known w1 (PollJob.runId job) (Js.lit "webset")
              Completed None m1 Hl1 Hs1)
    as (w2 & Hu2 & Hl2 & Hf2 & _).
  rewrite (bind_ok _ _ _ _ _ Hu2).
  eexists Server.MarkedDone, w2, _. split; [reflexivity|].
  split.
  - split; [exact Hl2|]. split; [by apply apply_update_keeps_step|].
    destruct Hf2 as (_&_&_&_&->&_). done.
  - intros _. rewrite step_status_apply_update by done.
    by rewrite decide_True.
Qed.

Lemma poll_chain_completes job : ∀ fuel attempts w m,
  Js.entry_name (Memory.json_name (PollJob.echoId job)) = true →
  (0 < fuel)%nat → (Server.MAX_ATTEMPTS ≤ attempts + fuel)%nat →
  pollable job w m →
  ∃ e w' m', Server.poll_chain fuel job attempts w = (Ok e, w')
    ∧ e ≠ Server.Rescheduled
    ∧ Runs.readMeta (PollJob.runId job) w' = (Ok (Some m'), w')
    ∧ step_status_in m' (Js.lit "webset") = Some Completed.
Proof.
  induction fuel as [|fuel IH]; intros attempts w m Hname Hpos Hle Hp; [lia|].
  simpl.
  destruct (poll_pollable job (S attempts) w m Hname Hp)
    as (e & w1 & m1 & Hpoll & Hp1 & Hdone).
  rewrite (bind_ok _ _ _ _ _ Hpoll).
  destruct e.
  - exists Server.Returned, w1, m1. split; [done|]. split; [done|].
    split; [apply Hp1|by apply Hdone].
  - apply poll_reschedules_below_bound in Hpoll.
    apply (IH (S attempts) w1 m1); [done|lia|lia|done].
  - exists Server.MarkedDone, w1, m1. split; [done|]. split; [done|].
    split; [apply Hp1|by apply Hdone].
Qed.

(** Without a refusal the background enrichment ends with the webset step
    [completed]: when data arrives, or when the attempts are exhausted;
    rejected fetches and unreadable bodies are retried.  The identifier of
    the echo is one whose dataset file is an entry of [echoes/]. *)
Lemma run_poll_completes_without_refusal job w m :
  Js.entry_name (Memory.json_name (PollJob.echoId job)) = true →
  ledger_at w (PollJob.runId job) m →
  is_Some (find_step (Js.lit "webset") (RunMeta.steps m)) →
  Forall no_refusal (gets w) →
  ∃ e w' m', Server.run_poll job w = (Ok e, w')
    ∧ e ≠ Server.Rescheduled
    ∧ Runs.readMeta (PollJob.runId job) w' = (Ok (Some m'), w')
    ∧ step_status_in m' (Js.lit "webset") = Some Completed.
Proof.
  intros Hname Hl Hs Hg. apply (poll_chain_completes job _ 0%nat w m);
    [done|unfold Server.MAX_ATTEMPTS; lia|unfold Server.MAX_ATTEMPTS; lia
    |done].
Qed.
End poll_facts.

(** C3, at a poll whose first response is a 503: when the handler has
    returned, the webset step of [run_1] is [running] and one poll is armed;
    the poll asks the engine once, returns on the refusal, and the chain of
    timers is over with the step still [running]. *)
Theorem poll_refusal_leaves_webset_running :
  read_step_status (H := example_host) world_polling run_1 (Js.lit "webset")
  = Some Running
  ∧ timers world_polling = [poll_job_1]
  ∧ ∃ w',
      Server.run_poll (H := example_host) poll_job_1 world_polling
      = (Ok Server.Returned, w')
      ∧ read_step_status (H := example_host) w' run_1 (Js.lit "webset")
        = Some Running
      ∧ Request.method <$> sent w' = [Js.lit "POST"; Js.lit "GET"]
      ∧ gets w' = [].
Proof.
  vm_compute. split; [reflexivity|]. split; [reflexivity|].
  eexists. split; [reflexivity|]. repeat split; reflexivity.
Qed.

(** ** The tool handlers *)

Section handler_facts.
Context `{Host}.

Lemma loadEnv_quiet w txt :
  io_faults w = [] → env_file w = Some txt →
  Server.loadEnv w = (Ok (Server.parse_env txt), w).
Proof.
  intros Hq He. unfold Server.loadEnv, mbind, M_bind, get_world.
  rewrite He, (io_point_quiet w Hq). done.
Qed.

Lemma fetch_post_resolved w req r rest :
  posts w = Resolved r :: rest →
  Server.fetch_post req w
  = (Ok r, Server.with_posts rest (Server.with_sent req w)).
Proof. intros Hp. unfold Server.fetch_post. simpl. by rewrite Hp. Qed.

Lemma fetch_post_rejected w req e rest :
  posts w = Rejected e :: rest →
  Server.fetch_post req w
  = (Throw e, Server.with_posts rest (Server.with_sent req w)).
Proof. intros Hp. unfold Server.fetch_post. simpl. by rewrite Hp. Qed.

Lemma try_catch_ok {A} (body : M A) handler w a w' :
  body w = (Ok a, w') → try_catch body handler w = (Ok a, w').
Proof. intros Hb. unfold try_catch. by rewrite Hb. Qed.

Lemma try_catch_throw {A} (body : M A) handler w e w' :
  body w = (Throw e, w') → try_catch body handler w = handler e w'.
Proof. intros Hb. unfold try_catch. by rewrite Hb. Qed.

Lemma read_files_quiet d files : ∀ refs w,
  io_faults w = [] →
  ∃ refs', Memory.read_files d files refs w = (refs', w).
Proof.
  induction files as [|[file c] files IH]; intros refs w Hq; simpl; [eauto|].
  destruct (negb (Js.ends_with (Js.lit ".md") file)); [by apply IH|].
  rewrite (io_point_quiet w Hq).
  destruct (Memory.parse_echo_file c); by apply IH.
Qed.

Lemma readEchoRefs_quiet w :
  io_faults w = [] →
  ∃ refs w', Memory.readEchoRefs w = (Ok refs, w')
    ∧ runs_dir w' = runs_dir w ∧ io_faults w' = [] ∧ posts w' = posts w
    ∧ sent w' = sent w ∧ ticks w' = ticks w ∧ env_file w' = env_file w
    ∧ gets w' = gets w ∧ timers w' = timers w.
Proof.
  intros Hq. unfold Memory.readEchoRefs, Memory.ensureEchoesDir.
  rewrite (bind_ok _ _ _ _ _ (bind_ok _ _ _ _ _ (io_point_quiet w Hq))).
  unfold set_world. unfold mbind, M_bind, get_world.
  match goal with |- context [echoes ?w1] => set (w1' := w1) end.
  assert (io_faults w1' = []) as Hq1 by done.
  destruct (echoes w1') as [d|]; [|by eexists _, _].
  unfold Memory.read_dir. rewrite (io_point_quiet w1' Hq1).
  destruct (read_files_quiet d (map_to_list d) [] w1' Hq1) as [refs ->].
  by eexists _, _.
Qed.

Lemma with_authorization_quiet w args headers :
  io_faults w = [] →
  ∃ hs w', Server.with_authorization args headers w = (Ok hs, w')
    ∧ runs_dir w' = runs_dir w ∧ io_faults w' = [] ∧ posts w' = posts w
    ∧ sent w' = sent w ∧ ticks w' = ticks w.
Proof.
  intros Hq. unfold Server.with_authorization.
  destruct (Js.truthy_opt (EchoArgs.echoId args)); [|by eexists _, _].
  destruct (readEchoRefs_quiet w Hq)
    as (refs & w' & Hr & Hd & Hq' & Hp & Hs & Ht & _).
  rewrite (bind_ok _ _ _ _ _ Hr).
  destruct (List.find _ refs) as [existing|]; [|by eexists _, _].
  destruct (Js.truthy (EchoRef.privateKey existing)); by eexists _, _.
Qed.

Lemma frame_posts w w' : frame w w' → posts w' = posts w.
Proof. by intros (?&?&?&?&?&?&?). Qed.

Lemma frame_sent w w' : frame w w' → sent w' = sent w.
Proof. by intros (?&?&?&?&?&?&?). Qed.

Lemma frame_env w w' : frame w w' → env_file w' = env_file w.
Proof. by intros (?&?&?&?&?&?&?). Qed.

Lemma neq_META (f : string) :
  bool_decide (Js.lit f = Runs.META) = false → Js.lit f ≠ Runs.META.
Proof. by intros ?%bool_decide_eq_false. Qed.

(** Step 1 and the start of step 2 of both handlers, without storage
    faults: the run is created, the context artifact is written, the
    context step is completed and the sources step is running; then the
    rest [k] of the handler runs. *)
Lemma capture_context_quiet {A} (k : M A) w runId c :
  io_faults w = [] →
  ∃ w' t0 t1 t2 t3,
    (Runs.createRun runId;;
     Runs.updateStep runId (Js.lit "context") Running None;;
     Runs.writeArtifact runId (Js.lit "context.json") c;;
     Runs.updateStep runId (Js.lit "context") Completed
       (Some (Js.lit "context.json"));;
     Runs.updateStep runId (Js.lit "sources") Running None;;
     k) w = k w'
    ∧ ledger_at w' runId (started_meta runId t0 t1 t2 t3)
    ∧ Runs.run_file w' runId (Js.lit "context.json") = Some (stored c)
    ∧ frame w w'.
Proof.
  intros Hq.
  destruct (createRun_quiet w runId Hq) as (w1 & Hc & Hl1 & Hf1 & _ & _).
  rewrite (bind_ok _ _ _ _ _ Hc).
  destruct (updateStep_known w1 runId (Js.lit "context") Running None _ Hl1)
    as (w2 & Hu2 & Hl2 & Hf2 & _ & _); [vm_compute; eauto|].
  rewrite (bind_ok _ _ _ _ _ Hu2).
  destruct (writeArtifact_quiet w2 runId (Js.lit "context.json") c)
    as (p & w3 & Hw3 & Hc3 & Hl3 & Hf3 & _);
    [by vm_compute|apply Hl2|apply (ledger_run_exists _ _ _ (proj2 Hl2))
    |by vm_compute|].
  rewrite (bind_ok _ _ _ _ _ Hw3).
  specialize (Hl3 _ Hl2).
  destruct (updateStep_known w3 runId (Js.lit "context") Completed
              (Some (Js.lit "context.json")) _ Hl3)
    as (w4 & Hu4 & Hl4 & Hf4 & [Hs4 _] & _); [vm_compute; eauto|].
  rewrite (bind_ok _ _ _ _ _ Hu4).
  destruct (updateStep_known w4 runId (Js.lit "sources") Running None _ Hl4)
    as (w5 & Hu5 & Hl5 & Hf5 & [Hs5 _] & _); [vm_compute; eauto|].
  rewrite (bind_ok _ _ _ _ _ Hu5).
  exists w5, (toISOString (ticks w)), (stamp w1 Running),
    (stamp w3 Completed), (stamp w4 Running).
  split; [reflexivity|]. split; [exact Hl5|]. split.
  - rewrite Hs5, Hs4 by (by vm_compute). exact Hc3.
  - repeat (eapply frame_trans; [eassumption|]). apply frame_refl.
Qed.

(** The branch [if (!res.ok)] of [loretech_echo] when the text of the
    response can be read: the handler returns an error result; the sources
    step is [failed], the run is [failed] with the error of the engine
    recorded, and no later step was touched: compose, store, record and
    webset are as [createRun] wrote them, [pending] without a time stamp. *)
Lemma engine_refusal_fails_run w args runId loretechKey openrouterKey
    exaKey r rest text :
  io_faults w = [] →
  has_keys w loretechKey openrouterKey exaKey →
  posts w = Resolved r :: rest →
  Response.ok r = false →
  Response.text r = Ok text →
  ∃ w' result m,
    Server.loretech_echo args runId w = (Ok result, w')
    ∧ ToolResult.isError result = true
    ∧ Runs.readMeta runId w' = (Ok (Some m), w')
    ∧ RunMeta.status m = RunFailed
    ∧ RunMeta.error m = Some (Server.engine_error r text)
    ∧ step_status_in m (Js.lit "context") = Some Completed
    ∧ step_status_in m (Js.lit "sources") = Some Failed
    ∧ Forall (λ name, find_step name (RunMeta.steps m)
                      = Some (Runs.pending_step name))
        (Js.lit <$> ["compose"; "store"; "record"; "webset"]%string).
Proof.
  intros Hq (txt & He & Hk1 & Hk2 & Hk3 & Ht1 & Ht2 & Ht3) Hp Hok Htext.
  unfold Server.loretech_echo.
  rewrite (bind_ok _ _ _ _ _ (loadEnv_quiet w txt Hq He)).
  rewrite Hk1, Hk2, Hk3.
  destruct (Js.truthy loretechKey); [|done].
  destruct (Js.truthy openrouterKey); [|done].
  destruct (Js.truthy exaKey); [|done]. cbn [negb orb].
  destruct (capture_context_quiet
              (try_catch
                 (Server.echo_try args (Server.parse_env txt) loretechKey
                    openrouterKey exaKey runId)
                 (Server.echo_catch runId))
              w runId (Json (DContext (Server.echo_context args))) Hq)
    as (w5 & t0 & t1 & t2 & t3 & Hpre & Hl5 & _ & Hf5).
  rewrite Hpre. clear Hpre.
  assert (posts w5 = Resolved r :: rest) as Hp5
    by (by rewrite (frame_posts _ _ Hf5)).
  (* the [try] block *)
  assert (∃ w' result,
    Server.echo_try args (Server.parse_env txt) loretechKey openrouterKey
      exaKey runId w5 = (Ok result, w')
    ∧ ToolResult.isError result = true
    ∧ ∃ t4 t5, ledger_at w' runId
        (Runs.set_result None (Some (Server.engine_error r text)) t5
           (apply_update (Js.lit "sources") Failed None t4
              (started_meta runId t0 t1 t2 t3)))) as (w' & result & Htry & Herr & t4 & t5 & Hl').
  { unfold Server.echo_try.
    destruct (with_authorization_quiet w5 args
                (Server.engine_headers loretechKey openrouterKey exaKey
                 ++ Server.header_if "X-Display-Name"
                      (Server.parse_env txt !! Js.lit "DISPLAY_NAME")
                 ++ Server.header_if "X-Handle"
                      (Server.parse_env txt !! Js.lit "X_HANDLE"))
                (proj1 Hl5))
      as (hs & w6 & Ha & Hd6 & Hq6 & Hp6 & _).
    rewrite (bind_ok _ _ _ _ _ Ha).
    erewrite bind_ok; [|apply fetch_post_resolved; by rewrite Hp6, Hp5].
    rewrite Hok. cbn [negb]. rewrite Htext.
    unfold Server.await. rewrite (bind_ok _ _ _ text _ eq_refl).
    match goal with |- ∃ _ _, (_ ≫= _) ?w = _ ∧ _ => set (w7 := w) end.
    assert (ledger_at w7 runId (started_meta runId t0 t1 t2 t3)) as Hl7
      by (by apply (ledger_at_transfer w5)).
    destruct (updateStep_known w7 runId (Js.lit "sources") Failed None _ Hl7)
      as (w8 & Hu8 & Hl8 & _); [vm_compute; eauto|].
    rewrite (bind_ok _ _ _ _ _ Hu8).
    destruct (completeRun_known w8 runId None
                (Some (Server.engine_error r text)) _ Hl8)
      as (w9 & Hc9 & Hl9 & _).
    rewrite (bind_ok _ _ _ _ _ Hc9).
    eexists _, _. split; [reflexivity|]. split; [reflexivity|].
    eexists _, _. exact Hl9. }
  rewrite (try_catch_ok _ _ _ _ _ Htry).
  eexists _, _, _. split; [reflexivity|]. split; [exact Herr|].
  split; [exact (proj2 Hl')|].
  clear. generalize t0 t1 t2 t3 t4 t5. clear. intros.
  split; [reflexivity|]. split; [reflexivity|].
  split; [vm_compute; reflexivity|]. split; [vm_compute; reflexivity|].
  repeat constructor; vm_compute; reflexivity.
Qed.

Lemma transforms_ret {A} P (a : A) : transforms P P (mret a).
Proof. by intros w. Qed.

Lemma transforms_throw {A} P (e : str) : transforms P P (mthrow e : M A).
Proof. by intros w. Qed.

Lemma transforms_bind {A B} P Q (m : M A) (f : A → M B) :
  transforms P Q m → (∀ a, transforms Q Q (f a)) → transforms P Q (m ≫= f).
Proof.
  intros Hm Hf w HP. specialize (Hm w HP). unfold mbind, M_bind.
  destruct (m w) as [[a|e] w1]; simpl in *; [by apply Hf|done].
Qed.

Lemma transforms_try_catch {A} P Q (body : M A) handler :
  transforms P Q body → (∀ e, transforms Q Q (handler e)) →
  transforms P Q (try_catch body handler).
Proof.
  intros Hb Hh w HP. specialize (Hb w HP). unfold try_catch.
  destruct (body w) as [[a|e] w1]; simpl in *; [done|by apply Hh].
Qed.

Section keeps.
Context (rid f : str) (c : content) (S : list Request.t).
Local Abbreviation K := (keeps rid f c S).

Lemma keeps_io_point : transforms K K io_point.
Proof.
  intros w HK. unfold io_point.
  destruct (io_faults w) as [|[e|] rest]; done.
Qed.

Lemma keeps_now : transforms K K now.
Proof. by intros w HK. Qed.

Lemma keeps_await {A} (o : outcome A) : transforms K K (Server.await o).
Proof. destruct o; [apply transforms_ret|apply transforms_throw]. Qed.

Lemma keeps_write_run_file runId f' c' :
  Js.entry_name f' = true →
  f' ≠ f → transforms K K (Runs.write_run_file runId f' c').
Proof.
  intros Hn Hf w HK. unfold Runs.write_run_file, mbind, M_bind.
  pose proof (keeps_io_point w HK) as HK1.
  destruct (io_point w) as [[[]|e] w1]; simpl in *; [|done].
  unfold get_world. rewrite Hn.
  destruct (runs_dir w1 !! runId) as [d|] eqn:Hd; [|done]. simpl.
  destruct HK1 as [HS Hc]. split; [done|].
  unfold Runs.run_file in *. simpl.
  destruct (decide (runId = rid)) as [->|Hr].
  - rewrite lookup_insert_eq. rewrite Hd in Hc. simpl in *.
    by rewrite lookup_insert_ne.
  - by rewrite lookup_insert_ne.
Qed.

Lemma keeps_readMeta runId : transforms K K (Runs.readMeta runId).
Proof.
  intros w HK. unfold Runs.readMeta, mbind, M_bind, get_world.
  destruct (Runs.run_file w runId Runs.META) as [c0|]; [|done].
  pose proof (keeps_io_point w HK) as HK1.
  destruct (io_point w) as [[[]|e] w1]; simpl in *; [|done].
  destruct (parse_meta_pure c0) as [r Hr]. rewrite Hr. by destruct r.
Qed.

Hypothesis f_not_meta : f ≠ Runs.META.

Lemma keeps_writeMeta runId m : transforms K K (Runs.writeMeta runId m).
Proof. apply keeps_write_run_file; [reflexivity|done]. Qed.

Lemma keeps_updateStep runId name st a :
  transforms K K (Runs.updateStep runId name st a).
Proof.
  unfold Runs.updateStep.
  apply transforms_bind; [apply keeps_readMeta|]. intros [m|]; [|apply transforms_ret].
  destruct (Runs.update_first name id _); [|apply transforms_ret].
  apply transforms_bind.
  { destruct (decide (st = Pending)); [apply transforms_ret|apply keeps_now]. }
  intros t. destruct (Runs.update_first name _ _); [|apply transforms_ret].
  apply keeps_writeMeta.
Qed.

Lemma keeps_completeRun runId e err :
  transforms K K (Runs.completeRun runId e err).
Proof.
  unfold Runs.completeRun.
  apply transforms_bind; [apply keeps_readMeta|]. intros [m|]; [|apply transforms_ret].
  apply transforms_bind; [apply keeps_now|]. intros t. apply keeps_writeMeta.
Qed.

Lemma keeps_writeArtifact runId f' c' :
  Js.entry_name f' = true →
  f' ≠ f → transforms K K (Runs.writeArtifact runId f' c').
Proof.
  intros Hn Hf. unfold Runs.writeArtifact.
  apply transforms_bind; [by apply keeps_write_run_file|].
  intros _. apply transforms_ret.
Qed.

Lemma keeps_ensureEchoesDir : transforms K K Memory.ensureEchoesDir.
Proof.
  unfold Memory.ensureEchoesDir.
  apply transforms_bind; [apply keeps_io_point|]. by intros _ w HK.
Qed.

Lemma keeps_write_echo_file name c' :
  Js.entry_name name = true →
  transforms K K (Memory.write_echo_file name c').
Proof.
  intros Hn. unfold Memory.write_echo_file.
  apply transforms_bind; [apply keeps_io_point|]. intros _.
  intros w HK. unfold mbind, M_bind, get_world. rewrite Hn.
  destruct (echoes w); done.
Qed.

Lemma keeps_writeEchoRef ref :
  Js.entry_name (Memory.md_name (EchoRef.echoId ref)) = true →
  transforms K K (Memory.writeEchoRef ref None).
Proof.
  intros Hn. unfold Memory.writeEchoRef.
  apply transforms_bind; [apply keeps_ensureEchoesDir|]. intros _.
  apply transforms_bind; [by apply keeps_write_echo_file|]. intros _.
  apply transforms_ret.
Qed.
End keeps.

Lemma fetch_post_appends rid f c S req :
  transforms (keeps rid f c S) (keeps rid f c (S ++ [req]))
             (Server.fetch_post req).
Proof.
  intros w [HS Hc]. unfold Server.fetch_post, keeps. simpl.
  destruct (posts w) as [|[e|r] rest]; simpl; rewrite HS; done.
Qed.

Lemma readArtifact_quiet w runId f c :
  io_faults w = [] → Runs.run_file w runId f = Some c →
  Runs.readArtifact runId f w = (Ok (Some c), w).
Proof.
  intros Hq Hf. unfold Runs.readArtifact, mbind, M_bind, get_world.
  rewrite Hf, (io_point_quiet w Hq). done.
Qed.

Lemma keep_carried o : carried o (Server.keep o).
Proof. unfold carried, Server.keep. destruct (Js.truthy_opt o); split; done. Qed.

Lemma keep_json_carried o : carried_json o (Server.keep_json o).
Proof.
  unfold carried_json, Server.keep_json.
  destruct (Memory.truthy_json_opt o); split; done.
Qed.

Ltac keeps_tac :=
  repeat first
    [ apply transforms_ret
    | apply transforms_throw
    | apply keeps_await
    | apply keeps_writeEchoRef; assumption
    | apply keeps_updateStep; by vm_compute
    | apply keeps_completeRun; by vm_compute
    | apply keeps_writeArtifact; by vm_compute
    | apply transforms_bind; [|intros ?]
    | match goal with
      | |- transforms _ _ (if ?b then _ else _) => destruct b
      end ].

Lemma transforms_ret_bind {A B} P Q (a : A) (f : A → M B) :
  transforms P Q (f a) → transforms P Q (mret a ≫= f).
Proof. intros Hf w HP. exact (Hf w HP). Qed.

Lemma transforms_throw_bind {A B} P (e : str) (f : A → M B) :
  transforms P P (mthrow e ≫= f).
Proof. by intros w HP. Qed.

Lemma rerun_try_sends args original loretechKey openrouterKey exaKey
    newRunId c S w :
  answers_with_file_name w →
  keeps newRunId (Js.lit "context.json") c S w →
  keeps newRunId (Js.lit "context.json") c
    (S ++ [ Request.mk (Js.lit "POST") Server.echo_url
              (Server.engine_headers loretechKey openrouterKey exaKey)
              (Some (Server.rerun_body args original)) ])
    (try_catch
       (Server.rerun_try args original loretechKey openrouterKey exaKey
          newRunId)
       (Server.rerun_catch newRunId) w).2.
Proof.
  intros Hname HK.
  set (req := Request.mk _ _ _ _).
  pose proof (fetch_post_appends _ _ _ _ req w HK) as HK1.
  assert (∀ e, transforms (keeps newRunId (Js.lit "context.json") c
                             (S ++ [req]))
                 (keeps newRunId (Js.lit "context.json") c (S ++ [req]))
                 (Server.rerun_catch newRunId e)) as Hcatch.
  { intros e. unfold Server.rerun_catch. keeps_tac. }
  unfold Server.rerun_try. fold req.
  destruct (posts w) as [|[e|r] rest] eqn:Hp.
  - assert (Server.fetch_post req w
            = (Throw Server.FETCH_FAILED, Server.with_sent req w)) as Hf
      by (unfold Server.fetch_post; simpl; by rewrite Hp).
    rewrite Hf in HK1.
    rewrite (try_catch_throw _ _ _ _ _ (bind_throw _ _ _ _ _ Hf)).
    by apply Hcatch.
  - pose proof (fetch_post_rejected w req e rest Hp) as Hf.
    rewrite Hf in HK1.
    rewrite (try_catch_throw _ _ _ _ _ (bind_throw _ _ _ _ _ Hf)).
    by apply Hcatch.
  - pose proof (fetch_post_resolved w req r rest Hp) as Hf.
    rewrite Hf in HK1. specialize (Hname r rest).
    unfold try_catch at 1. rewrite (bind_ok _ _ _ _ _ Hf).
    lazymatch goal with
    | |- keeps _ _ _ _ (match ?body ?w1 with _ => _ end).2 =>
        change (keeps newRunId (Js.lit "context.json") c (S ++ [req])
                  (try_catch body (Server.rerun_catch newRunId) w1).2)
    end.
    revert HK1. generalize (Server.with_posts rest (Server.with_sent req w)).
    apply transforms_try_catch; [|exact Hcatch].
    destruct (Response.ok r); cbn [negb]; [|keeps_tac].
    destruct (Response.json r) as [data|e]; unfold Server.await;
      [|apply transforms_throw_bind].
    specialize (Hname data Hp eq_refl eq_refl). unfold names_echo_file in Hname.
    apply transforms_ret_bind. keeps_tac.
Qed.

(** What the replay does with the stored input.  For a source run with a
    record and a stored context artifact, whether the engine then answers,
    refuses or fails, [loretech_rerun] sends one request.  Its context is
    the override when [fromStep] is ["context"] and a non-empty override is
    supplied, and the stored context otherwise; its depth is the stored
    depth; focus, intent, signals, scope and source are carried unchanged
    when the stored value is truthy and left out otherwise.  The context
    artifact of the new run is [rerun_artifact]: that context, the stored
    depth and focus, and the run and the step it was replayed from, without
    the four other fields of the stored input. *)
Lemma replay_derives_input w args newRunId loretechKey openrouterKey exaKey
    m original :
  io_faults w = [] →
  answers_with_file_name w →
  has_keys w loretechKey openrouterKey exaKey →
  Runs.readMeta (RerunArgs.runId args) w = (Ok (Some m), w) →
  Runs.run_file w (RerunArgs.runId args) (Js.lit "context.json")
  = Some (Json (DContext original)) →
  ∃ req body artifact,
    sent (Server.loretech_rerun args newRunId w).2 = sent w ++ [req]
    ∧ Request.body req = Some body
    ∧ (RerunArgs.fromStep args = FromContext →
       Js.truthy_opt (RerunArgs.overrideContext args) →
       Some (EngineBody.context body) = RerunArgs.overrideContext args)
    ∧ (RerunArgs.fromStep args ≠ FromContext
       ∨ ¬ Js.truthy_opt (RerunArgs.overrideContext args) →
       EngineBody.context body = ContextArtifact.context original)
    ∧ EngineBody.depth body = ContextArtifact.depth original
    ∧ carried (ContextArtifact.focus original) (EngineBody.focus body)
    ∧ carried (ContextArtifact.intent original) (EngineBody.intent body)
    ∧ carried_json (ContextArtifact.signals original)
                   (EngineBody.signals body)
    ∧ carried (ContextArtifact.scope original) (EngineBody.scope body)
    ∧ carried_json (ContextArtifact.source original)
                   (EngineBody.source body)
    ∧ Runs.run_file (Server.loretech_rerun args newRunId w).2 newRunId
        (Js.lit "context.json") = Some (Json (DContext artifact))
    ∧ ContextArtifact.context artifact = EngineBody.context body
    ∧ ContextArtifact.depth artifact = ContextArtifact.depth original
    ∧ ContextArtifact.focus artifact = ContextArtifact.focus original
    ∧ ContextArtifact.replayedFrom artifact = Some (RerunArgs.runId args)
    ∧ ContextArtifact.replayedStep artifact
      = Some (Server.step_name (RerunArgs.fromStep args))
    ∧ artifact = Server.rerun_artifact args original.
Proof.
  intros Hq Hname (txt & He & Hk1 & Hk2 & Hk3 & Ht1 & Ht2 & Ht3) Hm Hc.
  exists (Request.mk (Js.lit "POST") Server.echo_url
            (Server.engine_headers loretechKey openrouterKey exaKey)
            (Some (Server.rerun_body args original))),
    (Server.rerun_body args original), (Server.rerun_artifact args original).
  assert (keeps newRunId (Js.lit "context.json")
            (Json (DContext (Server.rerun_artifact args original)))
            (sent w ++ [ Request.mk (Js.lit "POST") Server.echo_url
                 (Server.engine_headers loretechKey openrouterKey exaKey)
                 (Some (Server.rerun_body args original)) ])
            (Server.loretech_rerun args newRunId w).2) as [HS HF].
  { unfold Server.loretech_rerun.
    rewrite (bind_ok _ _ _ _ _ Hm).
    rewrite (bind_ok _ _ _ _ _ (readArtifact_quiet _ _ _ _ Hq Hc)).
    cbn [Server.truthy_content Server.parse_context].
    rewrite (bind_ok _ _ _ original w eq_refl).
    rewrite (bind_ok _ _ _ _ _ (loadEnv_quiet w txt Hq He)).
    rewrite Hk1, Hk2, Hk3.
    destruct (Js.truthy loretechKey); [|done].
    destruct (Js.truthy openrouterKey); [|done].
    destruct (Js.truthy exaKey); [|done]. cbn [negb orb].
    destruct (capture_context_quiet
                (try_catch
                   (Server.rerun_try args original loretechKey openrouterKey
                      exaKey newRunId)
                   (Server.rerun_catch newRunId))
                w newRunId
                (Json (DContext (Server.rerun_artifact args original))) Hq)
      as (w5 & t0 & t1 & t2 & t3 & Hpre & Hl5 & Hc5 & Hf5).
    rewrite Hpre. apply rerun_try_sends.
    - intros r rest data Hp. apply (Hname r rest data).
      destruct Hf5 as (_ & _ & _ & <- & _). exact Hp.
    - split; [apply (frame_sent _ _ Hf5)|exact Hc5]. }
  split; [exact HS|]. split; [reflexivity|].
  split.
  { intros Hfrom Hov. simpl. unfold Server.rerun_context.
    rewrite bool_decide_eq_true_2 by done.
    destruct (RerunArgs.overrideContext args) as [s|]; [|done].
    simpl in *. destruct (Js.truthy s); done. }
  split.
  { intros Hno. simpl. unfold Server.rerun_context.
    destruct Hno as [Hno|Hno].
    - by rewrite bool_decide_eq_false_2.
    - destruct (Js.truthy_opt (RerunArgs.overrideContext args)); [done|].
      by rewrite andb_false_r. }
  split; [reflexivity|].
  split; [apply keep_carried|]. split; [apply keep_carried|].
  split; [apply keep_json_carried|]. split; [apply keep_carried|].
  split; [apply keep_json_carried|].
  split; [exact HF|]. repeat split; reflexivity.
Qed.
End handler_facts.

(** C6, at a storage fault in step 1: the write of [context.json] fails with
    "no space left on device".  The handler does not return a result; the
    exception leaves it, outside its [try] block.  Nothing is recorded on
    the run: its record stays [running] without an error, the context step
    stays [running]. *)
Theorem echo_handler_throws_on_context_write_fault :
  ∃ w' m,
    Server.loretech_echo (H := example_host) example_args run_1
      world_disk_full = (Throw disk_full, w')
    ∧ (Runs.readMeta (H := example_host) run_1 w').1 = Ok (Some m)
    ∧ RunMeta.status m = RunRunning
    ∧ RunMeta.error m = None
    ∧ step_status_in m (Js.lit "context") = Some Running.
Proof.
  vm_compute. eexists _, _. split; [reflexivity|].
  split; [reflexivity|]. repeat split; reflexivity.
Qed.

(** The same fault one step later, inside the [try] block (the write of
    [sources.json]), is caught: the handler returns an error result and the
    run is recorded as [failed] with the message. *)
Example echo_handler_catches_sources_write_fault :
  ∃ w' result m,
    Server.loretech_echo (H := example_host) example_args run_1
      (world_configured
         [None; None; None; None; None; None; None; None; None; None;
          Some disk_full]
         [Resolved ok_response] [])
    = (Ok result, w')
    ∧ ToolResult.isError result = true
    ∧ ToolResult.text result = Js.lit "Echo creation failed: " ++ disk_full
    ∧ (Runs.readMeta (H := example_host) run_1 w').1 = Ok (Some m)
    ∧ RunMeta.status m = RunFailed
    ∧ RunMeta.error m = Some disk_full.
Proof.
  vm_compute. eexists _, _, _. split; [reflexivity|].
  repeat split; reflexivity.
Qed.

Lemma world_refused_has_keys :
  has_keys world_refused (Js.lit "lt_key") (Js.lit "or_key")
    (Js.lit "exa_key").
Proof. exists env_text. vm_compute. repeat split; reflexivity. Defined.

Lemma engine_refusal_fails_run_at_500 :
  ∃ w' result m,
    Server.loretech_echo (H := example_host) example_args run_1 world_refused
    = (Ok result, w')
    ∧ ToolResult.isError result = true
    ∧ Runs.readMeta (H := example_host) run_1 w' = (Ok (Some m), w')
    ∧ RunMeta.status m = RunFailed
    ∧ RunMeta.error m = Some (Js.lit "Engine returned 500: upstream error")
    ∧ step_status_in m (Js.lit "sources") = Some Failed
    ∧ Forall (λ name, find_step name (RunMeta.steps m)
                      = Some (Runs.pending_step name))
        (Js.lit <$> ["compose"; "store"; "record"; "webset"]%string).
Proof.
  destruct (engine_refusal_fails_run (H := example_host) world_refused
              example_args run_1 (Js.lit "lt_key") (Js.lit "or_key")
              (Js.lit "exa_key") engine_refusal [] (Js.lit "upstream error")
              eq_refl world_refused_has_keys eq_refl eq_refl eq_refl)
    as (w' & result & m & Hr & He & Hm & Hst & Herr & _ & Hs & Hrest).
  exists w', result, m. split; [exact Hr|]. split; [exact He|].
  split; [exact Hm|]. split; [exact Hst|]. split; [exact Herr|].
  split; [exact Hs|exact Hrest].
Defined.

(** C7, at a refusal whose body cannot be read: the engine answers the
    request of [loretech_echo] with the status 502, and the connection
    ends while [await res.text()] waits for the body.  The branch
    [if (!res.ok)] reads the text before it marks the step, so the
    exception leaves it with the step unmarked and the [catch] block, which
    only calls [completeRun], takes over.  The handler returns an error
    result and the run is [failed], but the sources step is [running], not
    [failed], and the error recorded is the message of the failed read, not
    the refusal of the engine. *)
Theorem engine_refusal_unread_leaves_sources_running :
  ∃ w' result m,
    Server.loretech_echo (H := example_host) example_args run_1
      world_refused_unread = (Ok result, w')
    ∧ Response.ok engine_refusal_unread = false
    ∧ posts world_refused_unread = [Resolved engine_refusal_unread]
    ∧ result = ToolResult.mk (Js.lit "Echo creation failed: terminated") true
    ∧ Runs.readMeta (H := example_host) run_1 w' = (Ok (Some m), w')
    ∧ RunMeta.status m = RunFailed
    ∧ RunMeta.error m = Some (Js.lit "terminated")
    ∧ step_status_in m (Js.lit "context") = Some Completed
    ∧ step_status_in m (Js.lit "sources") = Some Running
    ∧ step_status_in m (Js.lit "sources") ≠ Some Failed
    ∧ Forall (λ name, step_status_in m name = Some Pending)
        (Js.lit <$> ["compose"; "store"; "record"; "webset"]%string).
Proof.
  vm_compute. eexists _, _, _.
  split; [reflexivity|]. split; [reflexivity|]. split; [reflexivity|].
  split; [reflexivity|]. split; [reflexivity|]. split; [reflexivity|].
  split; [reflexivity|]. split; [reflexivity|]. split; [reflexivity|].
  split; [discriminate|].
  repeat constructor.
Qed.

(** C8, at the replay of a run whose input has an intent.  The stored
    input of [run_1] has the intent ["verify"].  The request of the replay
    carries it, but the context artifact written for the new run [run_2],
    which is its captured input ("Copy context (possibly modified)" in the
    handler), has no intent, and none of the signals, the scope and the
    source either: it holds the content, the depth, and the run and the
    step it was replayed from.  So the replay of [run_2] reads an input
    without the intent and sends a request without it. *)
Theorem replay_drops_stored_fields :
  ∃ stored req2 body2 artifact2 req3 body3,
    let w2 := (Server.loretech_rerun (H := example_host)
                 (rerun_from_sources run_1) run_2 world_replayable_twice).2 in
    let w3 := (Server.loretech_rerun (H := example_host)
                 (rerun_from_sources run_2) run_3 w2).2 in
    Runs.run_file world_replayable_twice run_1 (Js.lit "context.json")
    = Some (Json (DContext stored))
    ∧ ContextArtifact.intent stored = Some (Js.lit "verify")
    ∧ last (sent w2) = Some req2
    ∧ Request.body req2 = Some body2
    ∧ EngineBody.intent body2 = Some (Js.lit "verify")
    ∧ Runs.run_file w2 run_2 (Js.lit "context.json")
      = Some (Json (DContext artifact2))
    ∧ ContextArtifact.context artifact2 = ContextArtifact.context stored
    ∧ ContextArtifact.depth artifact2 = ContextArtifact.depth stored
    ∧ ContextArtifact.replayedFrom artifact2 = Some run_1
    ∧ ContextArtifact.intent artifact2 = None
    ∧ ContextArtifact.intent artifact2 ≠ ContextArtifact.intent stored
    ∧ ContextArtifact.signals artifact2 = None
    ∧ ContextArtifact.scope artifact2 = None
    ∧ ContextArtifact.source artifact2 = None
    ∧ read_step_status (H := example_host) w2 run_2 (Js.lit "record")
      = Some Completed
    ∧ last (sent w3) = Some req3
    ∧ Request.body req3 = Some body3
    ∧ EngineBody.context body3 = ContextArtifact.context stored
    ∧ EngineBody.intent body3 = None
    ∧ length (sent w3) = 3%nat.
Proof.
  vm_compute. eexists _, _, _, _, _, _.
  split; [reflexivity|]. split; [reflexivity|]. split; [reflexivity|].
  split; [reflexivity|]. split; [reflexivity|]. split; [reflexivity|].
  split; [reflexivity|]. split; [reflexivity|]. split; [reflexivity|].
  split; [reflexivity|]. split; [discriminate|].
  repeat split; reflexivity.
Qed.

Lemma world_replayable_has_keys :
  has_keys world_replayable (Js.lit "lt_key") (Js.lit "or_key")
    (Js.lit "exa_key").
Proof. exists env_text. vm_compute. repeat split; reflexivity. Defined.

(** * Further properties of the code *)

(** ** The artifact store and the ledger *)

Section more_runs_facts.
Context `{Host}.

(** X1: with a quiet storage layer and an existing run directory,
    [writeArtifact] under the name of an entry of the directory (a name
    that is not empty, neither [.] nor [..], without [/] and NUL, well
    formed and at most 255 bytes long) succeeds, and [readArtifact] of the
    same name gives back what the file then holds, also when the file
    existed before: the content written with each unpaired surrogate of a
    text replaced by U+FFFD, which is the content itself when it is a
    document or a well-formed text.  Every other entry of the run reads as
    before, and the directories of the other runs are as before. *)
Theorem writeArtifact_then_readArtifact w runId f c :
  io_faults w = [] → is_Some (runs_dir w !! runId) →
  Js.entry_name f = true →
  ∃ p w',
    Runs.writeArtifact runId f c w = (Ok p, w')
    ∧ Runs.readArtifact runId f w' = (Ok (Some (stored c)), w')
    ∧ (match c with Raw s => Js.well_formed s = true | Json _ => True end →
       Runs.readArtifact runId f w' = (Ok (Some c), w'))
    ∧ (∀ g, Js.entry_name g = true → g ≠ f →
         (Runs.readArtifact runId g w').1 = (Runs.readArtifact runId g w).1)
    ∧ (∀ r, r ≠ runId → runs_dir w' !! r = runs_dir w !! r).
Proof.
  intros Hq [d Hd] Hf. unfold Runs.writeArtifact, mbind, M_bind.
  rewrite (write_run_file_quiet _ _ _ _ d) by done.
  set (w' := with_runs _ w).
  assert (io_faults w' = []) as Hq' by done.
  assert (∀ r g, Runs.run_file w' r g = Runs.run_file w r g →
            (Runs.readArtifact r g w').1 = (Runs.readArtifact r g w).1) as Hrd.
  { intros r g Hg. unfold Runs.readArtifact, mbind, M_bind, get_world.
    rewrite Hg. destruct (Runs.run_file w r g); [|done].
    by rewrite !io_point_quiet. }
  assert (Runs.readArtifact runId f w' = (Ok (Some (stored c)), w')) as Hback.
  { apply readArtifact_quiet; [done|]. unfold Runs.run_file, w'. simpl.
    rewrite lookup_insert_eq. simpl. apply lookup_insert_eq. }
  eexists _, w'. split; [reflexivity|]. split; [done|]. split; [|split].
  - intros Hc. rewrite Hback. destruct c as [s|doc]; [|done]. simpl.
    apply bool_decide_eq_true in Hc. by rewrite Hc.
  - intros g _ Hg. apply Hrd. unfold Runs.run_file, w'. simpl.
    rewrite lookup_insert_eq, Hd. simpl. by rewrite lookup_insert_ne.
  - intros r Hr. unfold w'. simpl. by rewrite lookup_insert_ne.
Qed.

(** X2: [writeArtifact] never creates the run directory.  With a quiet
    storage layer and the name of an entry (as in X1), it succeeds exactly
    when the directory exists; without it the call throws and the world is
    as before. *)
Theorem writeArtifact_needs_run_directory w runId f c :
  io_faults w = [] →
  Js.entry_name f = true →
  ((∃ p w', Runs.writeArtifact runId f c w = (Ok p, w'))
   ↔ is_Some (runs_dir w !! runId))
  ∧ (runs_dir w !! runId = None →
     Runs.writeArtifact runId f c w = (Throw ENOENT, w)
     ∧ Runs.listArtifacts runId w = (Ok [], w)).
Proof.
  intros Hq Hf.
  assert (runs_dir w !! runId = None →
          Runs.writeArtifact runId f c w = (Throw ENOENT, w)) as Hnone.
  { intros Hd. unfold Runs.writeArtifact, Runs.write_run_file, mbind, M_bind,
      get_world. rewrite io_point_quiet by done. by rewrite Hf, Hd. }
  split; [split|].
  - intros (p & w' & Hw). destruct (runs_dir w !! runId) eqn:Hd; [eauto|].
    rewrite Hnone in Hw by done. done.
  - intros [d Hd]. unfold Runs.writeArtifact, mbind, M_bind.
    rewrite (write_run_file_quiet _ _ _ _ d) by done. eauto.
  - intros Hd. split; [by apply Hnone|].
    unfold Runs.listArtifacts, mbind, M_bind, get_world. by rewrite Hd.
Qed.

(** X3: on a run without a record, [updateStep] and [completeRun] do
    nothing at all: they return normally, create no record, leave every
    file as it is and do not read the clock, whatever the storage layer
    would do. *)
Theorem ledger_updates_skip_unknown_run w runId name st a echoId error :
  Runs.run_file w runId Runs.META = None →
  Runs.updateStep runId name st a w = (Ok (), w)
  ∧ Runs.completeRun runId echoId error w = (Ok (), w)
  ∧ Runs.readMeta runId w = (Ok None, w).
Proof.
  intros Hf. split; [by apply updateStep_unknown_run|].
  split; [by apply completeRun_unknown_run|].
  unfold Runs.readMeta, mbind, M_bind, get_world. by rewrite Hf.
Qed.

(** X4: [updateStep] with a step name the record does not hold changes
    nothing: no step is added, the record is not rewritten and the clock is
    not read. *)
Theorem updateStep_skips_unknown_step w runId name st a m :
  ledger_at w runId m →
  name ∉ StepMeta.name <$> RunMeta.steps m →
  Runs.updateStep runId name st a w = (Ok (), w).
Proof.
  intros Hl Hn. apply (updateStep_unknown_step w runId name st a m Hl).
  unfold find_step. destruct (List.find _ _) as [s|] eqn:E; [|done].
  apply find_some in E as [Hin Hs]. apply bool_decide_eq_true in Hs.
  exfalso. apply Hn. apply list_elem_of_fmap. exists s. split; [done|].
  by apply list_elem_of_In.
Qed.

End more_runs_facts.

Section more_ledger_facts.
Context `{Host}.

Lemma update_first_names name f steps steps' :
  (∀ s, StepMeta.name (f s) = StepMeta.name s) →
  Runs.update_first name f steps = Some steps' →
  StepMeta.name <$> steps' = StepMeta.name <$> steps.
Proof.
  intros Hf. revert steps'. induction steps as [|s steps IH]; intros steps';
    simpl; [done|].
  destruct (decide (StepMeta.name s = name)).
  - intros [= <-]. simpl. by rewrite Hf.
  - destruct (Runs.update_first name f steps) as [l|]; [|done].
    intros [= <-]. cbn. f_equal. by apply IH.
Qed.

Lemma find_step_elem_of name steps :
  is_Some (find_step name steps) ↔ name ∈ StepMeta.name <$> steps.
Proof.
  unfold find_step. induction steps as [|s steps IH]; simpl.
  - split; [intros [? ?]; done|]. intros ?%elem_of_nil. done.
  - rewrite bool_decide_decide. rewrite elem_of_cons.
    destruct (decide (StepMeta.name s = name)) as [->|Hn].
    + split; eauto.
    + rewrite IH. split; [by right|]. intros [->|?]; done.
Qed.

Lemma apply_update_found name st a t m :
  is_Some (find_step name (RunMeta.steps m)) →
  ∃ steps', Runs.update_first name (Runs.set_step st a t) (RunMeta.steps m)
            = Some steps'
    ∧ apply_update name st a t m = Runs.with_steps steps' m.
Proof.
  intros Hs. apply (update_first_is_Some name (Runs.set_step st a t)) in Hs.
  destruct Hs as [steps' Hs]. exists steps'. split; [done|].
  unfold apply_update. by rewrite Hs.
Qed.

(** X5: [updateStep] on a step of the record touches that step only.  The
    names of the steps and their order, every other step, and the fields
    of the run itself (identifier, status, times, echo, error) are as
    before, and so are the artifacts of the run and the other runs. *)
Theorem updateStep_touches_one_step w runId name st a m :
  ledger_at w runId m →
  name ∈ StepMeta.name <$> RunMeta.steps m →
  ∃ w' m',
    Runs.updateStep runId name st a w = (Ok (), w')
    ∧ Runs.readMeta runId w' = (Ok (Some m'), w')
    ∧ StepMeta.name <$> RunMeta.steps m' = StepMeta.name <$> RunMeta.steps m
    ∧ (∀ n, n ≠ name →
         find_step n (RunMeta.steps m') = find_step n (RunMeta.steps m))
    ∧ RunMeta.runId m' = RunMeta.runId m
    ∧ RunMeta.status m' = RunMeta.status m
    ∧ RunMeta.startedAt m' = RunMeta.startedAt m
    ∧ RunMeta.completedAt m' = RunMeta.completedAt m
    ∧ RunMeta.echoId m' = RunMeta.echoId m
    ∧ RunMeta.error m' = RunMeta.error m
    ∧ (∀ f, f ≠ Runs.META →
         Runs.run_file w' runId f = Runs.run_file w runId f)
    ∧ (∀ r, r ≠ runId → runs_dir w' !! r = runs_dir w !! r).
Proof.
  intros Hl Hn. apply find_step_elem_of in Hn.
  destruct (updateStep_known w runId name st a m Hl Hn)
    as (w' & Hu & [_ Hr] & _ & [Hfiles Hruns] & _).
  destruct (apply_update_found name st a (stamp w st) m Hn)
    as (steps' & Hs & Heq).
  exists w', (apply_update name st a (stamp w st) m).
  split; [done|]. split; [done|]. rewrite Heq. simpl.
  split; [by eapply update_first_names, Hs; intros; apply set_step_name|].
  split.
  { intros n Hne.
    rewrite (find_step_update_first name _ _ _ n
               (λ s, set_step_name st a (stamp w st) s) Hs).
    by rewrite decide_False. }
  by repeat split.
Qed.

(** X6: [updateStep] sets fields of a step and never clears one.  The
    start time changes only on [running], the completion time only on
    [completed] and [failed], the artifact name only when a non-empty name
    is passed; so a step that is started again keeps the completion time
    of its earlier end. *)
Theorem updateStep_never_clears_a_field w runId name st a m s :
  ledger_at w runId m →
  find_step name (RunMeta.steps m) = Some s →
  ∃ w' m' s',
    Runs.updateStep runId name st a w = (Ok (), w')
    ∧ Runs.readMeta runId w' = (Ok (Some m'), w')
    ∧ find_step name (RunMeta.steps m') = Some s'
    ∧ StepMeta.status s' = st
    ∧ StepMeta.startedAt s'
      = (if decide (st = Running) then Some (toISOString (ticks w))
         else StepMeta.startedAt s)
    ∧ StepMeta.completedAt s'
      = (if decide (st = Completed ∨ st = Failed)
         then Some (toISOString (ticks w)) else StepMeta.completedAt s)
    ∧ StepMeta.artifact s'
      = (if Js.truthy_opt a then a else StepMeta.artifact s)
    ∧ (is_Some (StepMeta.startedAt s) → is_Some (StepMeta.startedAt s'))
    ∧ (is_Some (StepMeta.completedAt s) → is_Some (StepMeta.completedAt s'))
    ∧ (is_Some (StepMeta.artifact s) → is_Some (StepMeta.artifact s')).
Proof.
  intros Hl Hs.
  assert (is_Some (find_step name (RunMeta.steps m))) as Hn by eauto.
  destruct (updateStep_known w runId name st a m Hl Hn)
    as (w' & Hu & [_ Hr] & _).
  destruct (apply_update_found name st a (stamp w st) m Hn)
    as (steps' & Hup & Heq).
  exists w', (apply_update name st a (stamp w st) m),
    (Runs.set_step st a (stamp w st) s).
  split; [done|]. split; [done|]. rewrite Heq. simpl.
  split.
  { rewrite (find_step_update_first name _ _ _ name
               (λ s, set_step_name st a (stamp w st) s) Hup).
    rewrite decide_True by done. by rewrite Hs. }
  unfold stamp.
  split; [done|].
  split; [by destruct st|].
  split; [by destruct st|].
  split; [done|].
  split; [destruct st; simpl; eauto|].
  split; [destruct st; simpl; eauto|].
  destruct (Js.truthy_opt a) eqn:Ha; [|done].
  intros _. destruct a; [eauto|done].
Qed.


End more_ledger_facts.

(** ** Sorting with a comparator, [listRuns] and [readEchoRefs] *)

Section more_listing_facts.
Context `{Host}.

Lemma insert_by_Permutation {A} (cmp : A → A → Z) x l :
  Memory.insert_by cmp x l ≡ₚ x :: l.
Proof.
  induction l as [|y l IH]; simpl; [done|].
  destruct (0 <? cmp x y)%Z; [|done].
  rewrite IH. apply Permutation_swap.
Qed.

Lemma sort_by_Permutation {A} (cmp : A → A → Z) l :
  Memory.sort_by cmp l ≡ₚ l.
Proof.
  unfold Memory.sort_by. induction l as [|x l IH]; simpl; [done|].
  by rewrite insert_by_Permutation, IH.
Qed.

Lemma insert_by_sorted {A} (cmp : A → A → Z) x l :
  consistent cmp →
  StronglySorted (λ a b, (cmp a b ≤ 0)%Z) l →
  StronglySorted (λ a b, (cmp a b ≤ 0)%Z) (Memory.insert_by cmp x l).
Proof.
  intros [Hanti Htrans]. induction 1 as [|y l Hs IH Hy]; simpl.
  - by repeat constructor.
  - destruct (0 <? cmp x y)%Z eqn:E.
    + apply Z.ltb_lt in E. constructor; [done|].
      rewrite insert_by_Permutation. constructor; [by apply Hanti|done].
    + apply Z.ltb_ge in E. constructor; [by constructor|].
      constructor; [done|].
      eapply Forall_impl; [exact Hy|]. intros z Hz. by eapply Htrans.
Qed.

Lemma sort_by_sorted {A} (cmp : A → A → Z) l :
  consistent cmp →
  StronglySorted (λ a b, (cmp a b ≤ 0)%Z) (Memory.sort_by cmp l).
Proof.
  intros Hc. unfold Memory.sort_by. induction l as [|x l IH]; simpl.
  - constructor.
  - by apply insert_by_sorted.
Qed.

Lemma consistent_newest {A} (key : A → str) :
  consistent localeCompare →
  consistent (λ a b : A, localeCompare (key b) (key a)).
Proof.
  intros [Hanti Htrans]. split.
  - intros a b. apply Hanti.
  - intros a b c Hab Hbc. by eapply Htrans.
Qed.

Lemma readMeta_record w r m :
  io_faults w = [] → record_of w r = Some m →
  Runs.readMeta r w = (Ok (Some m), w).
Proof.
  intros Hq Hr. unfold record_of, Runs.run_file in Hr.
  destruct (runs_dir w !! r) as [d|] eqn:Hd; [|done]. simpl in Hr.
  destruct (d !! Runs.META) as [[|[]]|] eqn:Hm; try done.
  simplify_eq. by eapply readMeta_stored.
Qed.

Lemma well_kept_record w r c :
  well_kept w → Runs.run_file w r Runs.META = Some c →
  ∃ m, c = Json (DMeta m).
Proof.
  unfold well_kept, Runs.run_file. intros Hk Hc.
  destruct (runs_dir w !! r) as [d|] eqn:Hd; [|done]. simpl in Hc.
  apply Is_true_true in Hk. rewrite forallb_forall in Hk.
  specialize (Hk (r, d)). simpl in Hk. rewrite Hc in Hk.
  destruct c as [|[]]; eauto; exfalso;
    (assert (false = true) as Hf; [|done]);
    apply Hk, list_elem_of_In, elem_of_map_to_list, Hd.
Qed.

Lemma read_runs_well_kept w : ∀ names runs,
  io_faults w = [] → well_kept w →
  read_runs names runs w = (Ok (runs ++ omap (record_of w) names), w).
Proof.
  intros names runs Hq Hk. revert runs.
  induction names as [|r names IH]; intros runs; simpl.
  - by rewrite app_nil_r.
  - destruct (record_of w r) as [m|] eqn:Hr.
    + rewrite (bind_ok _ _ _ _ _ (readMeta_record w r m Hq Hr)).
      rewrite IH. by rewrite <- app_assoc.
    + assert (Runs.readMeta r w = (Ok None, w)) as ->%(bind_ok _ _ _ _ _).
      { unfold record_of in Hr. unfold Runs.readMeta, mbind, M_bind, get_world.
        destruct (Runs.run_file w r Runs.META) as [c|] eqn:Hc; [|done].
        destruct (well_kept_record w r c Hk Hc) as [m ->]. done. }
      apply IH.
Qed.

Lemma elem_of_run_names w r :
  r ∈ (map_to_list (runs_dir w)).*1 ↔ is_Some (runs_dir w !! r).
Proof.
  rewrite list_elem_of_fmap. split.
  - intros [[r' d] [-> Hin]]. apply elem_of_map_to_list in Hin. eauto.
  - intros [d Hd]. exists (r, d). split; [done|]. by apply elem_of_map_to_list.
Qed.

(** X8: on a world whose records were all written by the code and whose
    storage layer is quiet, [listRuns(limit)] returns the first [limit]
    entries of a list that holds exactly the records of the runs, each run
    once, and that is sorted with the latest [startedAt] first when the
    comparison of the host is consistent.  So at most [limit] records come
    back, and they are the newest ones. *)
Theorem listRuns_newest_first w limit :
  io_faults w = [] → well_kept w → consistent localeCompare →
  ∃ all,
    listRuns limit w = (Ok (take limit all), w)
    ∧ (∀ m, m ∈ all ↔ ∃ r, record_of w r = Some m)
    ∧ all ≡ₚ omap (record_of w) (map_to_list (runs_dir w)).*1
    ∧ StronglySorted
        (λ a b, not_older (RunMeta.startedAt a) (RunMeta.startedAt b)) all
    ∧ (length (take limit all) ≤ limit)%nat.
Proof.
  intros Hq Hk Hc.
  set (all := Memory.sort_by newest_run_first
                (omap (record_of w) (map_to_list (runs_dir w)).*1)).
  assert (all ≡ₚ omap (record_of w) (map_to_list (runs_dir w)).*1) as Hperm
    by apply sort_by_Permutation.
  exists all. split; [|split; [|split; [done|split]]].
  - unfold listRuns, mbind at 1, M_bind at 1, get_world. unfold all.
    destruct ((map_to_list (runs_dir w)).*1) as [|r names'] eqn:En.
    { simpl. by rewrite take_nil. }
    rewrite (bind_ok _ _ _ _ _ (io_point_quiet w Hq)).
    rewrite (bind_ok _ _ _ _ _ (read_runs_well_kept w _ [] Hq Hk)).
    done.
  - intros m. rewrite Hperm, list_elem_of_omap. split.
    + intros (r & _ & Hr). eauto.
    + intros (r & Hr). exists r. split; [|done].
      apply elem_of_run_names. unfold record_of, Runs.run_file in Hr.
      destruct (runs_dir w !! r); [eauto|done].
  - apply (sort_by_sorted newest_run_first).
    by apply (consistent_newest RunMeta.startedAt).
  - rewrite length_take. lia.
Qed.

Lemma readMeta_quiet_world w r :
  io_faults w = [] → ∃ o, Runs.readMeta r w = (o, w).
Proof.
  intros Hq. unfold Runs.readMeta, mbind, M_bind, get_world.
  destruct (Runs.run_file w r Runs.META) as [c|]; [|eauto].
  rewrite (io_point_quiet w Hq).
  destruct (parse_meta_pure c) as [o ->]. destruct o; eauto.
Qed.

(** X9: [listRuns] has no [try]: one [meta.json] that [JSON.parse] rejects
    makes the whole listing throw, whatever the other runs hold. *)
Theorem listRuns_throws_on_unreadable_record w limit r text e :
  io_faults w = [] →
  Runs.run_file w r Runs.META = Some (Raw text) →
  parse_foreign_meta (Raw text) = Throw e →
  ∃ e' w', listRuns limit w = (Throw e', w').
Proof.
  intros Hq Hr He.
  assert (Runs.readMeta r w = (Throw e, w)) as Hread.
  { unfold Runs.readMeta, mbind, M_bind, get_world. rewrite Hr.
    rewrite (io_point_quiet w Hq). simpl. by rewrite He. }
  assert (∀ names runs, r ∈ names →
            ∃ e', read_runs names runs w = (Throw e', w)) as Hloop.
  { induction names as [|n names IH]; intros runs Hin.
    - by apply elem_of_nil in Hin.
    - simpl. destruct (decide (n = r)) as [->|Hn].
      + exists e. by rewrite (bind_throw _ _ _ _ _ Hread).
      + destruct (readMeta_quiet_world w n Hq) as [[o|e'] Ho].
        * rewrite (bind_ok _ _ _ _ _ Ho). apply IH.
          apply elem_of_cons in Hin as [?|?]; done.
        * exists e'. by rewrite (bind_throw _ _ _ _ _ Ho). }
  assert (r ∈ (map_to_list (runs_dir w)).*1) as Hin.
  { apply elem_of_run_names. unfold Runs.run_file in Hr.
    destruct (runs_dir w !! r); [eauto|done]. }
  unfold listRuns, mbind at 1, M_bind at 1, get_world.
  destruct ((map_to_list (runs_dir w)).*1) as [|n names] eqn:En.
  { by apply elem_of_nil in Hin. }
  rewrite (bind_ok _ _ _ _ _ (io_point_quiet w Hq)).
  destruct (Hloop (n :: names) [] Hin) as [e' He'].
  exists e', w. by rewrite (bind_throw _ _ _ _ _ He').
Qed.

End more_listing_facts.

Section more_catalog_listing.
Context `{Host}.

Lemma omap_length_le {A B} (f : A → option B) l :
  (length (omap f l) ≤ length l)%nat.
Proof.
  induction l as [|x l IH]; [done|]. csimpl. destruct (f x); csimpl; lia.
Qed.

(** The loop of [readEchoRefs] with a quiet storage layer. *)
Lemma read_files_entries d files : ∀ refs w,
  io_faults w = [] →
  Memory.read_files d files refs w
  = (refs ++ omap (listed_entry w d) files, w).
Proof.
  induction files as [|[file c] files IH]; intros refs w Hq; simpl.
  - by rewrite app_nil_r.
  - unfold listed_entry at 1. simpl.
    destruct (Js.ends_with (Js.lit ".md") file); simpl; [|by apply IH].
    rewrite (io_point_quiet w Hq).
    destruct (Memory.parse_echo_file c) as [r|]; simpl; [|by apply IH].
    rewrite IH by done. by rewrite <- app_assoc.
Qed.

Lemma parseEchoRef_Some text r :
  Memory.parseEchoRef text = Some r →
  Js.truthy (EchoRef.echoId r) = true
  ∧ Js.truthy (EchoRef.privateKey r) = true
  ∧ EchoRef.jsonPath r = None.
Proof.
  unfold Memory.parseEchoRef.
  destruct (Js.match_frontmatter text) as [fm|]; [|done].
  destruct (Js.truthy (Memory.get fm (Js.lit "echoId"))) eqn:Hid;
    [|done].
  destruct (Js.truthy (Memory.get fm (Js.lit "privateKey"))) eqn:Hpk;
    [|done].
  cbn [negb orb]. intros [= <-]. done.
Qed.

Lemma listed_entry_Some w d fc r :
  listed_entry w d fc = Some r ↔
  ∃ text r0, fc.2 = Raw text ∧ Js.ends_with (Js.lit ".md") fc.1
             ∧ Memory.parseEchoRef text = Some r0 ∧ r = listed w d r0.
Proof.
  destruct fc as [file c]. unfold listed_entry. simpl. split.
  - destruct (Js.ends_with (Js.lit ".md") file) eqn:Hmd; [|done].
    destruct c as [text|]; [|done]. simpl.
    destruct (Memory.parseEchoRef text) as [r0|] eqn:Hp; [|done].
    intros [= <-]. by exists text, r0.
  - intros (text & r0 & -> & Hmd & Hp & ->).
    destruct (Js.ends_with (Js.lit ".md") file); [|done]. simpl.
    by rewrite Hp.
Qed.

Lemma listed_fields w d r0 :
  EchoRef.echoId (listed w d r0) = EchoRef.echoId r0
  ∧ EchoRef.privateKey (listed w d r0) = EchoRef.privateKey r0.
Proof. unfold listed. by destruct (Memory.echo_file_exists _ _ _). Qed.

Lemma ensureEchoesDir_existing w d :
  io_faults w = [] → echoes w = Some d →
  Memory.ensureEchoesDir w = (Ok (), w).
Proof.
  intros Hq Hd. unfold Memory.ensureEchoesDir.
  rewrite (bind_ok _ _ _ _ _ (io_point_quiet w Hq)).
  unfold set_world, with_echoes. rewrite Hd. destruct w; simpl in *.
  by subst.
Qed.

(** The listing of [readEchoRefs] with a quiet storage layer, as a
    function of the directory. *)
Lemma readEchoRefs_listing w :
  io_faults w = [] →
  ∃ w1 d,
    echoes w1 = Some d ∧ d = default ∅ (echoes w)
    ∧ (is_Some (echoes w) → w1 = w)
    ∧ Memory.readEchoRefs w
      = (Ok (Memory.sort_by Memory.newest_first
               (omap (listed_entry w1 d) (map_to_list d))), w1).
Proof.
  intros Hq.
  set (w1 := with_echoes (λ e, match e with
                               | Some d => Some d
                               | None => Some ∅
                               end) w).
  assert (io_faults w1 = []) as Hq1 by done.
  assert (echoes w1 = Some (default ∅ (echoes w))) as Hd1.
  { unfold w1. simpl. by destruct (echoes w). }
  exists w1, (default ∅ (echoes w)). split; [done|]. split; [done|]. split.
  { intros [d Hd]. unfold w1, with_echoes. rewrite Hd.
    destruct w; simpl in *. by subst. }
  unfold Memory.readEchoRefs, Memory.ensureEchoesDir.
  rewrite (bind_ok _ _ _ _ _ (bind_ok _ _ _ _ _ (io_point_quiet w Hq))).
  unfold set_world. fold w1. unfold mbind, M_bind, get_world.
  rewrite Hd1. unfold Memory.read_dir. rewrite (io_point_quiet w1 Hq1).
  by rewrite (read_files_entries _ _ [] w1 Hq1).
Qed.

(** X10: with a quiet storage layer, [readEchoRefs] lists the files of
    [echoes/] whose name ends in [.md] and whose text [parseEchoRef]
    accepts, each once: the list is a permutation of the references of
    those entries, one for each entry, so that two files with the same
    text give the same reference twice and no file is listed twice.  A
    reference whose identifier makes [{echoId}.json] the name of an entry
    carries a [jsonPath] exactly when that entry exists.  The list is
    sorted with the latest [updatedAt] first when the comparison of the
    host is consistent, and the world is left as it is. *)
Theorem readEchoRefs_lists_parsable_files w d :
  io_faults w = [] → echoes w = Some d → consistent localeCompare →
  ∃ refs,
    Memory.readEchoRefs w = (Ok refs, w)
    ∧ refs ≡ₚ omap (listed_entry w d) (map_to_list d)
    ∧ (∀ r, r ∈ refs ↔
         ∃ file text r0,
           d !! file = Some (Raw text)
           ∧ Js.ends_with (Js.lit ".md") file
           ∧ Memory.parseEchoRef text = Some r0
           ∧ r = listed w d r0)
    ∧ (∀ r, r ∈ refs → names_dataset_file (EchoRef.echoId r) →
         is_Some (EchoRef.jsonPath r)
         ↔ is_Some (d !! Memory.json_name (EchoRef.echoId r)))
    ∧ StronglySorted
        (λ a b, not_older (EchoRef.updatedAt a) (EchoRef.updatedAt b)) refs
    ∧ (length refs ≤ size d)%nat.
Proof.
  intros Hq Hd Hc.
  set (refs := Memory.sort_by Memory.newest_first
                 (omap (listed_entry w d) (map_to_list d))).
  assert (refs ≡ₚ omap (listed_entry w d) (map_to_list d)) as Hperm
    by apply sort_by_Permutation.
  assert (∀ r, r ∈ refs ↔
            ∃ file text r0,
              d !! file = Some (Raw text)
              ∧ Js.ends_with (Js.lit ".md") file
              ∧ Memory.parseEchoRef text = Some r0
              ∧ r = listed w d r0) as Hmem.
  { intros r. rewrite Hperm, list_elem_of_omap. split.
    - intros ([file c] & Hin & He). apply elem_of_map_to_list in Hin.
      apply listed_entry_Some in He as (text & r0 & Hc' & Hmd & Hp & ->).
      simpl in *. subst c. by exists file, text, r0.
    - intros (file & text & r0 & Hf & Hmd & Hp & ->).
      exists (file, Raw text). split; [by apply elem_of_map_to_list|].
      apply listed_entry_Some. by exists text, r0. }
  exists refs. split; [|split; [done|split; [done|split; [|split]]]].
  - destruct (readEchoRefs_listing w Hq) as (w1 & d1 & _ & Hd1 & Hw1 & Hr).
    rewrite Hd in Hd1. simpl in Hd1. subst d1.
    rewrite Hw1 in Hr by (by rewrite Hd). exact Hr.
  - intros r (file & text & r0 & _ & _ & Hp & ->)%Hmem Hname.
    apply parseEchoRef_Some in Hp as (_ & _ & Hnone).
    rewrite (proj1 (listed_fields w d r0)) in Hname |- *.
    unfold listed, Memory.echo_file_exists. rewrite Hname.
    case_bool_decide as Hj; simpl.
    + split; eauto.
    + rewrite Hnone. split; [by intros [? ?]|done].
  - apply (sort_by_sorted Memory.newest_first).
    by apply (consistent_newest EchoRef.updatedAt).
  - rewrite Hperm, <- length_map_to_list. apply omap_length_le.
Qed.

(** X11: [readEchoRefs] creates [echoes/] when it is missing, and once
    that [mkdirSync] has passed, nothing makes it throw: a fault of
    [readdirSync] or of a [readFileSync] ends the scan, and the call
    returns a list. *)
Theorem readEchoRefs_survives_scan_faults w faults :
  io_faults w = [] ∨ io_faults w = None :: faults →
  ∃ refs w',
    Memory.readEchoRefs w = (Ok refs, w')
    ∧ is_Some (echoes w')
    ∧ (echoes w = None → refs = [] ∧ echoes w' = Some ∅)
    ∧ runs_dir w' = runs_dir w.
Proof.
  intros Hf.
  assert (∃ w1, io_point w = (Ok (), w1) ∧ echoes w1 = echoes w
                ∧ runs_dir w1 = runs_dir w) as (w1 & Hio & He1 & Hr1).
  { destruct Hf as [Hq|Hq].
    - exists w. by rewrite io_point_quiet.
    - eexists. unfold io_point. rewrite Hq. done. }
  assert (∀ d files refs v, ∃ refs' v',
            Memory.read_files d files refs v = (refs', v')
            ∧ echoes v' = echoes v ∧ runs_dir v' = runs_dir v) as Hscan.
  { intros d files. induction files as [|[file c] files IH];
      intros refs v; simpl; [by eexists _, _|].
    destruct (negb _); [apply IH|].
    unfold io_point. destruct (io_faults v) as [|[e|] rest].
    - destruct (Memory.parse_echo_file c); apply IH.
    - by eexists _, _.
    - destruct (Memory.parse_echo_file c);
        match goal with
        | |- context [Memory.read_files d files ?l ?v0] =>
            destruct (IH l v0) as (refs' & v' & -> & ? & ?)
        end; by eexists _, _. }
  unfold Memory.readEchoRefs, Memory.ensureEchoesDir.
  rewrite (bind_ok _ _ _ _ _ (bind_ok _ _ _ _ _ Hio)).
  unfold set_world, mbind, M_bind, get_world. simpl. rewrite He1.
  destruct (echoes w) as [d|] eqn:Hd.
  - unfold Memory.read_dir, io_point. simpl.
    destruct (io_faults w1) as [|[e|] rest].
    + match goal with
      | |- context [Memory.read_files d ?fs ?l ?v0] =>
          destruct (Hscan d fs l v0) as (refs' & v' & -> & He & Hr)
      end.
      eexists _, _. split; [done|]. simpl in *. rewrite He1 in He.
      rewrite He, Hr. split; [by eexists|]. split; [by intros ?|done].
    + eexists _, _. split; [done|]. simpl. rewrite He1.
      split; [by eexists|].
      split; [by intros ?|done].
    + match goal with
      | |- context [Memory.read_files d ?fs ?l ?v0] =>
          destruct (Hscan d fs l v0) as (refs' & v' & -> & He & Hr)
      end.
      eexists _, _. split; [done|]. simpl in *. rewrite He1 in He.
      rewrite He, Hr. split; [by eexists|]. split; [by intros ?|done].
  - unfold Memory.read_dir, io_point. simpl.
    destruct (io_faults w1) as [|[e|] rest]; simpl;
      rewrite ?map_to_list_empty; simpl;
      eexists _, _; (split; [done|]); simpl; rewrite He1;
      (split; [by eexists|]); done.
Qed.

End more_catalog_listing.

(** ** The catalog files read back *)

Section more_written_files.
Context `{Host}.

Lemma trim_start_head s c t :
  Js.trim_start s = c :: t → Js.is_space c = false.
Proof.
  induction s as [|x s IH]; simpl; [done|].
  destruct (Js.is_space x) eqn:E; [done|]. by intros [= <- _].
Qed.

Lemma trim_first_not_space s c t :
  Js.trim s = c :: t → Js.is_space c = false.
Proof.
  unfold Js.trim. destruct (Js.trim_start s) as [|c' u] eqn:Hu; [done|].
  pose proof (trim_start_head _ _ _ Hu) as Hc'. simpl.
  destruct (trim_start_snoc (rev u) c' Hc') as [t' ->].
  rewrite rev_app_distr. simpl. by intros [= <- _].
Qed.

Lemma plain_spec v :
  plain v →
  single_line v ∧ Js.trim (Js.strip_outer_quotes v) = v
  ∧ ∃ c v', v = c :: v' ∧ Js.is_space c = false.
Proof.
  unfold plain. rewrite !andb_True. intros [[[Hne Hl] Ht] Hs].
  apply bool_decide_unpack in Ht, Hs. split; [|split].
  - apply Forall_forall. intros c Hc. apply Is_true_true in Hl.
    rewrite forallb_forall in Hl. apply list_elem_of_In in Hc.
    specialize (Hl c Hc). by destruct (Js.is_line_terminator c).
  - by rewrite Hs.
  - destruct v as [|c v']; [done|]. exists c, v'. split; [done|].
    by eapply trim_first_not_space.
Qed.

Lemma spaces_then_value_plain v s :
  plain v → s = [] ∨ (∃ r, s = Js.LF :: r) →
  Js.spaces_then_value ((32 :: v) ++ s) = Some v.
Proof.
  intros (Hl & _ & c & v' & -> & Hc)%plain_spec Hs.
  cbn [app Js.spaces_then_value]. change (Js.is_space 32) with true.
  cbv iota. rewrite Hc. unfold Js.dot_plus_eol.
  assert (Js.dot_run (c :: v' ++ s) = c :: v') as ->; [|done].
  destruct Hs as [->|[r ->]].
  - rewrite app_nil_r. by apply dot_run_last.
  - by apply (dot_run_line (c :: v')).
Qed.

Lemma plain_title_spec t :
  plain_title t →
  single_line t ∧ Js.escape_quotes t = t ∧ Js.trim t = t.
Proof.
  unfold plain_title. rewrite andb_True. intros [Hl Ht].
  apply bool_decide_unpack in Ht. split; [|split; [|done]].
  - apply Forall_forall. intros c Hc. apply Is_true_true in Hl.
    rewrite forallb_forall in Hl. apply list_elem_of_In in Hc.
    specialize (Hl c Hc). by destruct (Js.is_line_terminator c).
  - clear Ht. induction t as [|c t IH]; simpl; [done|].
    simpl in Hl. rewrite andb_True in Hl. destruct Hl as [Hc Hl].
    rewrite andb_True in Hc. destruct Hc as [_ Hq].
    destruct (c =? Js.DQUOTE); [done|]. by rewrite IH.
Qed.

Lemma plain_fields_single_line ref :
  plain_fields ref → single_line_fields ref.
Proof.
  unfold plain_fields. rewrite !andb_True.
  intros [[[[[Hid Hpk] Ht] Hst] Hc] Hu].
  repeat split;
    first [ by apply plain_spec | by apply plain_title_spec ].
Qed.

Ltac skip_line :=
  rewrite match_key_pass_line;
    [ | repeat (apply single_line_app; split);
        first [ assumption | by apply single_line_lit
              | by apply single_line_escape | repeat constructor ]
      | by intros ?%(f_equal length)
      | reflexivity ].

Ltac this_line key v :=
  match goal with
  | |- context [Js.match_key_from _ true ((?l) ++ ?s)] =>
      change l with (Js.lit key ++ Js.lit ":" ++ (32 :: v))
  end;
  erewrite match_key_this_line;
    [ | apply spaces_then_value_plain; [done | eauto] ].

(** The five unquoted fields of a written header read back. *)
Lemma get_plain_fields_written ref b :
  plain_fields ref →
  Memory.get (header_text ref b) (Js.lit "echoId") = EchoRef.echoId ref
  ∧ Memory.get (header_text ref b) (Js.lit "privateKey")
    = EchoRef.privateKey ref
  ∧ Memory.get (header_text ref b) (Js.lit "status") = EchoRef.status ref
  ∧ Memory.get (header_text ref b) (Js.lit "createdAt")
    = EchoRef.createdAt ref
  ∧ Memory.get (header_text ref b) (Js.lit "updatedAt")
    = EchoRef.updatedAt ref.
Proof.
  intros Hp. pose proof (plain_fields_single_line ref Hp)
    as (Hid & Hpk & Ht & Hst & Hc & Hu).
  unfold plain_fields in Hp. rewrite !andb_True in Hp.
  destruct Hp as [[[[[Pid Ppk] Pt] Pst] Pc] Pu].
  destruct (header_text_lines ref b) as (tail & -> & Htail).
  unfold Memory.get, Js.match_key.
  repeat split.
  - this_line "echoId"%string (EchoRef.echoId ref).
    by apply plain_spec.
  - do 1 skip_line. this_line "privateKey"%string (EchoRef.privateKey ref).
    by apply plain_spec.
  - do 3 skip_line. this_line "status"%string (EchoRef.status ref).
    by apply plain_spec.
  - do 4 skip_line. this_line "createdAt"%string (EchoRef.createdAt ref).
    by apply plain_spec.
  - do 5 skip_line. this_line "updatedAt"%string (EchoRef.updatedAt ref).
    by apply plain_spec.
Qed.

Lemma parseEchoRef_written_plain ref b :
  plain_fields ref →
  ∃ r,
    Memory.parseEchoRef (Memory.echo_file_text ref b) = Some r
    ∧ EchoRef.echoId r = EchoRef.echoId ref
    ∧ EchoRef.privateKey r = EchoRef.privateKey ref
    ∧ EchoRef.title r = EchoRef.title ref
    ∧ EchoRef.status r = EchoRef.status ref
    ∧ EchoRef.createdAt r = EchoRef.createdAt ref
    ∧ EchoRef.updatedAt r = EchoRef.updatedAt ref
    ∧ EchoRef.jsonPath r = None.
Proof.
  intros Hp. pose proof (plain_fields_single_line ref Hp) as Hf.
  destruct (get_plain_fields_written ref b Hp)
    as (Gid & Gpk & Gst & Gc & Gu).
  pose proof (get_title_written ref b Hf) as Gt.
  assert (plain (EchoRef.echoId ref) ∧ plain (EchoRef.privateKey ref)
          ∧ plain_title (EchoRef.title ref) ∧ plain (EchoRef.status ref))
    as (Pid & Ppk & Pt & Pst).
  { unfold plain_fields in Hp. rewrite !andb_True in Hp.
    by destruct Hp as [[[[[? ?] ?] ?] ?] ?]. }
  apply plain_title_spec in Pt as (_ & Hesc & Htrim).
  rewrite Hesc, Htrim in Gt.
  unfold Memory.parseEchoRef.
  rewrite (match_frontmatter_written ref b Hf).
  rewrite Gid, Gpk, Gt, Gst, Gc, Gu.
  apply plain_spec in Pid as (_ & _ & ? & ? & -> & _).
  apply plain_spec in Ppk as (_ & _ & ? & ? & -> & _).
  apply plain_spec in Pst as (_ & _ & ? & ? & -> & _).
  cbn [Js.truthy negb orb Memory.or_else].
  eexists. split; [reflexivity|]. by repeat split.
Qed.

(** X12: a reference whose header values are plain (one line, not empty,
    untouched by [trim], no double quote at an end; for the title: no
    double quote at all, and it may be empty) reads back from the file
    [writeEchoRef] writes for it: [parseEchoRef] accepts the text and
    returns the six header fields as they were, with or without the
    dataset line. *)
Theorem parseEchoRef_reads_back_plain_fields ref b :
  plain_fields ref →
  ∃ r,
    Memory.parseEchoRef (Memory.echo_file_text ref b) = Some r
    ∧ EchoRef.echoId r = EchoRef.echoId ref
    ∧ EchoRef.privateKey r = EchoRef.privateKey ref
    ∧ EchoRef.title r = EchoRef.title ref
    ∧ EchoRef.status r = EchoRef.status ref
    ∧ EchoRef.createdAt r = EchoRef.createdAt ref
    ∧ EchoRef.updatedAt r = EchoRef.updatedAt ref.
Proof.
  intros Hp.
  destruct (parseEchoRef_written_plain ref b Hp)
    as (r & Hr & ? & ? & ? & ? & ? & ? & _).
  exists r. by repeat split.
Qed.

End more_written_files.

Section more_body_facts.
Context `{Host}.

Lemma starts_with_dashes_app t x :
  Js.starts_with (Js.lit "---") t = false →
  Js.starts_with (Js.lit "---") (t ++ Js.LF :: x) = false.
Proof.
  change (Js.lit "---") with [45; 45; 45]. unfold Js.starts_with.
  destruct t as [|a [|b [|c t]]]; cbn [Js.strip_prefix app];
    change (45 =? Js.LF) with false; cbv iota;
    repeat match goal with
           | |- context [45 =? ?v] => destruct (45 =? v)
           end; done.
Qed.

Lemma index_of_dashes h s :
  Js.includes (Js.lit "---") h = false →
  Js.index_of (Js.lit "---") (h ++ Js.LF :: Js.lit "---" ++ s)
  = Z.of_nat (S (length h)).
Proof.
  induction h as [|c h IH]; intros Hi.
  - reflexivity.
  - cbn [Js.includes] in Hi. apply orb_false_elim in Hi as [Hc Hh].
    cbn [app Js.index_of length].
    change (c :: h ++ Js.LF :: Js.lit "---" ++ s)
      with ((c :: h) ++ Js.LF :: Js.lit "---" ++ s).
    rewrite (starts_with_dashes_app (c :: h)) by done.
    cbn [app]. rewrite IH by done.
    destruct (Z.of_nat (S (length h)) <? 0)%Z eqn:E; [|lia].
    apply Z.ltb_lt in E. lia.
Qed.

Lemma trim_start_snoc_space l c :
  Js.is_space c = true →
  Js.trim_start (l ++ [c])
  = match Js.trim_start l with [] => [] | t => t ++ [c] end.
Proof.
  intros Hc. induction l as [|x l IH]; simpl.
  - by rewrite Hc.
  - destruct (Js.is_space x); [done|]. done.
Qed.

Lemma trim_between_line_feeds md :
  Js.trim (Js.LF :: md ++ [Js.LF]) = Js.trim md.
Proof.
  unfold Js.trim. cbn [Js.trim_start]. change (Js.is_space Js.LF) with true.
  cbv iota. rewrite trim_start_snoc_space by done.
  destruct (Js.trim_start md) as [|c t]; [done|].
  rewrite rev_app_distr. cbn [rev app Js.trim_start].
  by change (Js.is_space Js.LF) with true.
Qed.

(** The text [parseEchoRef] takes as the body of a file laid out as
    [writeEchoRef] does, when the header holds no [---]. *)
Lemma body_after_header h tail :
  Js.includes (Js.lit "---") h = false →
  let content := (Js.lit "---" ++ [Js.LF]) ++ h
                 ++ (Js.LF :: Js.lit "---") ++ Js.LF :: tail in
  let bodyStart := Js.index_of_from (Js.lit "---") content 4 in
  bodyStart ≠ (-1)%Z
  ∧ Js.slice_from
      (Js.index_of_from [Js.LF] content (Z.to_nat bodyStart) + 1)%Z content
    = tail.
Proof.
  intros Hi content bodyStart.
  assert (length content = (length h + 9 + length tail)%nat) as Hlen.
  { unfold content. rewrite !length_app. simpl. lia. }
  assert (bodyStart = Z.of_nat (length h + 5)) as Hb.
  { unfold bodyStart, Js.index_of_from. rewrite decide_True by lia.
    change (drop 4 content)
      with (h ++ Js.LF :: Js.lit "---" ++ Js.LF :: tail).
    rewrite index_of_dashes by done.
    destruct (Z.of_nat (S (length h)) <? 0)%Z eqn:E; [|lia].
    apply Z.ltb_lt in E. lia. }
  split; [lia|]. rewrite Hb, Nat2Z.id.
  unfold Js.index_of_from. rewrite decide_True by lia.
  assert (drop (length h + 5) content = Js.lit "---" ++ Js.LF :: tail)
    as ->.
  { unfold content.
    change ((Js.lit "---" ++ [Js.LF]) ++ h
            ++ (Js.LF :: Js.lit "---") ++ Js.LF :: tail)
      with (Js.lit "---" ++ [Js.LF] ++ h
            ++ [Js.LF] ++ Js.lit "---" ++ Js.LF :: tail).
    rewrite !app_assoc. rewrite <- (app_assoc _ (Js.lit "---")).
    apply drop_app_length'. rewrite !length_app. simpl. lia. }
  change (Js.index_of [Js.LF] (Js.lit "---" ++ Js.LF :: tail)) with 3%Z.
  cbv iota beta. simpl Z.ltb. cbv iota.
  unfold Js.slice_from.
  replace (Z.to_nat (3 + Z.of_nat (length h + 5) + 1))
    with (length h + 9)%nat by lia.
  unfold content.
  change ((Js.lit "---" ++ [Js.LF]) ++ h
          ++ (Js.LF :: Js.lit "---") ++ Js.LF :: tail)
    with (Js.lit "---" ++ [Js.LF] ++ h
          ++ [Js.LF] ++ Js.lit "---" ++ [Js.LF] ++ tail).
  rewrite !app_assoc.
  apply drop_app_length'. rewrite !length_app. simpl. lia.
Qed.

Lemma echo_file_text_body ref b :
  Memory.echo_file_text ref b
  = (Js.lit "---" ++ [Js.LF]) ++ header_text ref b
    ++ (Js.LF :: Js.lit "---") ++ Js.LF ::
       (if Js.truthy (EchoRef.markdown ref)
        then Js.LF :: EchoRef.markdown ref ++ [Js.LF] else []).
Proof.
  unfold Memory.echo_file_text, Memory.frontmatter, header_text,
    Memory.field_lines.
  destruct (Js.truthy (EchoRef.markdown ref));
    destruct b; cbn [Js.join app];
    repeat (rewrite <- !app_assoc; cbn [app]); reflexivity.
Qed.

(** X13: the body reads back trimmed.  For a reference with plain header
    values whose header block holds no [---], [parseEchoRef] of the file
    written for it returns the markdown of the reference without the white
    space at its two ends. *)
Theorem parseEchoRef_reads_back_trimmed_body ref b :
  plain_fields ref →
  Js.includes (Js.lit "---") (header_text ref b) = false →
  ∃ r,
    Memory.parseEchoRef (Memory.echo_file_text ref b) = Some r
    ∧ EchoRef.markdown r = Js.trim (EchoRef.markdown ref).
Proof.
  intros Hp Hi. pose proof (plain_fields_single_line ref Hp) as Hf.
  destruct (get_plain_fields_written ref b Hp) as (Gid & Gpk & _).
  assert (plain (EchoRef.echoId ref) ∧ plain (EchoRef.privateKey ref))
    as (Pid & Ppk).
  { unfold plain_fields in Hp. rewrite !andb_True in Hp.
    by destruct Hp as [[[[[? ?] ?] ?] ?] ?]. }
  unfold Memory.parseEchoRef.
  rewrite (match_frontmatter_written ref b Hf). rewrite Gid, Gpk.
  apply plain_spec in Pid as (_ & _ & ? & ? & -> & _).
  apply plain_spec in Ppk as (_ & _ & ? & ? & -> & _).
  cbn [Js.truthy negb orb].
  rewrite echo_file_text_body.
  destruct (body_after_header (header_text ref b)
              (if Js.truthy (EchoRef.markdown ref)
               then Js.LF :: EchoRef.markdown ref ++ [Js.LF] else []) Hi)
    as [Hb Hslice].
  rewrite decide_True by exact Hb. rewrite Hslice.
  eexists. split; [reflexivity|]. simpl.
  destruct (EchoRef.markdown ref) as [|c md] eqn:Hmd; [done|].
  cbn [Js.truthy]. apply trim_between_line_feeds.
Qed.

End more_body_facts.

Section more_catalog_round_trip.
Context `{Host}.

Lemma stored_well_formed s :
  Js.well_formed s = true → stored (Raw s) = Raw s.
Proof. intros Hs%bool_decide_eq_true. simpl. by rewrite Hs. Qed.

Lemma writeEchoRef_quiet w ref dataset :
  io_faults w = [] →
  names_echo_file (EchoRef.echoId ref) →
  (Memory.truthy_json_opt dataset → names_dataset_file (EchoRef.echoId ref)) →
  Memory.writeEchoRef ref dataset w
  = (Ok (),
     with_echoes (λ e, Some (after_write ref dataset (default ∅ e))) w).
Proof.
  intros Hq Hmd Hjs. unfold Memory.writeEchoRef.
  set (d0 := default ∅ (echoes w)).
  assert (Memory.ensureEchoesDir w
          = (Ok (), with_echoes (λ _, Some d0) w)) as H0.
  { unfold Memory.ensureEchoesDir.
    rewrite (bind_ok _ _ _ _ _ (io_point_quiet w Hq)).
    unfold set_world, with_echoes, d0. by destruct (echoes w). }
  rewrite (bind_ok _ _ _ _ _ H0).
  set (d1 := <[Memory.md_name (EchoRef.echoId ref) :=
                 stored (Raw (Memory.echo_file_text ref
                                (Memory.truthy_json_opt dataset)))]> d0).
  assert (∀ name c d, Js.entry_name name = true →
            Memory.write_echo_file name c (with_echoes (λ _, Some d) w)
            = (Ok (), with_echoes (λ _, Some (<[name := stored c]> d)) w))
    as Hw.
  { intros name c d Hn. by rewrite write_echo_file_quiet. }
  rewrite (bind_ok _ _ _ _ _ (Hw _ _ d0 Hmd)).
  unfold after_write. fold d0. fold d1.
  destruct dataset as [v|]; [|done]. simpl in Hjs.
  destruct (Memory.truthy_json v); [|done].
  by rewrite Hw by (by apply Hjs).
Qed.

Lemma ends_with_md id : Js.ends_with (Js.lit ".md") (Memory.md_name id).
Proof.
  unfold Js.ends_with, Memory.md_name, Js.starts_with.
  rewrite rev_app_distr. by rewrite strip_prefix_app.
Qed.

Lemma md_name_neq_json_name id id' :
  Memory.md_name id ≠ Memory.json_name id'.
Proof.
  unfold Memory.md_name, Memory.json_name. intros Heq.
  apply (f_equal (@rev N)) in Heq. rewrite !rev_app_distr in Heq.
  discriminate Heq.
Qed.

(** X14: [writeEchoRef(ref, dataset)] and then [readEchoRefs], with a
    quiet storage layer.  The reference has plain header values, its
    identifier makes [{echoId}.md] and [{echoId}.json] names of entries of
    [echoes/] (no [/], no NUL, well formed, not too long), and the text of
    its file is well formed.  Then the file [{echoId}.md] of [echoes/]
    holds that text, and [readEchoRefs] lists a reference with the same six
    header fields.  It carries a [jsonPath] exactly when a non-empty
    dataset was written with it or a companion file of an earlier write
    was still in [echoes/]. *)
Theorem writeEchoRef_then_readEchoRefs w ref dataset :
  io_faults w = [] → plain_fields ref →
  names_echo_file (EchoRef.echoId ref) →
  names_dataset_file (EchoRef.echoId ref) →
  Js.well_formed (Memory.echo_file_text ref (Memory.truthy_json_opt dataset))
  = true →
  ∃ refs w' d' r,
    (Memory.writeEchoRef ref dataset;; Memory.readEchoRefs) w = (Ok refs, w')
    ∧ echoes w' = Some d'
    ∧ d' !! Memory.md_name (EchoRef.echoId ref)
      = Some (Raw (Memory.echo_file_text ref
                     (Memory.truthy_json_opt dataset)))
    ∧ r ∈ refs
    ∧ EchoRef.echoId r = EchoRef.echoId ref
    ∧ EchoRef.privateKey r = EchoRef.privateKey ref
    ∧ EchoRef.title r = EchoRef.title ref
    ∧ EchoRef.status r = EchoRef.status ref
    ∧ EchoRef.createdAt r = EchoRef.createdAt ref
    ∧ EchoRef.updatedAt r = EchoRef.updatedAt ref
    ∧ (is_Some (EchoRef.jsonPath r)
       ↔ Memory.truthy_json_opt dataset
         ∨ is_Some (default ∅ (echoes w)
                    !! Memory.json_name (EchoRef.echoId ref))).
Proof.
  intros Hq Hp Hmdn Hjsn Hwf.
  set (d := after_write ref dataset (default ∅ (echoes w))).
  set (w1 := with_echoes (λ e, Some (after_write ref dataset (default ∅ e)))
               w).
  assert (io_faults w1 = []) as Hq1 by done.
  assert (echoes w1 = Some d) as Hd1 by done.
  destruct (parseEchoRef_written_plain ref (Memory.truthy_json_opt dataset)
              Hp) as (r0 & Hr0 & Eid & Epk & Et & Est & Ec & Eu & Ej).
  assert (d !! Memory.md_name (EchoRef.echoId ref)
          = Some (Raw (Memory.echo_file_text ref
                         (Memory.truthy_json_opt dataset)))) as Hmd.
  { unfold d, after_write. rewrite (stored_well_formed _ Hwf).
    destruct dataset as [v|]; [destruct (Memory.truthy_json v)|];
      rewrite ?lookup_insert_ne by (apply not_eq_sym, md_name_neq_json_name);
      apply lookup_insert_eq. }
  assert (is_Some (d !! Memory.json_name (EchoRef.echoId ref))
          ↔ Memory.truthy_json_opt dataset
            ∨ is_Some (default ∅ (echoes w)
                       !! Memory.json_name (EchoRef.echoId ref))) as Hjson.
  { unfold d, after_write.
    destruct dataset as [v|]; simpl; [destruct (Memory.truthy_json v)|].
    - rewrite lookup_insert_eq. split; [by left|eauto].
    - rewrite lookup_insert_ne by apply md_name_neq_json_name.
      split; [by right|]. by intros [?|?].
    - rewrite lookup_insert_ne by apply md_name_neq_json_name.
      split; [by right|]. by intros [?|?]. }
  exists (Memory.sort_by Memory.newest_first
            (omap (listed_entry w1 d) (map_to_list d))), w1, d,
    (listed w1 d r0).
  split; [|split; [done|split; [done|split]]].
  - rewrite (bind_ok _ _ _ _ _
               (writeEchoRef_quiet w ref dataset Hq Hmdn (λ _, Hjsn))).
    fold w1. unfold Memory.readEchoRefs.
    rewrite (bind_ok _ _ _ _ _ (ensureEchoesDir_existing w1 d Hq1 Hd1)).
    unfold mbind, M_bind, get_world. rewrite Hd1. unfold Memory.read_dir.
    rewrite (io_point_quiet w1 Hq1).
    by rewrite (read_files_entries d _ [] w1 Hq1).
  - rewrite sort_by_Permutation, list_elem_of_omap.
    exists (Memory.md_name (EchoRef.echoId ref),
            Raw (Memory.echo_file_text ref (Memory.truthy_json_opt dataset))).
    split; [by apply elem_of_map_to_list|].
    apply listed_entry_Some. eexists _, r0. split; [reflexivity|].
    split; [apply ends_with_md|done].
  - assert (∀ (g : EchoRef.t → str),
              (∀ p r, g (Memory.with_jsonPath p r) = g r) →
              g (listed w1 d r0) = g r0) as Hg.
    { intros g Hgp. unfold listed.
      destruct (Memory.echo_file_exists _ _ _); [apply Hgp|done]. }
    rewrite !Hg by done.
    repeat (split; [done|]).
    rewrite <- Hjson. unfold listed, Memory.echo_file_exists. rewrite Eid.
    unfold names_dataset_file in Hjsn. rewrite Hjsn.
    case_bool_decide as Hc; simpl.
    + split; eauto.
    + rewrite Ej. split; [by intros [? ?]|done].
Qed.

End more_catalog_round_trip.

(** ** The configuration file *)

Section more_env_facts.
Context `{Host}.

Lemma dot_run_fixed v : Js.dot_run v = v → single_line v.
Proof.
  induction v as [|c v IH]; simpl; [constructor|].
  destruct (Js.is_line_terminator c) eqn:E; [done|].
  intros [= Hv]. constructor; [done|]. by apply IH.
Qed.

Lemma match_env_value_Some key s k v :
  Server.match_env_value key s = Some (k, v) →
  ∃ k', k = key ++ k' ∧ s = k' ++ 61 :: v
        ∧ Forall (λ c, Server.is_env_key_char c) k'
        ∧ k ≠ [] ∧ v ≠ [] ∧ single_line v.
Proof.
  revert key. induction s as [|c s IH]; intros key; simpl; [done|].
  destruct (Server.is_env_key_char c) eqn:Hc.
  - intros (k' & -> & -> & Hk & ? & ? & ?)%IH.
    exists (c :: k'). rewrite <- app_assoc in *. split; [done|].
    split; [done|]. split; [|done]. constructor; [by rewrite Hc|done].
  - destruct (c =? 61) eqn:E; [|done]. apply N.eqb_eq in E as ->.
    destruct key as [|x key]; [done|]. destruct s as [|y s]; [done|].
    simpl. case_bool_decide as Hd; [|done]. intros [= <- <-].
    exists []. rewrite app_nil_r. split; [done|]. split; [done|].
    split; [constructor|]. split; [done|]. split; [done|].
    by apply dot_run_fixed.
Qed.

Lemma match_env_value_line key k' v :
  Forall (λ c, Server.is_env_key_char c) k' →
  key ++ k' ≠ [] → v ≠ [] → single_line v →
  Server.match_env_value key (k' ++ 61 :: v) = Some (key ++ k', v).
Proof.
  intros Hk. revert key. induction Hk as [|c k' Hc Hk IH]; intros key Hne Hv Hl.
  - rewrite app_nil_r in *. simpl.
    change (Server.is_env_key_char 61) with false. cbv iota.
    destruct key; [done|]. destruct v; [done|].
    rewrite (dot_run_last _ Hl). simpl. by rewrite bool_decide_eq_true_2.
  - simpl. destruct (Server.is_env_key_char c); [|done].
    rewrite IH; rewrite <- ?app_assoc; try done.
Qed.

Lemma match_env_line_Some line k v :
  Server.match_env_line line = Some (k, v) →
  line = k ++ 61 :: v ∧ k ≠ [] ∧ Forall (λ c, Server.is_env_key_char c) k
  ∧ v ≠ [] ∧ single_line v.
Proof.
  intros (k' & -> & -> & ? & ? & ? & ?)%match_env_value_Some. done.
Qed.

(** The loop of [loadEnv], from any record built so far. *)
Lemma env_fold_Some lines : ∀ (env : gmap str str) k v,
  foldl (λ (env : gmap str str) line,
           match Server.match_env_line line with
           | Some (k, v) => <[k := v]> env
           | None => env
           end) env lines !! k = Some v →
  env !! k = Some v
  ∨ ∃ line, line ∈ lines ∧ Server.match_env_line line = Some (k, v).
Proof.
  induction lines as [|l lines IH]; intros env k v; simpl; [by left|].
  intros [Hk|(line & Hin & Hm)]%IH.
  - destruct (Server.match_env_line l) as [[k0 v0]|] eqn:Hl; [|by left].
    destruct (decide (k0 = k)) as [->|Hne].
    + rewrite lookup_insert_eq in Hk. simplify_eq. right. exists l.
      split; [by left|done].
    + rewrite lookup_insert_ne in Hk by done. by left.
  - right. exists line. split; [by right|done].
Qed.

Lemma env_fold_keeps lines : ∀ (env : gmap str str) k v,
  env !! k = Some v →
  (∀ l v', l ∈ lines → l ≠ k ++ 61 :: v') →
  foldl (λ (env : gmap str str) line,
           match Server.match_env_line line with
           | Some (k, v) => <[k := v]> env
           | None => env
           end) env lines !! k = Some v.
Proof.
  induction lines as [|l lines IH]; intros env k v Hk Hno; simpl; [done|].
  apply IH; [|intros l' v' Hin; apply Hno; by right].
  destruct (Server.match_env_line l) as [[k0 v0]|] eqn:Hl; [|done].
  apply match_env_line_Some in Hl as (-> & _).
  rewrite lookup_insert_ne; [done|]. intros ->.
  by apply (Hno (k ++ 61 :: v0) v0); [left|].
Qed.

Lemma parse_env_Some txt k v :
  Server.parse_env txt !! k = Some v →
  (k ++ 61 :: v) ∈ Js.split_lines txt
  ∧ k ≠ [] ∧ Forall (λ c, Server.is_env_key_char c) k
  ∧ v ≠ [] ∧ single_line v.
Proof.
  unfold Server.parse_env. intros [Hk|(line & Hin & Hm)]%env_fold_Some.
  - by rewrite lookup_empty in Hk.
  - apply match_env_line_Some in Hm as (-> & ? & ? & ? & ?). done.
Qed.

(** X15: what [loadEnv] returns.  Without a [.env] file the record is
    empty.  With one, every entry comes from a line [KEY=value] of the
    file: the key is the non-empty run of capitals and underscores in
    front of the first [=], the value is all that follows on the line, as
    it stands, and is not empty.  The world is left as it is. *)
Theorem loadEnv_entries_come_from_lines w :
  io_faults w = [] →
  ∃ env,
    Server.loadEnv w = (Ok env, w)
    ∧ (env_file w = None → env = ∅)
    ∧ ∀ k v, env !! k = Some v →
        ∃ txt, env_file w = Some txt
          ∧ (k ++ 61 :: v) ∈ Js.split_lines txt
          ∧ k ≠ [] ∧ Forall (λ c, Server.is_env_key_char c) k
          ∧ v ≠ [] ∧ single_line v.
Proof.
  intros Hq. destruct (env_file w) as [txt|] eqn:He.
  - exists (Server.parse_env txt). split; [by apply loadEnv_quiet|].
    split; [done|]. intros k v Hk. exists txt. split; [done|].
    by apply parse_env_Some.
  - exists ∅. split.
    + unfold Server.loadEnv, mbind, M_bind, get_world. by rewrite He.
    + split; [done|]. intros k v Hk. by rewrite lookup_empty in Hk.
Qed.

(** X16: when a key is set on several lines of the [.env] file, the last
    of them wins: a line [KEY=value] gives the value of [KEY] when no line
    after it starts with [KEY=]. *)
Theorem parse_env_last_line_wins txt before after k v :
  Js.split_lines txt = before ++ (k ++ 61 :: v) :: after →
  k ≠ [] → Forall (λ c, Server.is_env_key_char c) k →
  v ≠ [] → single_line v →
  (∀ l v', l ∈ after → l ≠ k ++ 61 :: v') →
  Server.parse_env txt !! k = Some v.
Proof.
  intros Hs Hk Hc Hv Hl Hno. unfold Server.parse_env. rewrite Hs.
  rewrite foldl_app. cbn [foldl]. unfold Server.match_env_line at 2.
  rewrite (match_env_value_line [] k v) by done. cbn [app].
  apply env_fold_keeps; [apply lookup_insert_eq|done].
Qed.

End more_env_facts.

(** ** The refusals of the tools *)

Section more_refusal_facts.
Context `{Host}.

Lemma parse_env_truthy txt k v :
  Server.parse_env txt !! k = Some v → Js.truthy v.
Proof. intros (_ & _ & _ & Hv & _)%parse_env_Some. by destruct v. Qed.

(** X17: without the three keys in the [.env] file, [loretech_echo]
    answers with the missing-keys error and does nothing else: no run
    directory is created, no request is sent, no file is written. *)
Theorem loretech_echo_without_keys w args runId :
  io_faults w = [] →
  (∀ k1 k2 k3, ¬ has_keys w k1 k2 k3) →
  Server.loretech_echo args runId w = (Ok Server.MISSING_KEYS, w).
Proof.
  intros Hq Hno. unfold Server.loretech_echo.
  destruct (env_file w) as [txt|] eqn:He.
  - rewrite (bind_ok _ _ _ _ _ (loadEnv_quiet w txt Hq He)).
    destruct (Server.parse_env txt !! Js.lit "LORETECH_API_KEY")
      as [k1|] eqn:H1; [|done].
    destruct (Server.parse_env txt !! Js.lit "OPENROUTER_API_KEY")
      as [k2|] eqn:H2; [|done].
    destruct (Server.parse_env txt !! Js.lit "EXA_API_KEY")
      as [k3|] eqn:H3; [|done].
    exfalso. apply (Hno k1 k2 k3). exists txt.
    repeat split; try done; by eapply parse_env_truthy.
  - assert (Server.loadEnv w = (Ok ∅, w)) as Hl.
    { unfold Server.loadEnv, mbind, M_bind, get_world. by rewrite He. }
    rewrite (bind_ok _ _ _ _ _ Hl). by rewrite !lookup_empty.
Qed.


End more_refusal_facts.

(** ** The successful path of the tools *)

Section more_success_facts.
Context `{Host}.

Lemma same_run_refl m : same_run m m.
Proof. by repeat split. Qed.

Lemma same_run_trans m1 m2 m3 :
  same_run m1 m2 → same_run m2 m3 → same_run m1 m3.
Proof.
  unfold same_run. intros (?&?&?&?&?&?&?) (?&?&?&?&?&?&?).
  repeat split; congruence.
Qed.

Lemma apply_update_same_run name st a t m :
  same_run m (apply_update name st a t m).
Proof.
  unfold apply_update.
  destruct (Runs.update_first name _ _) as [steps'|] eqn:E;
    [|apply same_run_refl].
  split; [|by repeat split]. simpl.
  eapply update_first_names, E. intros. apply set_step_name.
Qed.

Lemma outside_same_refl w : outside_same w w.
Proof. by repeat split. Qed.

Lemma outside_same_trans w1 w2 w3 :
  outside_same w1 w2 → outside_same w2 w3 → outside_same w1 w3.
Proof.
  unfold outside_same. intros (?&?&?&?&?) (?&?&?&?&?).
  repeat split; congruence.
Qed.

Lemma frame_outside w w' : frame w w' → outside_same w w'.
Proof. intros (?&?&?&?&?&?&?). by repeat split. Qed.

Lemma known_step m name :
  StepMeta.name <$> RunMeta.steps m = Runs.STEPS → name ∈ Runs.STEPS →
  is_Some (find_step name (RunMeta.steps m)).
Proof. intros Hs Hn. apply find_step_elem_of. by rewrite Hs. Qed.

Lemma elem_of_STEPS (name : string) :
  bool_decide (Js.lit name ∈ Runs.STEPS) = true → Js.lit name ∈ Runs.STEPS.
Proof. apply bool_decide_eq_true. Qed.

(** One [updateStep] of a step of the fixed vocabulary, without storage
    faults. *)
Lemma updateStep_step w runId (name : string) st a m :
  ledger_at w runId m →
  StepMeta.name <$> RunMeta.steps m = Runs.STEPS →
  bool_decide (Js.lit name ∈ Runs.STEPS) = true →
  ∃ w' m',
    Runs.updateStep runId (Js.lit name) st a w = (Ok (), w')
    ∧ ledger_at w' runId m'
    ∧ StepMeta.name <$> RunMeta.steps m' = Runs.STEPS
    ∧ same_run m m'
    ∧ (∀ n, step_status_in m' n
            = if decide (n = Js.lit name) then Some st
              else step_status_in m n)
    ∧ frame w w' ∧ same_files runId w w'.
Proof.
  intros Hl Hs Hn. apply elem_of_STEPS in Hn.
  pose proof (known_step m _ Hs Hn) as Hk.
  destruct (updateStep_known w runId (Js.lit name) st a m Hl Hk)
    as (w' & Hu & Hl' & Hf & Hsf & _).
  exists w', (apply_update (Js.lit name) st a (stamp w st) m).
  pose proof (apply_update_same_run (Js.lit name) st a (stamp w st) m) as Hr.
  split; [done|]. split; [done|]. split; [by rewrite (proj1 Hr)|].
  split; [done|]. split; [|done].
  intros n. by apply step_status_apply_update.
Qed.

(** One [writeArtifact] of a file other than the record. *)
Lemma writeArtifact_step w runId (f : string) c m :
  ledger_at w runId m →
  Js.entry_name (Js.lit f) = true →
  bool_decide (Js.lit f = Runs.META) = false →
  ∃ p w',
    Runs.writeArtifact runId (Js.lit f) c w = (Ok p, w')
    ∧ ledger_at w' runId m
    ∧ Runs.run_file w' runId (Js.lit f) = Some (stored c)
    ∧ (∀ g, g ≠ Js.lit f →
         Runs.run_file w' runId g = Runs.run_file w runId g)
    ∧ (∀ r, r ≠ runId → runs_dir w' !! r = runs_dir w !! r)
    ∧ frame w w'.
Proof.
  intros Hl Hn Hf. apply neq_META in Hf.
  destruct (writeArtifact_quiet w runId (Js.lit f) c)
    as (p & w' & Hw & Hc & Hl' & Hfr & _ & Hg & Hr);
    [done|apply Hl|apply (ledger_run_exists _ _ _ (proj2 Hl))|done|].
  exists p, w'. split; [done|]. split; [by apply Hl'|].
  split; [done|]. split; [done|]. by split.
Qed.

Lemma writeEchoRef_step w runId ref dataset m :
  ledger_at w runId m →
  names_echo_file (EchoRef.echoId ref) →
  (Memory.truthy_json_opt dataset → names_dataset_file (EchoRef.echoId ref)) →
  ∃ w',
    Memory.writeEchoRef ref dataset w = (Ok (), w')
    ∧ ledger_at w' runId m
    ∧ runs_dir w' = runs_dir w
    ∧ echoes w' = Some (after_write ref dataset (default ∅ (echoes w)))
    ∧ outside_same w w'.
Proof.
  intros Hl Hmd Hjs. eexists.
  split; [apply writeEchoRef_quiet; [apply Hl|done|done]|].
  split; [by apply (ledger_at_transfer w); [|done|apply Hl]|].
  by repeat split.
Qed.

End more_success_facts.

Section more_store_facts.
Context `{Host}.

Ltac lit_neq := let E := fresh in intros E; by vm_compute in E.

(** Steps 2 to 5 of both handlers after a success response, without
    storage faults: the sources and the echo are written to the run, the
    echo file is written to [echoes/], and the four steps are completed;
    then the rest [k] of the handler runs. *)
Lemma store_result_quiet {A} (k : M A) w runId data m :
  ledger_at w runId m →
  StepMeta.name <$> RunMeta.steps m = Runs.STEPS →
  names_echo_file (EchoData.echoId data) →
  ∃ w' m',
    (Runs.writeArtifact runId (Js.lit "sources.json")
       (Json (DValue (JArr (EchoData.sources data))));;
     Runs.updateStep runId (Js.lit "sources") Completed
       (Some (Js.lit "sources.json"));;
     Runs.updateStep runId (Js.lit "compose") Running None;;
     Runs.writeArtifact runId (Js.lit "echo.md")
       (Raw (EchoData.markdown data));;
     Runs.updateStep runId (Js.lit "compose") Completed
       (Some (Js.lit "echo.md"));;
     Runs.updateStep runId (Js.lit "store") Running None;;
     Memory.writeEchoRef (Server.echo_ref_of data) None;;
     Runs.updateStep runId (Js.lit "store") Completed None;;
     Runs.updateStep runId (Js.lit "record") Completed None;;
     k) w = k w'
    ∧ ledger_at w' runId m'
    ∧ StepMeta.name <$> RunMeta.steps m' = Runs.STEPS
    ∧ same_run m m'
    ∧ (∀ n, step_status_in m' n
            = if bool_decide
                   (n ∈ Js.lit <$> ["sources"; "compose"; "store";
                                    "record"]%string)
              then Some Completed else step_status_in m n)
    ∧ Runs.run_file w' runId (Js.lit "sources.json")
      = Some (Json (DValue (JArr (EchoData.sources data))))
    ∧ Runs.run_file w' runId (Js.lit "echo.md")
      = Some (stored (Raw (EchoData.markdown data)))
    ∧ (∀ g, g ∉ [Runs.META; Js.lit "sources.json"; Js.lit "echo.md"] →
         Runs.run_file w' runId g = Runs.run_file w runId g)
    ∧ (∀ r, r ≠ runId → runs_dir w' !! r = runs_dir w !! r)
    ∧ echoes w'
      = Some (after_write (Server.echo_ref_of data) None
                (default ∅ (echoes w)))
    ∧ outside_same w w'.
Proof.
  intros Hl0 Hs0 Hname.
  destruct (writeArtifact_step w runId "sources.json"
              (Json (DValue (JArr (EchoData.sources data)))) m Hl0 eq_refl
              eq_refl)
    as (p1 & w1 & E1 & Hl1 & Hc1 & G1 & R1 & F1).
  rewrite (bind_ok _ _ _ _ _ E1).
  destruct (updateStep_step w1 runId "sources" Completed
              (Some (Js.lit "sources.json")) m Hl1 Hs0 eq_refl)
    as (w2 & m2 & E2 & Hl2 & Hs2 & Hr2 & St2 & F2 & [G2 R2]).
  rewrite (bind_ok _ _ _ _ _ E2).
  destruct (updateStep_step w2 runId "compose" Running None m2 Hl2 Hs2
              eq_refl)
    as (w3 & m3 & E3 & Hl3 & Hs3 & Hr3 & St3 & F3 & [G3 R3]).
  rewrite (bind_ok _ _ _ _ _ E3).
  destruct (writeArtifact_step w3 runId "echo.md"
              (Raw (EchoData.markdown data)) m3 Hl3 eq_refl eq_refl)
    as (p4 & w4 & E4 & Hl4 & Hc4 & G4 & R4 & F4).
  rewrite (bind_ok _ _ _ _ _ E4).
  destruct (updateStep_step w4 runId "compose" Completed
              (Some (Js.lit "echo.md")) m3 Hl4 Hs3 eq_refl)
    as (w5 & m5 & E5 & Hl5 & Hs5 & Hr5 & St5 & F5 & [G5 R5]).
  rewrite (bind_ok _ _ _ _ _ E5).
  destruct (updateStep_step w5 runId "store" Running None m5 Hl5 Hs5
              eq_refl)
    as (w6 & m6 & E6 & Hl6 & Hs6 & Hr6 & St6 & F6 & [G6 R6]).
  rewrite (bind_ok _ _ _ _ _ E6).
  destruct (writeEchoRef_step w6 runId (Server.echo_ref_of data) None m6 Hl6
              Hname (λ H, match H with end))
    as (w7 & E7 & Hl7 & D7 & Ec7 & O7).
  rewrite (bind_ok _ _ _ _ _ E7).
  destruct (updateStep_step w7 runId "store" Completed None m6 Hl7 Hs6
              eq_refl)
    as (w8 & m8 & E8 & Hl8 & Hs8 & Hr8 & St8 & F8 & [G8 R8]).
  rewrite (bind_ok _ _ _ _ _ E8).
  destruct (updateStep_step w8 runId "record" Completed None m8 Hl8 Hs8
              eq_refl)
    as (w9 & m9 & E9 & Hl9 & Hs9 & Hr9 & St9 & F9 & [G9 R9]).
  rewrite (bind_ok _ _ _ _ _ E9).
  assert (∀ g, Runs.run_file w7 runId g = Runs.run_file w6 runId g) as G7.
  { intros g. unfold Runs.run_file. by rewrite D7. }
  exists w9, m9. split; [reflexivity|]. split; [done|]. split; [done|].
  split.
  { repeat (eapply same_run_trans; [eassumption|]). apply same_run_refl. }
  split.
  { intros n. rewrite St9, St8, St6, St5, St3, St2.
    case_bool_decide as Hin.
    - repeat (case_decide; [done|]).
      exfalso. cbn in Hin. rewrite !elem_of_cons in Hin.
      destruct Hin as [?|[?|[?|[?|Hin]]]]; try done.
      by apply elem_of_nil in Hin.
    - repeat (let E := fresh "E" in
              case_decide as E;
              [exfalso; apply Hin; rewrite E;
               apply (bool_decide_unpack _); by vm_compute|]).
      done. }
  split.
  { rewrite G9, G8, G7, G6, G5, G4, G3, G2 by lit_neq. exact Hc1. }
  split.
  { rewrite G9, G8, G7, G6, G5 by lit_neq. exact Hc4. }
  split.
  { intros g Hg. rewrite !not_elem_of_cons in Hg.
    destruct Hg as (g1 & g2 & g3 & _).
    rewrite G9, G8, G7, G6, G5, G4, G3, G2, G1 by done. done. }
  split.
  { intros r Hr. rewrite R9, R8, D7, R6, R5, R4, R3, R2, R1 by done. done. }
  split.
  { rewrite (proj1 (proj2 F9)), (proj1 (proj2 F8)), Ec7.
    by rewrite (proj1 (proj2 F6)), (proj1 (proj2 F5)), (proj1 (proj2 F4)),
      (proj1 (proj2 F3)), (proj1 (proj2 F2)), (proj1 (proj2 F1)). }
  apply frame_outside in F1, F2, F3, F4, F5, F6, F8, F9.
  repeat (eapply outside_same_trans; [eassumption|]). apply outside_same_refl.
Qed.

End more_store_facts.

Section more_echo_success.
Context `{Host}.

Lemma with_authorization_outside w args headers :
  io_faults w = [] →
  ∃ hs w', Server.with_authorization args headers w = (Ok hs, w')
    ∧ runs_dir w' = runs_dir w ∧ io_faults w' = [] ∧ ticks w' = ticks w
    ∧ outside_same w w'.
Proof.
  intros Hq. unfold Server.with_authorization.
  destruct (Js.truthy_opt (EchoArgs.echoId args));
    [|eexists _, _; by repeat split].
  destruct (readEchoRefs_quiet w Hq)
    as (refs & w' & Hr & Hd & Hq' & Hp & Hs & Ht & He & Hg & Htm).
  rewrite (bind_ok _ _ _ _ _ Hr).
  destruct (List.find _ refs) as [existing|];
    [|eexists _, _; by repeat split].
  destruct (Js.truthy (EchoRef.privateKey existing));
    eexists _, _; by repeat split.
Qed.

Lemma started_meta_steps runId t0 t1 t2 t3 :
  StepMeta.name <$> RunMeta.steps (started_meta runId t0 t1 t2 t3)
  = Runs.STEPS.
Proof. reflexivity. Qed.

Lemma set_result_status_in e err t m n :
  step_status_in (Runs.set_result e err t m) n = step_status_in m n.
Proof. reflexivity. Qed.

(** X19: the successful path of [loretech_echo].  With the three keys
    configured, a quiet storage layer and an engine that answers the
    request with a success response whose payload names an echo file (the
    [echoId] makes [{echoId}.md] the name of an entry of [echoes/]: no [/],
    no NUL, well formed, not too long; the handler does not check it), the
    handler returns the summary of the echo; the run is [completed] with
    the echo recorded; the steps context to record are [completed]; the
    three artifacts are in the run directory and the echo file is the entry
    [{echoId}.md] of [echoes/], the two texts as the encoding keeps them
    (an unpaired surrogate replaced by U+FFFD); one request was sent.  When
    the payload names a webset, the webset step is [running] and one poll
    is armed for it; otherwise the step is [completed] and no poll is
    armed. *)
Theorem loretech_echo_success w args runId loretechKey openrouterKey exaKey
    r rest data :
  io_faults w = [] →
  has_keys w loretechKey openrouterKey exaKey →
  posts w = Resolved r :: rest →
  Response.ok r = true →
  Response.json r = Ok data →
  names_echo_file (EchoData.echoId data) →
  ∃ w' m req d,
    Server.loretech_echo args runId w
    = (Ok (ToolResult.mk (Server.echo_success_text runId data) false), w')
    ∧ Runs.readMeta runId w' = (Ok (Some m), w')
    ∧ RunMeta.status m = RunCompleted
    ∧ RunMeta.echoId m = Server.keep (Some (EchoData.echoId data))
    ∧ RunMeta.error m = None
    ∧ Forall (λ name, step_status_in m name = Some Completed)
        (Js.lit <$> ["context"; "sources"; "compose"; "store";
                     "record"]%string)
    ∧ step_status_in m (Js.lit "webset")
      = Some (if Js.truthy_opt (EchoData.websetId data) then Running
              else Completed)
    ∧ timers w'
      = timers w ++ (if Js.truthy_opt (EchoData.websetId data)
                     then [poll_job_of data runId exaKey] else [])
    ∧ Runs.run_file w' runId (Js.lit "context.json")
      = Some (Json (DContext (Server.echo_context args)))
    ∧ Runs.run_file w' runId (Js.lit "sources.json")
      = Some (Json (DValue (JArr (EchoData.sources data))))
    ∧ Runs.run_file w' runId (Js.lit "echo.md")
      = Some (Raw (Js.to_well_formed (EchoData.markdown data)))
    ∧ echoes w' = Some d
    ∧ d !! Memory.md_name (EchoData.echoId data)
      = Some (Raw (Js.to_well_formed
                     (Memory.echo_file_text (Server.echo_ref_of data) false)))
    ∧ sent w' = sent w ++ [req]
    ∧ is_echo_request args req
    ∧ posts w' = rest.
Proof.
  intros Hq (txt & He & Hk1 & Hk2 & Hk3 & Ht1 & Ht2 & Ht3) Hp Hok Hjson
    Hname.
  unfold Server.loretech_echo.
  rewrite (bind_ok _ _ _ _ _ (loadEnv_quiet w txt Hq He)).
  rewrite Hk1, Hk2, Hk3.
  destruct (Js.truthy loretechKey); [|done].
  destruct (Js.truthy openrouterKey); [|done].
  destruct (Js.truthy exaKey); [|done]. cbn [negb orb].
  destruct (capture_context_quiet
              (try_catch
                 (Server.echo_try args (Server.parse_env txt) loretechKey
                    openrouterKey exaKey runId)
                 (Server.echo_catch runId))
              w runId (Json (DContext (Server.echo_context args))) Hq)
    as (w5 & t0 & t1 & t2 & t3 & Hpre & Hl5 & Hc5 & Hf5).
  rewrite Hpre. clear Hpre.
  apply frame_outside in Hf5. destruct Hf5 as (Ee5 & Ep5 & Eg5 & Es5 & Et5).
  set (m5 := started_meta runId t0 t1 t2 t3) in *.
  set (headers := Server.engine_headers loretechKey openrouterKey exaKey
                  ++ Server.header_if "X-Display-Name"
                       (Server.parse_env txt !! Js.lit "DISPLAY_NAME")
                  ++ Server.header_if "X-Handle"
                       (Server.parse_env txt !! Js.lit "X_HANDLE")).
  destruct (with_authorization_outside w5 args headers (proj1 Hl5))
    as (hs & w6 & Ha & Hd6 & Hq6 & _ & (Ee6 & Ep6 & Eg6 & Es6 & Et6)).
  set (req := Request.mk (Js.lit "POST") Server.echo_url hs
                (Some (Server.echo_body args))).
  set (w7 := Server.with_posts rest (Server.with_sent req w6)).
  assert (ledger_at w7 runId m5) as Hl7
    by (apply (ledger_at_transfer w5); [done|by rewrite <- Hd6|done]).
  assert (∀ g, Runs.run_file w7 runId g = Runs.run_file w5 runId g) as G7.
  { intros g. unfold Runs.run_file. simpl. by rewrite Hd6. }
  (* the [try] block *)
  assert (∃ w' m,
    Server.echo_try args (Server.parse_env txt) loretechKey openrouterKey
      exaKey runId w5
    = (Ok (ToolResult.mk (Server.echo_success_text runId data) false), w')
    ∧ ledger_at w' runId m
    ∧ RunMeta.status m = RunCompleted
    ∧ RunMeta.echoId m = Server.keep (Some (EchoData.echoId data))
    ∧ RunMeta.error m = None
    ∧ (∀ n, step_status_in m n
            = if decide (n = Js.lit "webset")
              then Some (if Js.truthy_opt (EchoData.websetId data)
                         then Running else Completed)
              else if bool_decide
                        (n ∈ Js.lit <$> ["sources"; "compose"; "store";
                                         "record"]%string)
                   then Some Completed else step_status_in m5 n)
    ∧ timers w'
      = timers w7 ++ (if Js.truthy_opt (EchoData.websetId data)
                      then [poll_job_of data runId exaKey] else [])
    ∧ (∀ g, g ∉ [Runs.META; Js.lit "sources.json"; Js.lit "echo.md"] →
         Runs.run_file w' runId g = Runs.run_file w7 runId g)
    ∧ Runs.run_file w' runId (Js.lit "sources.json")
      = Some (Json (DValue (JArr (EchoData.sources data))))
    ∧ Runs.run_file w' runId (Js.lit "echo.md")
      = Some (Raw (Js.to_well_formed (EchoData.markdown data)))
    ∧ echoes w'
      = Some (after_write (Server.echo_ref_of data) None
                (default ∅ (echoes w7)))
    ∧ sent w' = sent w7 ∧ posts w' = posts w7)
    as (w' & m & Htry & Hl' & Hst & Hid & Herr & Hsteps & Htm & Hg & Hsrc
        & Hmd & Hec & Hsent & Hposts).
  { unfold Server.echo_try. fold headers.
    rewrite (bind_ok _ _ _ _ _ Ha). fold req.
    erewrite bind_ok; [|apply fetch_post_resolved; by rewrite Ep6, Ep5].
    fold w7. rewrite Hok. cbn [negb]. rewrite Hjson.
    unfold Server.await. rewrite (bind_ok _ _ _ data _ eq_refl).
    lazymatch goal with
    | |- context [Runs.updateStep runId (Js.lit "record") Completed None
                  ≫= (λ _, ?k)] =>
        destruct (store_result_quiet k w7 runId data m5 Hl7
                    (started_meta_steps runId t0 t1 t2 t3) Hname)
          as (w8 & m8 & Hstore & Hl8 & Hs8 & Hr8 & St8 & Hsrc8 & Hmd8 & G8
              & _ & Ec8 & (Ee8 & Ep8 & Eg8 & Es8 & Et8))
    end.
    rewrite Hstore. clear Hstore.
    assert (RunMeta.echoId m8 = None ∧ RunMeta.error m8 = None)
      as [Hid8 Herr8].
    { destruct Hr8 as (_ & _ & _ & _ & _ & -> & ->). done. }
    destruct (Js.truthy_opt (EchoData.websetId data)) eqn:Hws.
    - destruct (updateStep_step w8 runId "webset" Running None m8 Hl8 Hs8
                  eq_refl)
        as (w9 & m9 & E9 & Hl9 & Hs9 & Hr9 & St9 & F9 & [G9 _]).
      rewrite (bind_ok _ _ _ _ _ (bind_ok _ _ _ _ _ E9)).
      set (job := PollJob.mk _ _ _ _).
      assert (ledger_at (Server.with_timer job w9) runId m9) as Hl10
        by (apply (ledger_at_transfer w9); [done|done|apply Hl9]).
      destruct (completeRun_known _ runId (Some (EchoData.echoId data)) None
                  m9 Hl10)
        as (w11 & E11 & Hl11 & F11 & [G11 _] & _).
      rewrite (bind_ok _ _ _ _ _ E11).
      apply frame_outside in F9, F11.
      destruct F9 as (Ee9 & Ep9 & Eg9 & Es9 & Et9).
      destruct F11 as (Ee11 & Ep11 & Eg11 & Es11 & Et11).
      eexists _, _. split; [reflexivity|]. split; [exact Hl11|].
      split; [done|].
      split.
      { simpl. destruct Hr9 as (_ & _ & _ & _ & _ & -> & _).
        rewrite Hid8. unfold Server.keep. simpl.
        by destruct (Js.truthy (EchoData.echoId data)). }
      split.
      { simpl. destruct Hr9 as (_ & _ & _ & _ & _ & _ & ->). done. }
      split.
      { intros n. rewrite set_result_status_in, St9.
        case_decide; [done|]. apply St8. }
      split; [by rewrite Et11; simpl; rewrite Et9, Et8|].
      split.
      { intros g Hg. pose proof Hg as Hg'.
        rewrite !not_elem_of_cons in Hg'. destruct Hg' as (g1 & _).
        rewrite G11 by done. simpl.
        change (Runs.run_file (Server.with_timer job w9) runId g)
          with (Runs.run_file w9 runId g).
        rewrite G9 by done. by apply G8. }
      split.
      { rewrite G11 by (intros E; by vm_compute in E).
        change (Runs.run_file (Server.with_timer job w9) runId
                  (Js.lit "sources.json"))
          with (Runs.run_file w9 runId (Js.lit "sources.json")).
        by rewrite G9 by (intros E; by vm_compute in E). }
      split.
      { rewrite G11 by (intros E; by vm_compute in E).
        change (Runs.run_file (Server.with_timer job w9) runId
                  (Js.lit "echo.md"))
          with (Runs.run_file w9 runId (Js.lit "echo.md")).
        by rewrite G9 by (intros E; by vm_compute in E). }
      split.
      { destruct (completeRun_known _ runId (Some (EchoData.echoId data))
                    None m9 Hl10) as (w11' & E11' & _ & F11' & _).
        rewrite E11 in E11'. simplify_eq.
        destruct F11' as (_ & -> & _). simpl.
        destruct (updateStep_step w8 runId "webset" Running None m8 Hl8 Hs8
                    eq_refl) as (w9' & m9' & E9' & _ & _ & _ & _ & F9' & _).
        rewrite E9 in E9'. simplify_eq.
        destruct F9' as (_ & -> & _). done. }
      split; [by rewrite Es11; simpl; rewrite Es9, Es8|].
      by rewrite Ep11; simpl; rewrite Ep9, Ep8.
    - destruct (updateStep_step w8 runId "webset" Completed None m8 Hl8 Hs8
                  eq_refl)
        as (w9 & m9 & E9 & Hl9 & Hs9 & Hr9 & St9 & F9 & [G9 _]).
      rewrite (bind_ok _ _ _ _ _ E9).
      destruct (completeRun_known _ runId (Some (EchoData.echoId data)) None
                  m9 Hl9)
        as (w11 & E11 & Hl11 & F11 & [G11 _] & _).
      rewrite (bind_ok _ _ _ _ _ E11).
      pose proof F9 as F9'. pose proof F11 as F11'.
      apply frame_outside in F9, F11.
      destruct F9 as (Ee9 & Ep9 & Eg9 & Es9 & Et9).
      destruct F11 as (Ee11 & Ep11 & Eg11 & Es11 & Et11).
      eexists _, _. split; [reflexivity|]. split; [exact Hl11|].
      split; [done|].
      split.
      { simpl. destruct Hr9 as (_ & _ & _ & _ & _ & -> & _).
        rewrite Hid8. unfold Server.keep. simpl.
        by destruct (Js.truthy (EchoData.echoId data)). }
      split.
      { simpl. destruct Hr9 as (_ & _ & _ & _ & _ & _ & ->). done. }
      split.
      { intros n. rewrite set_result_status_in, St9.
        case_decide; [done|]. apply St8. }
      split; [by rewrite app_nil_r, Et11, Et9, Et8|].
      split.
      { intros g Hg. pose proof Hg as Hg'.
        rewrite !not_elem_of_cons in Hg'. destruct Hg' as (g1 & _).
        rewrite G11, G9 by done. by apply G8. }
      split; [by rewrite G11, G9 by (intros E; by vm_compute in E)|].
      split; [by rewrite G11, G9 by (intros E; by vm_compute in E)|].
      split.
      { destruct F11' as (_ & -> & _). destruct F9' as (_ & -> & _). done. }
      split; [by rewrite Es11, Es9, Es8|].
      by rewrite Ep11, Ep9, Ep8. }
  rewrite (try_catch_ok _ _ _ _ _ Htry).
  exists w', m, req,
    (after_write (Server.echo_ref_of data) None (default ∅ (echoes w7))).
  split; [reflexivity|]. split; [exact (proj2 Hl')|].
  split; [done|]. split; [done|]. split; [done|].
  split.
  { repeat (apply Forall_cons_2 || apply Forall_nil_2);
      rewrite Hsteps; unfold m5; clear; by vm_compute. }
  split.
  { rewrite Hsteps. by rewrite decide_True. }
  split; [by rewrite Htm; simpl; rewrite Et6, Et5|].
  split.
  { rewrite Hg, G7; [done|].
    rewrite !not_elem_of_cons. repeat split;
      try (intros E; by vm_compute in E). apply not_elem_of_nil. }
  split; [done|]. split; [done|]. split; [done|].
  split; [apply lookup_insert_eq|].
  split; [by rewrite Hsent; simpl; rewrite Es6, Es5|].
  split; [done|].
  by rewrite Hposts.
Qed.

End more_echo_success.

Section more_rerun_success.
Context `{Host}.

(** X20: the successful path of [loretech_rerun], for a payload that
    names an echo file (as in X19).  The new run is [completed] with the
    echo recorded and its steps context to record are [completed], as in
    [loretech_echo]; but the replay never calls [pollWebsetDataset]: when
    the payload names a webset, the webset step of the new run is left
    [running] and no poll is armed that could complete it.  The artifact
    [echo.md] holds the markdown of the payload as the encoding keeps
    it. *)
Theorem loretech_rerun_success_arms_no_poll w args newRunId loretechKey
    openrouterKey exaKey m0 original r rest data :
  io_faults w = [] →
  has_keys w loretechKey openrouterKey exaKey →
  Runs.readMeta (RerunArgs.runId args) w = (Ok (Some m0), w) →
  Runs.run_file w (RerunArgs.runId args) (Js.lit "context.json")
  = Some (Json (DContext original)) →
  posts w = Resolved r :: rest →
  Response.ok r = true →
  Response.json r = Ok data →
  names_echo_file (EchoData.echoId data) →
  ∃ w' m,
    Server.loretech_rerun args newRunId w
    = (Ok (ToolResult.mk (Server.rerun_success_text args newRunId data)
             false), w')
    ∧ Runs.readMeta newRunId w' = (Ok (Some m), w')
    ∧ RunMeta.status m = RunCompleted
    ∧ RunMeta.echoId m = Server.keep (Some (EchoData.echoId data))
    ∧ Forall (λ name, step_status_in m name = Some Completed)
        (Js.lit <$> ["context"; "sources"; "compose"; "store";
                     "record"]%string)
    ∧ step_status_in m (Js.lit "webset")
      = Some (if Js.truthy_opt (EchoData.websetId data) then Running
              else Completed)
    ∧ timers w' = timers w
    ∧ Runs.run_file w' newRunId (Js.lit "sources.json")
      = Some (Json (DValue (JArr (EchoData.sources data))))
    ∧ Runs.run_file w' newRunId (Js.lit "echo.md")
      = Some (Raw (Js.to_well_formed (EchoData.markdown data))).
Proof.
  intros Hq (txt & He & Hk1 & Hk2 & Hk3 & Ht1 & Ht2 & Ht3) Hm0 Hc0 Hp Hok
    Hjson Hname.
  unfold Server.loretech_rerun.
  rewrite (bind_ok _ _ _ _ _ Hm0).
  rewrite (bind_ok _ _ _ _ _ (readArtifact_quiet _ _ _ _ Hq Hc0)).
  cbn [Server.truthy_content Server.parse_context].
  rewrite (bind_ok _ _ _ original w eq_refl).
  rewrite (bind_ok _ _ _ _ _ (loadEnv_quiet w txt Hq He)).
  rewrite Hk1, Hk2, Hk3.
  destruct (Js.truthy loretechKey); [|done].
  destruct (Js.truthy openrouterKey); [|done].
  destruct (Js.truthy exaKey); [|done]. cbn [negb orb].
  destruct (capture_context_quiet
              (try_catch
                 (Server.rerun_try args original loretechKey openrouterKey
                    exaKey newRunId)
                 (Server.rerun_catch newRunId))
              w newRunId
              (Json (DContext (Server.rerun_artifact args original))) Hq)
    as (w5 & t0 & t1 & t2 & t3 & Hpre & Hl5 & Hc5 & Hf5).
  rewrite Hpre. clear Hpre.
  apply frame_outside in Hf5. destruct Hf5 as (Ee5 & Ep5 & Eg5 & Es5 & Et5).
  set (m5 := started_meta newRunId t0 t1 t2 t3) in *.
  set (req := Request.mk (Js.lit "POST") Server.echo_url
                (Server.engine_headers loretechKey openrouterKey exaKey)
                (Some (Server.rerun_body args original))).
  set (w7 := Server.with_posts rest (Server.with_sent req w5)).
  assert (ledger_at w7 newRunId m5) as Hl7
    by (apply (ledger_at_transfer w5); [done|done|apply Hl5]).
  assert (∃ w' m,
    Server.rerun_try args original loretechKey openrouterKey exaKey newRunId
      w5
    = (Ok (ToolResult.mk (Server.rerun_success_text args newRunId data)
             false), w')
    ∧ ledger_at w' newRunId m
    ∧ RunMeta.status m = RunCompleted
    ∧ RunMeta.echoId m = Server.keep (Some (EchoData.echoId data))
    ∧ (∀ n, step_status_in m n
            = if decide (n = Js.lit "webset")
              then Some (if Js.truthy_opt (EchoData.websetId data)
                         then Running else Completed)
              else if bool_decide
                        (n ∈ Js.lit <$> ["sources"; "compose"; "store";
                                         "record"]%string)
                   then Some Completed else step_status_in m5 n)
    ∧ timers w' = timers w7
    ∧ Runs.run_file w' newRunId (Js.lit "sources.json")
      = Some (Json (DValue (JArr (EchoData.sources data))))
    ∧ Runs.run_file w' newRunId (Js.lit "echo.md")
      = Some (Raw (Js.to_well_formed (EchoData.markdown data))))
    as (w' & m & Htry & Hl' & Hst & Hid & Hsteps & Htm & Hsrc & Hmd).
  { unfold Server.rerun_try. fold req.
    erewrite bind_ok; [|apply fetch_post_resolved; by rewrite Ep5].
    fold w7. rewrite Hok. cbn [negb]. rewrite Hjson.
    unfold Server.await. rewrite (bind_ok _ _ _ data _ eq_refl).
    lazymatch goal with
    | |- context [Runs.updateStep newRunId (Js.lit "record") Completed None
                  ≫= (λ _, ?k)] =>
        destruct (store_result_quiet k w7 newRunId data m5 Hl7
                    (started_meta_steps newRunId t0 t1 t2 t3) Hname)
          as (w8 & m8 & Hstore & Hl8 & Hs8 & Hr8 & St8 & Hsrc8 & Hmd8 & G8
              & _ & Ec8 & (Ee8 & Ep8 & Eg8 & Es8 & Et8))
    end.
    rewrite Hstore. clear Hstore.
    assert (RunMeta.echoId m8 = None) as Hid8.
    { destruct Hr8 as (_ & _ & _ & _ & _ & -> & _). done. }
    destruct (updateStep_step w8 newRunId "webset"
                (if Js.truthy_opt (EchoData.websetId data) then Running
                 else Completed) None m8 Hl8 Hs8 eq_refl)
      as (w9 & m9 & E9 & Hl9 & Hs9 & Hr9 & St9 & F9 & [G9 _]).
    rewrite (bind_ok _ _ _ _ _ E9).
    destruct (completeRun_known _ newRunId (Some (EchoData.echoId data)) None
                m9 Hl9)
      as (w11 & E11 & Hl11 & F11 & [G11 _] & _).
    rewrite (bind_ok _ _ _ _ _ E11).
    apply frame_outside in F9, F11.
    destruct F9 as (Ee9 & Ep9 & Eg9 & Es9 & Et9).
    destruct F11 as (Ee11 & Ep11 & Eg11 & Es11 & Et11).
    eexists _, _. split; [reflexivity|]. split; [exact Hl11|].
    split; [done|].
    split.
    { simpl. destruct Hr9 as (_ & _ & _ & _ & _ & -> & _).
      rewrite Hid8. unfold Server.keep. simpl.
      by destruct (Js.truthy (EchoData.echoId data)). }
    split.
    { intros n. rewrite set_result_status_in, St9.
      case_decide; [done|]. apply St8. }
    split; [by rewrite Et11, Et9, Et8|].
    split; by rewrite G11, G9 by (intros E; by vm_compute in E). }
  rewrite (try_catch_ok _ _ _ _ _ Htry).
  exists w', m.
  split; [reflexivity|]. split; [exact (proj2 Hl')|].
  split; [done|]. split; [done|].
  split.
  { repeat (apply Forall_cons_2 || apply Forall_nil_2);
      rewrite Hsteps; unfold m5; clear; by vm_compute. }
  split.
  { rewrite Hsteps. by rewrite decide_True. }
  split; [by rewrite Htm; simpl; rewrite Et5|].
  done.
Qed.

End more_rerun_success.

Section more_failure_facts.
Context `{Host}.

(** X21: a rejected [fetch] in [loretech_echo] (network failure, timeout)
    is caught: the handler returns the error with the message of the
    exception, and [completeRun] records it on the run, which is [failed]
    when the message is not empty.  The [catch] block does not touch the
    steps: the sources step stays [running] and the later steps stay
    [pending]; no poll is armed. *)
Theorem loretech_echo_catches_rejected_fetch w args runId loretechKey
    openrouterKey exaKey e rest :
  io_faults w = [] →
  has_keys w loretechKey openrouterKey exaKey →
  posts w = Rejected e :: rest →
  ∃ w' m,
    Server.loretech_echo args runId w
    = (Ok (ToolResult.mk (Js.lit "Echo creation failed: " ++ e) true), w')
    ∧ Runs.readMeta runId w' = (Ok (Some m), w')
    ∧ RunMeta.status m = (if Js.truthy e then RunFailed else RunCompleted)
    ∧ RunMeta.error m = Server.keep (Some e)
    ∧ RunMeta.echoId m = None
    ∧ step_status_in m (Js.lit "context") = Some Completed
    ∧ step_status_in m (Js.lit "sources") = Some Running
    ∧ Forall (λ name, step_status_in m name = Some Pending)
        (Js.lit <$> ["compose"; "store"; "record"; "webset"]%string)
    ∧ timers w' = timers w
    ∧ length (sent w') = S (length (sent w)).
Proof.
  intros Hq (txt & He & Hk1 & Hk2 & Hk3 & Ht1 & Ht2 & Ht3) Hp.
  unfold Server.loretech_echo.
  rewrite (bind_ok _ _ _ _ _ (loadEnv_quiet w txt Hq He)).
  rewrite Hk1, Hk2, Hk3.
  destruct (Js.truthy loretechKey); [|done].
  destruct (Js.truthy openrouterKey); [|done].
  destruct (Js.truthy exaKey); [|done]. cbn [negb orb].
  destruct (capture_context_quiet
              (try_catch
                 (Server.echo_try args (Server.parse_env txt) loretechKey
                    openrouterKey exaKey runId)
                 (Server.echo_catch runId))
              w runId (Json (DContext (Server.echo_context args))) Hq)
    as (w5 & t0 & t1 & t2 & t3 & Hpre & Hl5 & Hc5 & Hf5).
  rewrite Hpre. clear Hpre.
  apply frame_outside in Hf5. destruct Hf5 as (Ee5 & Ep5 & Eg5 & Es5 & Et5).
  set (headers := Server.engine_headers loretechKey openrouterKey exaKey
                  ++ Server.header_if "X-Display-Name"
                       (Server.parse_env txt !! Js.lit "DISPLAY_NAME")
                  ++ Server.header_if "X-Handle"
                       (Server.parse_env txt !! Js.lit "X_HANDLE")).
  destruct (with_authorization_outside w5 args headers (proj1 Hl5))
    as (hs & w6 & Ha & Hd6 & Hq6 & _ & (Ee6 & Ep6 & Eg6 & Es6 & Et6)).
  set (req := Request.mk (Js.lit "POST") Server.echo_url hs
                (Some (Server.echo_body args))).
  set (w7 := Server.with_posts rest (Server.with_sent req w6)).
  assert (ledger_at w7 runId (started_meta runId t0 t1 t2 t3)) as Hl7
    by (apply (ledger_at_transfer w5); [done|by rewrite <- Hd6|done]).
  assert (Server.echo_try args (Server.parse_env txt) loretechKey
            openrouterKey exaKey runId w5 = (Throw e, w7)) as Htry.
  { unfold Server.echo_try. fold headers.
    rewrite (bind_ok _ _ _ _ _ Ha). fold req.
    erewrite bind_throw; [reflexivity|].
    apply fetch_post_rejected. by rewrite Ep6, Ep5. }
  rewrite (try_catch_throw _ _ _ _ _ Htry). unfold Server.echo_catch.
  destruct (completeRun_known w7 runId None (Some e) _ Hl7)
    as (w8 & E8 & Hl8 & F8 & _).
  rewrite (bind_ok _ _ _ _ _ E8).
  apply frame_outside in F8. destruct F8 as (Ee8 & Ep8 & Eg8 & Es8 & Et8).
  eexists _, _. split; [reflexivity|]. split; [exact (proj2 Hl8)|].
  split; [done|]. split.
  { simpl. unfold Server.keep. simpl. by destruct (Js.truthy e). }
  split; [done|].
  split; [clear; by vm_compute|]. split; [clear; by vm_compute|].
  split.
  { repeat (apply Forall_cons_2 || apply Forall_nil_2); clear;
      by vm_compute. }
  split; [by rewrite Et8; simpl; rewrite Et6, Et5|].
  rewrite Es8. simpl. rewrite length_app, Es6, Es5. simpl. lia.
Qed.

End more_failure_facts.

(** ** What the calls leave alone *)

(** A property of the world that only looks at the engine, the requests
    sent, the timers and the run directories other than [rid] is kept by
    every call of the ledger and the store on the run [rid], by the calls
    on [echoes/] and by the read of the configuration, however they end,
    as long as the files are written under names of entries. *)
Section stable.
Context `{Host}.
Context (rid : str) (P : World → Prop).
Hypothesis P_outside : ∀ w w',
  posts w' = posts w → gets w' = gets w → sent w' = sent w →
  timers w' = timers w →
  (∀ r, r ≠ rid → runs_dir w' !! r = runs_dir w !! r) →
  P w → P w'.

Lemma stable_io_point : transforms P P io_point.
Proof.
  intros w HP. unfold io_point.
  destruct (io_faults w) as [|[e|] rest]; simpl; try done;
    by apply (P_outside w).
Qed.

Lemma stable_now : transforms P P now.
Proof. intros w HP. by apply (P_outside w). Qed.

Lemma stable_await {A} (o : outcome A) : transforms P P (Server.await o).
Proof. destruct o; [apply transforms_ret|apply transforms_throw]. Qed.

Lemma stable_write_run_file f c :
  Js.entry_name f = true →
  transforms P P (Runs.write_run_file rid f c).
Proof.
  intros Hf. unfold Runs.write_run_file.
  apply transforms_bind; [apply stable_io_point|]. intros _ w HP.
  unfold mbind, M_bind, get_world. rewrite Hf.
  destruct (runs_dir w !! rid); [|done]. apply (P_outside w); try done.
  intros r Hr. simpl. by rewrite lookup_insert_ne.
Qed.

Lemma stable_readMeta runId : transforms P P (Runs.readMeta runId).
Proof.
  intros w HP. unfold Runs.readMeta, mbind, M_bind, get_world.
  destruct (Runs.run_file w runId Runs.META) as [c|]; [|done].
  pose proof (stable_io_point w HP) as HP1.
  destruct (io_point w) as [[[]|e] w1]; simpl in *; [|done].
  destruct (parse_meta_pure c) as [r Hr]. rewrite Hr. by destruct r.
Qed.

Lemma stable_updateStep name st a :
  transforms P P (Runs.updateStep rid name st a).
Proof.
  unfold Runs.updateStep.
  apply transforms_bind; [apply stable_readMeta|].
  intros [m|]; [|apply transforms_ret].
  destruct (Runs.update_first name id _); [|apply transforms_ret].
  apply transforms_bind.
  { destruct (decide (st = Pending)); [apply transforms_ret|apply stable_now]. }
  intros t. destruct (Runs.update_first name _ _); [|apply transforms_ret].
  by apply stable_write_run_file.
Qed.

Lemma stable_completeRun e err :
  transforms P P (Runs.completeRun rid e err).
Proof.
  unfold Runs.completeRun.
  apply transforms_bind; [apply stable_readMeta|].
  intros [m|]; [|apply transforms_ret].
  apply transforms_bind; [apply stable_now|]. intros t.
  by apply stable_write_run_file.
Qed.

Lemma stable_writeArtifact f c :
  Js.entry_name f = true →
  transforms P P (Runs.writeArtifact rid f c).
Proof.
  intros Hf. unfold Runs.writeArtifact.
  apply transforms_bind; [by apply stable_write_run_file|].
  intros _. apply transforms_ret.
Qed.

Lemma stable_readArtifact runId f :
  transforms P P (Runs.readArtifact runId f).
Proof.
  intros w HP. unfold Runs.readArtifact, mbind, M_bind, get_world.
  destruct (Runs.run_file w runId f) as [c|]; [|done].
  pose proof (stable_io_point w HP) as HP1.
  by destruct (io_point w) as [[[]|e] w1].
Qed.

Lemma stable_createRun : transforms P P (Runs.createRun rid).
Proof.
  unfold Runs.createRun, Runs.mkdir_run.
  apply transforms_bind.
  { apply transforms_bind; [apply stable_io_point|]. intros _ w HP.
    apply (P_outside w); try done. intros r Hr. simpl.
    destruct (runs_dir w !! rid); [done|]. by rewrite lookup_insert_ne. }
  intros _. apply transforms_bind; [apply stable_now|]. intros t.
  apply transforms_bind; [by apply stable_write_run_file|]. intros _.
  apply transforms_ret.
Qed.

Lemma stable_ensureEchoesDir : transforms P P Memory.ensureEchoesDir.
Proof.
  unfold Memory.ensureEchoesDir.
  apply transforms_bind; [apply stable_io_point|]. intros _ w HP.
  by apply (P_outside w).
Qed.

Lemma stable_write_echo_file name c :
  Js.entry_name name = true →
  transforms P P (Memory.write_echo_file name c).
Proof.
  intros Hn. unfold Memory.write_echo_file.
  apply transforms_bind; [apply stable_io_point|]. intros _ w HP.
  unfold mbind, M_bind, get_world. rewrite Hn.
  destruct (echoes w); [|done]. by apply (P_outside w).
Qed.

Lemma stable_writeEchoRef ref :
  names_echo_file (EchoRef.echoId ref) →
  transforms P P (Memory.writeEchoRef ref None).
Proof.
  intros Hn. unfold Memory.writeEchoRef.
  apply transforms_bind; [apply stable_ensureEchoesDir|]. intros _.
  apply transforms_bind; [by apply stable_write_echo_file|]. intros _.
  apply transforms_ret.
Qed.

Lemma stable_loadEnv : transforms P P Server.loadEnv.
Proof.
  intros w HP. unfold Server.loadEnv, mbind, M_bind, get_world.
  destruct (env_file w); [|done].
  pose proof (stable_io_point w HP) as HP1.
  by destruct (io_point w) as [[[]|e] w1].
Qed.

End stable.

Ltac stable_tac HP :=
  repeat first
    [ apply transforms_ret
    | apply transforms_throw
    | apply stable_await
    | apply (stable_loadEnv _ _ HP)
    | apply (stable_readMeta _ _ HP)
    | apply (stable_readArtifact _ _ HP)
    | apply (stable_createRun _ _ HP)
    | apply (stable_writeEchoRef _ _ HP); assumption
    | apply (stable_updateStep _ _ HP)
    | apply (stable_completeRun _ _ HP)
    | apply (stable_writeArtifact _ _ HP); by vm_compute
    | apply transforms_bind; [|intros ?]
    | apply transforms_try_catch; [|intros ?]
    | match goal with
      | |- transforms _ _ (if ?b then _ else _) => destruct b
      | |- transforms _ _ (match ?o with Some _ => _ | None => _ end) =>
          destruct o
      end ].

(** A property of the world that only looks at the engine, the requests
    sent and the timers is kept by every call on the files, whatever the
    names of the files are and wherever the writes land. *)
Section apart.
Context `{Host}.
Context (P : World → Prop).
Hypothesis P_apart : ∀ w w',
  posts w' = posts w → gets w' = gets w → sent w' = sent w →
  timers w' = timers w → P w → P w'.

Lemma apart_outside (rid : str) : ∀ w w',
  posts w' = posts w → gets w' = gets w → sent w' = sent w →
  timers w' = timers w →
  (∀ r, r ≠ rid → runs_dir w' !! r = runs_dir w !! r) →
  P w → P w'.
Proof. intros w w' ? ? ? ? _. by apply P_apart. Qed.

Lemma apart_write_elsewhere path c :
  transforms P P (write_elsewhere path c).
Proof.
  intros w HP. unfold write_elsewhere.
  destruct (write_stray _ _ _ _) as [o [[env runs] ech]]. simpl.
  by apply (P_apart w).
Qed.

Lemma apart_readMeta runId : transforms P P (Runs.readMeta runId).
Proof. apply (stable_readMeta runId P (apart_outside runId)). Qed.

Lemma apart_readArtifact runId f :
  transforms P P (Runs.readArtifact runId f).
Proof. apply (stable_readArtifact runId P (apart_outside runId)). Qed.

Lemma apart_loadEnv : transforms P P Server.loadEnv.
Proof. apply (stable_loadEnv [] P (apart_outside [])). Qed.

Lemma apart_createRun runId : transforms P P (Runs.createRun runId).
Proof. apply (stable_createRun runId P (apart_outside runId)). Qed.

Lemma apart_updateStep runId name st a :
  transforms P P (Runs.updateStep runId name st a).
Proof. apply (stable_updateStep runId P (apart_outside runId)). Qed.

Lemma apart_completeRun runId e err :
  transforms P P (Runs.completeRun runId e err).
Proof. apply (stable_completeRun runId P (apart_outside runId)). Qed.

Lemma apart_writeArtifact runId f c :
  transforms P P (Runs.writeArtifact runId f c).
Proof.
  destruct (Js.entry_name f) eqn:Hf.
  { by apply (stable_writeArtifact runId P (apart_outside runId)). }
  unfold Runs.writeArtifact, Runs.write_run_file. rewrite Hf.
  apply transforms_bind; [|intros _; apply transforms_ret].
  apply transforms_bind;
    [apply (stable_io_point [] P (apart_outside []))|]. intros _.
  apply transforms_bind; [by intros w HP|]. intros _.
  apply apart_write_elsewhere.
Qed.

Lemma apart_write_echo_file name c :
  transforms P P (Memory.write_echo_file name c).
Proof.
  destruct (Js.entry_name name) eqn:Hn.
  { by apply (stable_write_echo_file [] P (apart_outside [])). }
  unfold Memory.write_echo_file. rewrite Hn.
  apply transforms_bind;
    [apply (stable_io_point [] P (apart_outside []))|]. intros _.
  apply transforms_bind; [by intros w HP|]. intros _.
  apply apart_write_elsewhere.
Qed.

Lemma apart_writeEchoRef ref dataset :
  transforms P P (Memory.writeEchoRef ref dataset).
Proof.
  unfold Memory.writeEchoRef.
  apply transforms_bind;
    [apply (stable_ensureEchoesDir [] P (apart_outside []))|]. intros _.
  apply transforms_bind; [apply apart_write_echo_file|]. intros _.
  destruct dataset as [v|]; [|apply transforms_ret].
  destruct (Memory.truthy_json v);
    [apply apart_write_echo_file|apply transforms_ret].
Qed.

End apart.

Ltac apart_tac HP :=
  repeat first
    [ apply transforms_ret
    | apply transforms_throw
    | apply stable_await
    | apply (apart_loadEnv _ HP)
    | apply (apart_readMeta _ HP)
    | apply (apart_readArtifact _ HP)
    | apply (apart_createRun _ HP)
    | apply (apart_writeEchoRef _ HP)
    | apply (apart_write_echo_file _ HP)
    | apply (apart_updateStep _ HP)
    | apply (apart_completeRun _ HP)
    | apply (apart_writeArtifact _ HP)
    | apply transforms_bind; [|intros ?]
    | apply transforms_try_catch; [|intros ?]
    | match goal with
      | |- transforms _ _ (if ?b then _ else _) => destruct b
      | |- transforms _ _ (match ?o with Some _ => _ | None => _ end) =>
          destruct o
      end ].

Section more_never_facts.
Context `{Host}.

Lemma timers_apart T : ∀ w w',
  posts w' = posts w → gets w' = gets w → sent w' = sent w →
  timers w' = timers w →
  timers w = T → timers w' = T.
Proof. intros. congruence. Qed.

Lemma fetch_post_timers T req :
  transforms (λ w, timers w = T) (λ w, timers w = T) (Server.fetch_post req).
Proof.
  intros w HP. unfold Server.fetch_post. simpl.
  by destruct (posts w) as [|[e|r] rest].
Qed.

(** X22: [loretech_rerun] never arms a poll.  In every world, whatever
    the storage layer and the engine do and however the call ends, the
    timers after the call are the timers before it. *)
Theorem loretech_rerun_never_arms_a_poll w args newRunId :
  timers (Server.loretech_rerun args newRunId w).2 = timers w.
Proof.
  pose proof (timers_apart (timers w)) as HP.
  assert (transforms (λ v, timers v = timers w) (λ v, timers v = timers w)
            (Server.loretech_rerun args newRunId)) as Ht; [|by apply Ht].
  unfold Server.loretech_rerun.
  apply transforms_bind; [apply (apart_readMeta _ HP)|]. intros [m|];
    [|apply transforms_ret].
  apply transforms_bind; [apply (apart_readArtifact _ HP)|]. intros [raw|];
    [|apply transforms_ret].
  destruct (Server.truthy_content raw); [|apply transforms_ret].
  apply transforms_bind.
  { destruct raw as [s|[m'|c|v]]; simpl; first
      [ apply transforms_ret | apply stable_await ]. }
  intros original.
  apply transforms_bind; [apply (apart_loadEnv _ HP)|]. intros env.
  destruct (env !! Js.lit "LORETECH_API_KEY") as [k1|];
    [|apply transforms_ret].
  destruct (env !! Js.lit "OPENROUTER_API_KEY") as [k2|];
    [|apply transforms_ret].
  destruct (env !! Js.lit "EXA_API_KEY") as [k3|]; [|apply transforms_ret].
  destruct (_ || _); [apply transforms_ret|].
  unfold Server.rerun_try, Server.rerun_catch.
  apart_tac HP; apply fetch_post_timers.
Qed.

End more_never_facts.

(** ** The background poll *)

Section more_poll_facts.
Context `{Host}.

Lemma poll_sends_one job attempts w :
  sent (Server.poll job attempts w).2 = sent w ++ [Server.poll_request job]
  ∧ timers (Server.poll job attempts w).2 = timers w
  ∧ posts (Server.poll job attempts w).2 = posts w.
Proof.
  set (Q := λ v, sent v = sent w ++ [Server.poll_request job]
                  ∧ timers v = timers w ∧ posts v = posts w).
  assert (∀ v v', posts v' = posts v → gets v' = gets v → sent v' = sent v →
            timers v' = timers v →
            Q v → Q v') as HQ.
  { unfold Q. intros v v' -> _ -> ->. done. }
  assert (transforms (λ v, v = w) Q (Server.poll job attempts)) as Ht;
    [|by apply Ht].
  unfold Server.poll, Server.poll_try.
  apply transforms_bind.
  - apply transforms_try_catch; [|intros ?; apply transforms_ret].
    apply transforms_bind.
    { intros v ->. unfold Server.fetch_get, Q. simpl.
      by destruct (gets w) as [|[e|r] rest]. }
    intros res. destruct (negb (Response.ok res)); [apply transforms_ret|].
    apply transforms_bind; [apply stable_await|]. intros data.
    destruct (PollData.dataset data) as [[|item items]|];
      try apply transforms_ret.
    destruct (bool_decide _); [|apply transforms_ret].
    apart_tac HQ.
  - intros [|]; [apply transforms_ret|].
    destruct (decide _); [apply transforms_ret|]. apart_tac HQ.
Qed.

Lemma poll_chain_sends job : ∀ fuel attempts w,
  ∃ n, (n ≤ fuel)%nat ∧ ((0 < fuel)%nat → (0 < n)%nat)
    ∧ sent (Server.poll_chain fuel job attempts w).2
      = sent w ++ replicate n (Server.poll_request job)
    ∧ timers (Server.poll_chain fuel job attempts w).2 = timers w
    ∧ posts (Server.poll_chain fuel job attempts w).2 = posts w.
Proof.
  induction fuel as [|fuel IH]; intros attempts w; simpl.
  - exists 0%nat. simpl. rewrite app_nil_r. repeat split; [done|lia].
  - destruct (poll_sends_one job (S attempts) w) as (Hs & Ht & Hp).
    unfold mbind, M_bind.
    destruct (Server.poll job (S attempts) w) as [[e|x] w1]; simpl in *.
    + destruct e;
        try (exists 1%nat; simpl; repeat split; [lia|lia|done|done|done]).
      destruct (IH (S attempts) w1) as (n & Hn & _ & Hs' & Ht' & Hp').
      exists (S n). rewrite Hs', Ht', Hp', Hs, <- app_assoc. simpl.
      repeat split; try done; lia.
    + exists 1%nat. simpl. repeat split; [lia|lia|done|done|done].
Qed.

(** X23: the poll is bounded.  In every world, the chain of timer
    callbacks started by one [pollWebsetDataset] call ends: a callback asks
    the engine once, and the chain sends at least one and at most thirty
    requests, all of them the same [GET] of the echo; it arms no timer that
    outlives it and sends nothing else. *)
Theorem run_poll_is_bounded w job :
  ∃ n, (1 ≤ n ≤ Server.MAX_ATTEMPTS)%nat
    ∧ sent (Server.run_poll job w).2
      = sent w ++ replicate n (Server.poll_request job)
    ∧ (Server.run_poll job w).1 ≠ Ok Server.Rescheduled
    ∧ timers (Server.run_poll job w).2 = timers w
    ∧ posts (Server.run_poll job w).2 = posts w.
Proof.
  unfold Server.run_poll.
  destruct (poll_chain_sends job Server.MAX_ATTEMPTS 0 w)
    as (n & Hn & Hpos & Hs & Ht & Hp).
  exists n. split; [|split; [done|split; [|done]]].
  - specialize (Hpos ltac:(unfold Server.MAX_ATTEMPTS; lia)). lia.
  - apply poll_chain_ends; unfold Server.MAX_ATTEMPTS; lia.
Qed.

(** X24: the poll stores a completed dataset.  The poll is one for an echo
    whose identifier makes [{echoId}.json] the name of an entry of
    [echoes/] (no [/], no NUL, well formed, not too long; the poll does not
    check it).  When the first answer of the engine is a success response
    with status [completed] and a non-empty dataset, the poll writes the
    dataset to [dataset.json] of the run and to the entry [{echoId}.json]
    of [echoes/], completes the webset step, and stops after this one
    request. *)
Theorem poll_stores_completed_dataset w job m d r rest data item items :
  ledger_at w (PollJob.runId job) m →
  Js.lit "webset" ∈ StepMeta.name <$> RunMeta.steps m →
  names_dataset_file (PollJob.echoId job) →
  echoes w = Some d →
  gets w = Resolved r :: rest →
  Response.ok r = true →
  Response.json r = Ok data →
  PollData.websetStatus data = Some (Js.lit "completed") →
  PollData.dataset data = Some (item :: items) →
  ∃ w' m',
    Server.run_poll job w = (Ok Server.Returned, w')
    ∧ Runs.run_file w' (PollJob.runId job) (Js.lit "dataset.json")
      = Some (Json (DValue (JArr (item :: items))))
    ∧ echoes w'
      = Some (<[Memory.json_name (PollJob.echoId job) :=
                  Json (DValue (JArr (item :: items)))]> d)
    ∧ Runs.readMeta (PollJob.runId job) w' = (Ok (Some m'), w')
    ∧ step_status_in m' (Js.lit "webset") = Some Completed
    ∧ sent w' = sent w ++ [Server.poll_request job]
    ∧ gets w' = rest
    ∧ timers w' = timers w.
Proof.
  intros Hl Hs%find_step_elem_of Hname Hd Hg Hok Hjson Hst Hds.
  set (req := Server.poll_request job).
  set (w1 := Server.with_gets rest (Server.with_sent req w)).
  assert (ledger_at w1 (PollJob.runId job) m) as Hl1
    by (eapply ledger_at_transfer; [exact Hl|done|apply Hl]).
  destruct (writeArtifact_step w1 (PollJob.runId job) "dataset.json"
              (Json (DValue (JArr (item :: items)))) m Hl1 eq_refl eq_refl)
    as (p & w2 & E2 & Hl2 & Hc2 & _ & _ & F2).
  destruct (updateStep_known w2 (PollJob.runId job) (Js.lit "webset")
              Completed None m Hl2 Hs)
    as (w3 & E3 & Hl3 & F3 & [G3 _] & _).
  assert (echoes w3 = Some d) as Hd3.
  { destruct F3 as (_ & -> & _). by destruct F2 as (_ & -> & _). }
  assert (Server.poll_try job w
          = (Ok true,
             with_echoes
               (λ _, Some (<[Memory.json_name (PollJob.echoId job) :=
                               Json (DValue (JArr (item :: items)))]> d))
               w3)) as Htry.
  { unfold Server.poll_try, try_catch, mbind at 1, M_bind at 1.
    fold req. rewrite fetch_get_cases, Hg. fold w1. rewrite Hok.
    cbn [negb]. cbv beta iota. rewrite Hjson. unfold Server.await.
    rewrite (bind_ok (mret data) _ w1 data w1 eq_refl). rewrite Hds, Hst.
    rewrite bool_decide_eq_true_2 by done.
    rewrite (bind_ok _ _ _ _ _ E2), (bind_ok _ _ _ _ _ E3).
    unfold mbind, M_bind.
    rewrite (write_echo_file_quiet w3) by (exact Hname || apply Hl3).
    by rewrite Hd3. }
  eexists _, _. split.
  { unfold Server.run_poll. cbn [Server.poll_chain Server.MAX_ATTEMPTS].
    unfold Server.poll. rewrite (bind_ok _ _ _ _ _ (bind_ok _ _ _ _ _ Htry)).
    reflexivity. }
  apply frame_outside in F2, F3.
  destruct F2 as (_ & _ & Eg2 & Es2 & Et2).
  destruct F3 as (_ & _ & Eg3 & Es3 & Et3).
  split.
  { change (Runs.run_file w3 (PollJob.runId job) (Js.lit "dataset.json")
            = Some (Json (DValue (JArr (item :: items))))).
    by rewrite G3 by (intros E; by vm_compute in E). }
  split; [done|].
  split.
  { eapply (ledger_at_transfer w3); [exact Hl3|done|apply Hl3]. }
  split.
  { rewrite step_status_apply_update by done. by rewrite decide_True. }
  simpl. by rewrite Es3, Es2, Eg3, Eg2, Et3, Et2.
Qed.

(** X25: when the engine never answers the poll with a non-success
    status, the webset step ends [completed]: either a completed dataset
    arrived, or the thirtieth attempt marked the step done without one.
    The poll is one for an echo whose dataset file [{echoId}.json] is the
    name of an entry of [echoes/] (as in X24): the write of any other name
    leaves [echoes/], and where it lands the record of the run may be. *)
Theorem poll_completes_webset_unless_refused w job m :
  ledger_at w (PollJob.runId job) m →
  Js.lit "webset" ∈ StepMeta.name <$> RunMeta.steps m →
  names_dataset_file (PollJob.echoId job) →
  Forall no_refusal (gets w) →
  ∃ e w' m',
    Server.run_poll job w = (Ok e, w')
    ∧ e ≠ Server.Rescheduled
    ∧ Runs.readMeta (PollJob.runId job) w' = (Ok (Some m'), w')
    ∧ step_status_in m' (Js.lit "webset") = Some Completed.
Proof.
  intros Hl Hs%find_step_elem_of Hname Hg.
  by apply (run_poll_completes_without_refusal job w m).
Qed.

End more_poll_facts.

(** ** The resolution of the [.loretech] directory *)

Section more_path_facts.

Lemma walk_up_finds ex : ∀ cwd k,
  (0 < k ≤ length cwd)%nat →
  ex (Paths.join (drop k cwd) ".loretech") = true →
  (∀ j, (0 < j < k)%nat →
     ex (Paths.join (drop j cwd) ".loretech") = false
     ∧ ex (Paths.join (drop j cwd) ".git") = false) →
  Paths.walk_up ex cwd = Some (Paths.join (drop k cwd) ".loretech").
Proof.
  induction cwd as [|s parent IH]; intros k Hk Hex Hno; simpl in Hk; [lia|].
  destruct k as [|[|k]]; [lia| |].
  - simpl in *. rewrite drop_0 in Hex. by rewrite Hex.
  - simpl. destruct (Hno 1%nat ltac:(lia)) as [Hl Hg]. simpl in Hl, Hg.
    rewrite drop_0 in Hl, Hg. rewrite Hl, Hg.
    apply (IH (S k)); [lia|done|].
    intros j Hj. apply (Hno (S j)). lia.
Qed.

Lemma walk_up_stops ex : ∀ cwd,
  (∀ j, (0 < j ≤ length cwd)%nat →
     ex (Paths.join (drop j cwd) ".loretech") = false) →
  Paths.walk_up ex cwd = None.
Proof.
  induction cwd as [|s parent IH]; intros Hno; simpl; [done|].
  pose proof (Hno 1%nat ltac:(simpl; lia)) as Hl. simpl in Hl.
  rewrite drop_0 in Hl. rewrite Hl.
  destruct (ex (Paths.join parent ".git")); [done|].
  apply IH. intros j Hj. apply (Hno (S j)). simpl. lia.
Qed.

Lemma walk_up_stops_at_git ex : ∀ cwd k,
  (0 < k ≤ length cwd)%nat →
  ex (Paths.join (drop k cwd) ".git") = true →
  (∀ j, (0 < j ≤ k)%nat →
     ex (Paths.join (drop j cwd) ".loretech") = false) →
  Paths.walk_up ex cwd = None.
Proof.
  induction cwd as [|s parent IH]; intros k Hk Hgit Hno; simpl in Hk; [lia|].
  simpl. pose proof (Hno 1%nat ltac:(lia)) as Hl. simpl in Hl.
  rewrite drop_0 in Hl. rewrite Hl.
  destruct (ex (Paths.join parent ".git")) eqn:Hg; [done|].
  destruct k as [|[|k]]; [lia| |].
  - simpl in Hgit. rewrite drop_0 in Hgit. congruence.
  - apply (IH (S k)); [lia|done|].
    intros j Hj. apply (Hno (S j)). lia.
Qed.

(** X26: [findLoretechDir] takes the nearest [.loretech]: the one of the
    working directory, or else of the closest ancestor that has one, as
    long as no directory strictly between the two holds a [.git].  A
    [.git] in the working directory itself is not looked at. *)
Theorem findLoretechDir_takes_nearest ex cwd home k :
  (k ≤ length cwd)%nat →
  ex (Paths.join (drop k cwd) ".loretech") = true →
  (∀ j, (j < k)%nat → ex (Paths.join (drop j cwd) ".loretech") = false) →
  (∀ j, (0 < j < k)%nat → ex (Paths.join (drop j cwd) ".git") = false) →
  Paths.findLoretechDir ex cwd home = Paths.join (drop k cwd) ".loretech".
Proof.
  intros Hk Hex Hno Hgit. unfold Paths.findLoretechDir.
  destruct k as [|k].
  - rewrite drop_0 in Hex. rewrite Hex. by rewrite drop_0.
  - pose proof (Hno 0%nat ltac:(lia)) as H0. rewrite drop_0 in H0.
    rewrite H0. rewrite (walk_up_finds ex cwd (S k)); [done|lia|done|].
    intros j Hj. split; [apply Hno; lia|apply Hgit; lia].
Qed.

(** X27: [findLoretechDir] falls back to the home directory when the walk
    finds nothing: no directory from the working directory up to the root
    has a [.loretech], or the walk meets a [.git] in an ancestor before it
    meets a [.loretech]; what lies above that ancestor is not looked at. *)
Theorem findLoretechDir_falls_back_to_home ex cwd home :
  (∀ j, (j ≤ length cwd)%nat →
     ex (Paths.join (drop j cwd) ".loretech") = false)
  ∨ (∃ k, (0 < k ≤ length cwd)%nat
       ∧ ex (Paths.join (drop k cwd) ".git") = true
       ∧ ∀ j, (j ≤ k)%nat →
           ex (Paths.join (drop j cwd) ".loretech") = false) →
  Paths.findLoretechDir ex cwd home = Paths.join home ".loretech".
Proof.
  intros Hcase. unfold Paths.findLoretechDir.
  assert (ex (Paths.join cwd ".loretech") = false) as ->.
  { destruct Hcase as [Hno|(k & Hk & _ & Hno)];
      specialize (Hno 0%nat ltac:(lia)); by rewrite drop_0 in Hno. }
  destruct Hcase as [Hno|(k & Hk & Hgit & Hno)].
  - rewrite walk_up_stops; [done|]. intros j Hj. apply Hno. lia.
  - rewrite (walk_up_stops_at_git ex cwd k); [done|done|done|].
    intros j Hj. apply Hno. lia.
Qed.

End more_path_facts.

Lemma findLoretechDir_takes_nearest_witness :
  Paths.findLoretechDir project_files working_dir home_dir
  = Paths.join project_dir ".loretech".
Proof.
  apply (findLoretechDir_takes_nearest project_files working_dir home_dir 2).
  - vm_compute. lia.
  - vm_compute. reflexivity.
  - intros j Hj. destruct j as [|[|j]]; [reflexivity|reflexivity|lia].
  - intros j Hj. destruct j as [|[|j]]; [lia|reflexivity|lia].
Defined.

Lemma findLoretechDir_falls_back_to_home_witness :
  Paths.findLoretechDir nested_repository_files working_dir home_dir
  = Paths.join home_dir ".loretech".
Proof.
  apply (findLoretechDir_falls_back_to_home nested_repository_files
           working_dir home_dir).
  right. exists 1%nat. split; [vm_compute; lia|]. split; [reflexivity|].
  intros j Hj. destruct j as [|[|j]]; [reflexivity|reflexivity|lia].
Defined.

Section more_isolation_facts.
Context `{Host}.

Lemma stable_read_files rid (P : World → Prop) d files :
  (∀ w w',
     posts w' = posts w → gets w' = gets w → sent w' = sent w →
     timers w' = timers w →
     (∀ r, r ≠ rid → runs_dir w' !! r = runs_dir w !! r) →
     P w → P w') →
  ∀ refs w, P w → P (Memory.read_files d files refs w).2.
Proof.
  intros HP. induction files as [|[file c] files IH]; intros refs w Hw;
    simpl; [done|].
  destruct (negb _); [by apply IH|].
  pose proof (stable_io_point rid P HP w Hw) as Hw1.
  destruct (io_point w) as [[[]|e] w1]; simpl in *; [|done].
  destruct (Memory.parse_echo_file c); by apply IH.
Qed.

Lemma stable_readEchoRefs rid (P : World → Prop) :
  (∀ w w',
     posts w' = posts w → gets w' = gets w → sent w' = sent w →
     timers w' = timers w →
     (∀ r, r ≠ rid → runs_dir w' !! r = runs_dir w !! r) →
     P w → P w') →
  transforms P P Memory.readEchoRefs.
Proof.
  intros HP. unfold Memory.readEchoRefs.
  apply transforms_bind; [apply (stable_ensureEchoesDir _ _ HP)|].
  intros _ w Hw. unfold mbind, M_bind, get_world.
  destruct (echoes w) as [d|]; [|done]. unfold Memory.read_dir.
  pose proof (stable_io_point rid P HP w Hw) as Hw1.
  destruct (io_point w) as [[[]|e] w1]; simpl in *; [|done].
  pose proof (stable_read_files rid P d (map_to_list d) HP [] w1 Hw1) as Hw2.
  by destruct (Memory.read_files d (map_to_list d) [] w1).
Qed.

Lemma stable_with_authorization rid (P : World → Prop) args headers :
  (∀ w w',
     posts w' = posts w → gets w' = gets w → sent w' = sent w →
     timers w' = timers w →
     (∀ r, r ≠ rid → runs_dir w' !! r = runs_dir w !! r) →
     P w → P w') →
  transforms P P (Server.with_authorization args headers).
Proof.
  intros HP. unfold Server.with_authorization.
  destruct (Js.truthy_opt _); [|apply transforms_ret].
  apply transforms_bind; [by apply (stable_readEchoRefs rid)|].
  intros refs. destruct (List.find _ refs) as [r|]; [|apply transforms_ret].
  destruct (Js.truthy _); apply transforms_ret.
Qed.

Lemma other_run_outside (rid r : str) D :
  r ≠ rid →
  ∀ w w',
    posts w' = posts w → gets w' = gets w → sent w' = sent w →
    timers w' = timers w →
    (∀ r', r' ≠ rid → runs_dir w' !! r' = runs_dir w !! r') →
    runs_dir w !! r = D → runs_dir w' !! r = D.
Proof. intros Hr w w' _ _ _ _ Hruns <-. by apply Hruns. Qed.

Lemma fetch_post_runs r D req :
  transforms (λ w, runs_dir w !! r = D) (λ w, runs_dir w !! r = D)
             (Server.fetch_post req).
Proof.
  intros w HP. unfold Server.fetch_post. simpl.
  by destruct (posts w) as [|[e|res] rest].
Qed.

Lemma transforms_weaken {A} (P Q : World → Prop) (m : M A) :
  (∀ v, P v → Q v) → transforms Q Q m → transforms P Q m.
Proof. intros HPQ Hm v Hv. by apply Hm, HPQ. Qed.

Lemma transforms_bind_pre {A B} (P Q : World → Prop) (m : M A)
    (f : A → M B) :
  (∀ v, P v → Q v) →
  transforms P P m → (∀ a, transforms P Q (f a)) → transforms P Q (m ≫= f).
Proof.
  intros HPQ Hm Hf w HP. specialize (Hm w HP). unfold mbind, M_bind.
  destruct (m w) as [[a|e] w1]; simpl in *; [by apply Hf|by apply HPQ].
Qed.

(** The continuation of a [fetch] runs on the response the engine had
    next. *)
Lemma transforms_fetch_post {B} (P Q : World → Prop) req
    (k : Response.t EchoData.t → M B) (ok : Response.t EchoData.t → Prop) :
  (∀ v res rest, P v → posts v = Resolved res :: rest → ok res) →
  transforms P Q (Server.fetch_post req) →
  (∀ res, ok res → transforms Q Q (k res)) →
  transforms P Q (Server.fetch_post req ≫= k).
Proof.
  intros Hok Hf Hk v Hv. specialize (Hf v Hv). unfold mbind, M_bind.
  destruct (Server.fetch_post req v) as [[res|e] v1] eqn:E; simpl in *;
    [|done].
  apply Hk; [|done]. unfold Server.fetch_post in E. simpl in E.
  destruct (posts v) as [|[e|res'] rest] eqn:Hp; simplify_eq.
  by apply (Hok v res rest).
Qed.

(** X28: the two tools write to their own run directory only.  Take any
    world in which the next answer of the engine, if it is a success with
    a payload that can be read, names an echo file (its [echoId] makes
    [{echoId}.md] the name of an entry of [echoes/]: no [/], no NUL, well
    formed, not too long).  Then, whatever the storage layer does and
    however the call ends, the directory of any other run is after the
    call what it was before; so a replay under a fresh identifier never
    changes the run it replays.  (The handlers pass the [echoId] of the
    payload to [path.join] unchecked: with a [/] in it the echo file is
    written outside [echoes/], and nothing is said here about where.) *)
Theorem tools_write_only_their_run w args replay runId r :
  r ≠ runId →
  answers_with_file_name w →
  runs_dir (Server.loretech_echo args runId w).2 !! r = runs_dir w !! r
  ∧ runs_dir (Server.loretech_rerun replay runId w).2 !! r = runs_dir w !! r.
Proof.
  intros Hr Hname.
  set (Q := λ v : World, runs_dir v !! r = runs_dir w !! r).
  set (P := λ v : World, Q v ∧ posts v = posts w).
  set (ok := λ res : Response.t EchoData.t,
         ∀ data, Response.ok res = true → Response.json res = Ok data →
                 names_echo_file (EchoData.echoId data)).
  pose proof (other_run_outside runId r (runs_dir w !! r) Hr) as HQ.
  assert (∀ v v',
            posts v' = posts v → gets v' = gets v → sent v' = sent v →
            timers v' = timers v →
            (∀ r', r' ≠ runId → runs_dir v' !! r' = runs_dir v !! r') →
            P v → P v') as HP.
  { intros v v' Ep Eg Es Et Hruns [HQv Hpv].
    split; [by apply (HQ v)|congruence]. }
  assert (∀ v, P v → Q v) as HPQ by (by intros v [? _]).
  assert (∀ v res rest, P v → posts v = Resolved res :: rest → ok res)
    as Hlink.
  { intros v res rest [_ Hpv] Hp data Hok Hj.
    apply (Hname res rest data); congruence. }
  assert (∀ req, transforms P Q (Server.fetch_post req)) as Hfetch.
  { intros req v [HQv _]. by apply fetch_post_runs. }
  assert (P w) as Hw by done.
  split.
  - assert (transforms P Q (Server.loretech_echo args runId)) as Ht;
      [|by apply Ht].
    unfold Server.loretech_echo.
    apply (transforms_bind_pre _ _ _ _ HPQ); [apply (stable_loadEnv _ _ HP)|].
    intros env.
    destruct (env !! Js.lit "LORETECH_API_KEY") as [k1|];
      [|apply (transforms_weaken _ _ _ HPQ), transforms_ret].
    destruct (env !! Js.lit "OPENROUTER_API_KEY") as [k2|];
      [|apply (transforms_weaken _ _ _ HPQ), transforms_ret].
    destruct (env !! Js.lit "EXA_API_KEY") as [k3|];
      [|apply (transforms_weaken _ _ _ HPQ), transforms_ret].
    destruct (_ || _); [apply (transforms_weaken _ _ _ HPQ), transforms_ret|].
    do 5 (apply (transforms_bind_pre _ _ _ _ HPQ);
          [by stable_tac HP|intros ?]).
    apply transforms_try_catch;
      [|intros e; unfold Server.echo_catch; by stable_tac HQ].
    unfold Server.echo_try.
    apply (transforms_bind_pre _ _ _ _ HPQ);
      [by apply (stable_with_authorization runId)|]. intros hs.
    apply (transforms_fetch_post P Q _ _ ok Hlink (Hfetch _)).
    intros res Hres. destruct (Response.ok res) eqn:Hok; cbn [negb];
      [|by stable_tac HQ].
    destruct (Response.json res) as [data|e] eqn:Hj; unfold Server.await;
      [apply transforms_ret_bind|apply transforms_throw_bind].
    pose proof (Hres data Hok Hj) as Hn.
    change (names_echo_file
              (EchoRef.echoId (Server.echo_ref_of data))) in Hn.
    unfold Server.pollWebsetDataset.
    stable_tac HQ; by intros v Hv.
  - assert (transforms P Q (Server.loretech_rerun replay runId)) as Ht;
      [|by apply Ht].
    unfold Server.loretech_rerun.
    apply (transforms_bind_pre _ _ _ _ HPQ); [apply (stable_readMeta _ _ HP)|].
    intros [m|]; [|apply (transforms_weaken _ _ _ HPQ), transforms_ret].
    apply (transforms_bind_pre _ _ _ _ HPQ);
      [apply (stable_readArtifact _ _ HP)|].
    intros [raw|]; [|apply (transforms_weaken _ _ _ HPQ), transforms_ret].
    destruct (Server.truthy_content raw);
      [|apply (transforms_weaken _ _ _ HPQ), transforms_ret].
    apply (transforms_bind_pre _ _ _ _ HPQ).
    { destruct raw as [s|[m'|c|v]]; simpl; first
        [ apply transforms_ret | apply stable_await ]. }
    intros original.
    apply (transforms_bind_pre _ _ _ _ HPQ); [apply (stable_loadEnv _ _ HP)|].
    intros env.
    destruct (env !! Js.lit "LORETECH_API_KEY") as [k1|];
      [|apply (transforms_weaken _ _ _ HPQ), transforms_ret].
    destruct (env !! Js.lit "OPENROUTER_API_KEY") as [k2|];
      [|apply (transforms_weaken _ _ _ HPQ), transforms_ret].
    destruct (env !! Js.lit "EXA_API_KEY") as [k3|];
      [|apply (transforms_weaken _ _ _ HPQ), transforms_ret].
    destruct (_ || _); [apply (transforms_weaken _ _ _ HPQ), transforms_ret|].
    do 5 (apply (transforms_bind_pre _ _ _ _ HPQ);
          [by stable_tac HP|intros ?]).
    apply transforms_try_catch;
      [|intros e; unfold Server.rerun_catch; by stable_tac HQ].
    unfold Server.rerun_try.
    apply (transforms_fetch_post P Q _ _ ok Hlink (Hfetch _)).
    intros res Hres. destruct (Response.ok res) eqn:Hok; cbn [negb];
      [|by stable_tac HQ].
    destruct (Response.json res) as [data|e] eqn:Hj; unfold Server.await;
      [apply transforms_ret_bind|apply transforms_throw_bind].
    pose proof (Hres data Hok Hj) as Hn.
    change (names_echo_file
              (EchoRef.echoId (Server.echo_ref_of data))) in Hn.
    by stable_tac HQ.
Qed.

(** X29: the credential of an update, with a quiet storage layer.  Without
    an [echoId] in the arguments (or with an empty one) the headers stay as
    they are and [echoes/] is not read.  With an [echoId], [readEchoRefs]
    is called: when no reference of its list has that identifier the
    headers stay as they are; when one has, an [Authorization] header is
    added at the end, and its bearer key is the private key, which is not
    empty, of the first reference of the list with that very identifier.
    So the key of another echo is never sent. *)
Theorem with_authorization_uses_own_key w args headers :
  io_faults w = [] →
  ∃ refs w1,
    Memory.readEchoRefs w = (Ok refs, w1)
    ∧ (Js.truthy_opt (EchoArgs.echoId args) = false →
       Server.with_authorization args headers w = (Ok headers, w))
    ∧ (Js.truthy_opt (EchoArgs.echoId args) = true →
       (∀ r, r ∈ refs → Some (EchoRef.echoId r) ≠ EchoArgs.echoId args) →
       Server.with_authorization args headers w = (Ok headers, w1))
    ∧ (∀ before r after,
         refs = before ++ r :: after →
         Some (EchoRef.echoId r) = EchoArgs.echoId args →
         (∀ r', r' ∈ before →
            Some (EchoRef.echoId r') ≠ EchoArgs.echoId args) →
         Js.truthy (EchoRef.privateKey r) = true
         ∧ Server.with_authorization args headers w
           = (Ok (headers ++ [ (Js.lit "Authorization",
                                Js.lit "Bearer " ++ EchoRef.privateKey r) ]),
              w1)).
Proof.
  intros Hq.
  destruct (readEchoRefs_listing w Hq) as (w1 & d & _ & _ & _ & Hr).
  set (refs := Memory.sort_by _ _) in Hr.
  assert (∀ r, r ∈ refs →
            Js.truthy (EchoRef.echoId r) = true
            ∧ Js.truthy (EchoRef.privateKey r) = true) as Hkeys.
  { intros r. unfold refs. rewrite sort_by_Permutation, list_elem_of_omap.
    intros (fc & _ & (text & r0 & _ & _ & Hp & ->)%listed_entry_Some).
    apply parseEchoRef_Some in Hp as (Hid & Hpk & _).
    by rewrite (proj1 (listed_fields w1 d r0)),
      (proj2 (listed_fields w1 d r0)). }
  exists refs, w1. split; [exact Hr|]. unfold Server.with_authorization.
  split; [by intros ->|]. split.
  - intros -> Hnone. rewrite (bind_ok _ _ _ _ _ Hr).
    destruct (List.find _ refs) as [r|] eqn:Hfind; [|done].
    apply find_some in Hfind as [Hin Hmatch].
    apply bool_decide_eq_true in Hmatch. apply list_elem_of_In in Hin.
    by destruct (Hnone r Hin).
  - intros before r after Hrefs Hid Hbefore.
    assert (r ∈ refs) as Hin
      by (rewrite Hrefs, elem_of_app, elem_of_cons; auto).
    destruct (Hkeys r Hin) as [Htid Htpk]. split; [exact Htpk|].
    assert (Js.truthy_opt (EchoArgs.echoId args) = true) as ->
      by (by rewrite <- Hid).
    rewrite (bind_ok _ _ _ _ _ Hr).
    assert (List.find (λ r0, bool_decide (Some (EchoRef.echoId r0)
                                          = EchoArgs.echoId args)) refs
            = Some r) as ->.
    { rewrite Hrefs. clear Hrefs Hin. induction before as [|b before IH];
        simpl.
      - by rewrite bool_decide_eq_true_2.
      - rewrite bool_decide_eq_false_2
          by (apply Hbefore, elem_of_cons; by left).
        apply IH. intros r' Hr'. apply Hbefore, elem_of_cons. by right. }
    by rewrite Htpk.
Qed.

End more_isolation_facts.

Lemma world_replayable_answers : answers_with_file_name world_replayable.
Proof.
  intros r rest data Hp _ Hj. vm_compute in Hp. injection Hp as <- <-.
  vm_compute in Hj. injection Hj as <-. vm_compute. reflexivity.
Defined.

Lemma tools_write_only_their_run_witness :
  runs_dir (Server.loretech_rerun (H := example_host) rerun_args run_2
              world_replayable).2 !! run_1
  = runs_dir world_replayable !! run_1.
Proof.
  apply (tools_write_only_their_run (H := example_host) world_replayable
           example_args rerun_args run_2 run_1).
  - intros E. vm_compute in E. discriminate E.
  - exact world_replayable_answers.
Defined.

Lemma with_authorization_uses_own_key_witness :
  Server.with_authorization (H := example_host) update_args [] world_catalog
  = (Ok [ (Js.lit "Authorization", Js.lit "Bearer pk_b2") ], world_catalog).
Proof.
  destruct (with_authorization_uses_own_key (H := example_host) world_catalog
              update_args [] eq_refl)
    as (refs & w1 & Hr & _ & _ & Hfound).
  vm_compute in Hr. injection Hr as <- <-.
  refine (proj2 (Hfound [] _ _ eq_refl eq_refl _)).
  intros r' Hr'. destruct (not_elem_of_nil _ Hr').
Defined.

Section more_replay_refusal.
Context `{Host}.

(** X30: when the engine answers the request of [loretech_rerun] with a
    non-success response, the replay returns an error and the new run has
    its context step [completed], its later steps [pending] and no echo.
    When the text of the response can be read, the error carries the
    status and the text, the sources step is [failed] and the run is
    [failed] with the error of the engine recorded.  When reading the text
    fails, the [catch] block takes over: the error carries the message of
    that failure, which [completeRun] records (the run is [failed] when
    the message is not empty), and the sources step stays [running]. *)
Theorem loretech_rerun_engine_refusal w args newRunId loretechKey
    openrouterKey exaKey m0 original r rest :
  io_faults w = [] →
  has_keys w loretechKey openrouterKey exaKey →
  Runs.readMeta (RerunArgs.runId args) w = (Ok (Some m0), w) →
  Runs.run_file w (RerunArgs.runId args) (Js.lit "context.json")
  = Some (Json (DContext original)) →
  posts w = Resolved r :: rest →
  Response.ok r = false →
  ∃ w' m,
    Server.loretech_rerun args newRunId w
    = (Ok (ToolResult.mk
             match Response.text r with
             | Ok text =>
                 Js.lit "Rerun failed (" ++ Js.of_nat (Response.status r)
                 ++ Js.lit "): " ++ text
             | Throw e => Js.lit "Rerun failed: " ++ e
             end true), w')
    ∧ Runs.readMeta newRunId w' = (Ok (Some m), w')
    ∧ RunMeta.status m
      = match Response.text r with
        | Ok _ => RunFailed
        | Throw e => if Js.truthy e then RunFailed else RunCompleted
        end
    ∧ RunMeta.error m
      = match Response.text r with
        | Ok text => Some (Server.engine_error r text)
        | Throw e => Server.keep (Some e)
        end
    ∧ RunMeta.echoId m = None
    ∧ step_status_in m (Js.lit "context") = Some Completed
    ∧ step_status_in m (Js.lit "sources")
      = Some match Response.text r with
             | Ok _ => Failed
             | Throw _ => Running
             end
    ∧ Forall (λ name, step_status_in m name = Some Pending)
        (Js.lit <$> ["compose"; "store"; "record"; "webset"]%string)
    ∧ echoes w' = echoes w
    ∧ posts w' = rest
    ∧ timers w' = timers w.
Proof.
  intros Hq (txt & He & Hk1 & Hk2 & Hk3 & Ht1 & Ht2 & Ht3) Hm0 Hc0 Hp Hok.
  unfold Server.loretech_rerun.
  rewrite (bind_ok _ _ _ _ _ Hm0).
  rewrite (bind_ok _ _ _ _ _ (readArtifact_quiet _ _ _ _ Hq Hc0)).
  cbn [Server.truthy_content Server.parse_context].
  rewrite (bind_ok _ _ _ original w eq_refl).
  rewrite (bind_ok _ _ _ _ _ (loadEnv_quiet w txt Hq He)).
  rewrite Hk1, Hk2, Hk3.
  destruct (Js.truthy loretechKey); [|done].
  destruct (Js.truthy openrouterKey); [|done].
  destruct (Js.truthy exaKey); [|done]. cbn [negb orb].
  destruct (capture_context_quiet
              (try_catch
                 (Server.rerun_try args original loretechKey openrouterKey
                    exaKey newRunId)
                 (Server.rerun_catch newRunId))
              w newRunId
              (Json (DContext (Server.rerun_artifact args original))) Hq)
    as (w5 & t0 & t1 & t2 & t3 & Hpre & Hl5 & Hc5 & Hf5).
  rewrite Hpre. clear Hpre.
  pose proof Hf5 as (_ & Ec5 & _).
  apply frame_outside in Hf5. destruct Hf5 as (Ee5 & Ep5 & Eg5 & Es5 & Et5).
  set (req := Request.mk (Js.lit "POST") Server.echo_url
                (Server.engine_headers loretechKey openrouterKey exaKey)
                (Some (Server.rerun_body args original))).
  set (w7 := Server.with_posts rest (Server.with_sent req w5)).
  assert (ledger_at w7 newRunId (started_meta newRunId t0 t1 t2 t3)) as Hl7
    by (apply (ledger_at_transfer w5); [done|done|apply Hl5]).
  destruct (Response.text r) as [text|e] eqn:Htext.
  - destruct (updateStep_known w7 newRunId (Js.lit "sources") Failed None _
                Hl7)
      as (w8 & E8 & Hl8 & F8 & _); [vm_compute; eauto|].
    destruct (completeRun_known w8 newRunId None
                (Some (Server.engine_error r text)) _ Hl8)
      as (w9 & E9 & Hl9 & F9 & _).
    assert (Server.rerun_try args original loretechKey openrouterKey exaKey
              newRunId w5
            = (Ok (ToolResult.mk
                     (Js.lit "Rerun failed ("
                      ++ Js.of_nat (Response.status r)
                      ++ Js.lit "): " ++ text) true), w9)) as Htry.
    { unfold Server.rerun_try. fold req.
      erewrite bind_ok; [|apply fetch_post_resolved; by rewrite Ep5].
      fold w7. rewrite Hok. cbn [negb]. rewrite Htext.
      unfold Server.await. rewrite (bind_ok _ _ _ text _ eq_refl).
      by rewrite (bind_ok _ _ _ _ _ E8), (bind_ok _ _ _ _ _ E9). }
    rewrite (try_catch_ok _ _ _ _ _ Htry).
    exists w9. eexists. split; [reflexivity|]. split; [exact (proj2 Hl9)|].
    split; [done|]. split; [done|]. split; [done|].
    split; [clear; by vm_compute|]. split; [clear; by vm_compute|].
    split.
    { repeat (apply Forall_cons_2 || apply Forall_nil_2); clear;
        by vm_compute. }
    pose proof F9 as (_ & Ec9 & _). pose proof F8 as (_ & Ec8 & _).
    apply frame_outside in F8, F9.
    destruct F8 as (_ & Ep8 & _ & _ & Et8).
    destruct F9 as (_ & Ep9 & _ & _ & Et9).
    split; [by rewrite Ec9, Ec8|].
    split; [by rewrite Ep9, Ep8|].
    by rewrite Et9, Et8; simpl; rewrite Et5.
  - assert (Server.rerun_try args original loretechKey openrouterKey exaKey
              newRunId w5 = (Throw e, w7)) as Htry.
    { unfold Server.rerun_try. fold req.
      erewrite bind_ok; [|apply fetch_post_resolved; by rewrite Ep5].
      fold w7. rewrite Hok. cbn [negb]. rewrite Htext. reflexivity. }
    rewrite (try_catch_throw _ _ _ _ _ Htry). unfold Server.rerun_catch.
    destruct (completeRun_known w7 newRunId None (Some e) _ Hl7)
      as (w8 & E8 & Hl8 & F8 & _).
    rewrite (bind_ok _ _ _ _ _ E8).
    pose proof F8 as (_ & Ec8 & _).
    apply frame_outside in F8. destruct F8 as (_ & Ep8 & _ & _ & Et8).
    eexists _, _. split; [reflexivity|]. split; [exact (proj2 Hl8)|].
    split; [done|]. split.
    { simpl. unfold Server.keep. simpl. by destruct (Js.truthy e). }
    split; [done|].
    split; [clear; by vm_compute|]. split; [clear; by vm_compute|].
    split.
    { repeat (apply Forall_cons_2 || apply Forall_nil_2); clear;
        by vm_compute. }
    split; [by rewrite Ec8|].
    split; [by rewrite Ep8|].
    by rewrite Et8; simpl; rewrite Et5.
Qed.

End more_replay_refusal.

Lemma loretech_rerun_engine_refusal_witness :
  ∃ w' m,
    Server.loretech_rerun (H := example_host) rerun_args run_2
      (Server.with_posts [Resolved engine_refusal_unread] world_replayable)
    = (Ok (ToolResult.mk (Js.lit "Rerun failed: terminated") true), w')
    ∧ Runs.readMeta (H := example_host) run_2 w' = (Ok (Some m), w')
    ∧ RunMeta.status m = RunFailed
    ∧ RunMeta.error m = Some (Js.lit "terminated")
    ∧ step_status_in m (Js.lit "sources") = Some Running.
Proof.
  assert (has_keys (Server.with_posts [Resolved engine_refusal_unread]
                      world_replayable)
            (Js.lit "lt_key") (Js.lit "or_key") (Js.lit "exa_key")) as Hk
    by (exists env_text; vm_compute; repeat split; reflexivity).
  destruct (loretech_rerun_engine_refusal (H := example_host)
              (Server.with_posts [Resolved engine_refusal_unread]
                 world_replayable)
              rerun_args run_2 (Js.lit "lt_key") (Js.lit "or_key")
              (Js.lit "exa_key")
              (default (fresh_meta run_1 []) (record_of world_replayable run_1))
              (Server.echo_context args_with_intent) engine_refusal_unread []
              eq_refl Hk)
    as (w' & m & Hrun & Hr & Hst & Herr & _ & _ & Hs & _);
    [vm_compute; reflexivity|vm_compute; reflexivity|reflexivity|reflexivity
    |].
  exists w', m. split; [exact Hrun|]. split; [exact Hr|].
  split; [exact Hst|]. split; [exact Herr|exact Hs].
Defined.

(** ** The further properties at concrete inputs *)

Ltac by_decide := apply (bool_decide_unpack _); vm_compute; exact I.

Lemma world_context_done_ledger :
  ledger_at (H := example_host) world_context_done run_1
    (default (fresh_meta run_1 []) (record_of world_context_done run_1)).
Proof. split; vm_compute; reflexivity. Defined.

Lemma writeArtifact_then_readArtifact_witness :
  ∃ p w',
    Runs.writeArtifact (H := example_host) run_1 (Js.lit "context.json")
      (Raw (Js.lit "{}")) world_context_done = (Ok p, w')
    ∧ Runs.readArtifact run_1 (Js.lit "context.json") w'
      = (Ok (Some (Raw (Js.lit "{}"))), w')
    ∧ (Runs.readArtifact run_1 Runs.META w').1
      = (Runs.readArtifact run_1 Runs.META world_context_done).1.
Proof.
  destruct (writeArtifact_then_readArtifact (H := example_host)
              world_context_done run_1
              (Js.lit "context.json") (Raw (Js.lit "{}")) eq_refl)
    as (p & w' & Hw & _ & Hr & Hg & _);
    [vm_compute; eauto|vm_compute; reflexivity|].
  exists p, w'. split; [exact Hw|]. split.
  - apply Hr. vm_compute. reflexivity.
  - apply Hg; [vm_compute; reflexivity|].
    intros E. vm_compute in E. discriminate E.
Defined.

Lemma writeArtifact_needs_run_directory_witness :
  Runs.writeArtifact (H := example_host) run_1 (Js.lit "echo.md")
    (Raw (Js.lit "# Echo")) empty_world = (Throw ENOENT, empty_world).
Proof.
  destruct (writeArtifact_needs_run_directory (H := example_host) empty_world
              run_1 (Js.lit "echo.md") (Raw (Js.lit "# Echo")) eq_refl
              eq_refl)
    as [_ Hn].
  apply Hn. reflexivity.
Defined.

Lemma ledger_updates_skip_unknown_run_witness :
  Runs.updateStep (H := example_host) run_1 (Js.lit "context") Running None
    empty_world = (Ok (), empty_world)
  ∧ Runs.completeRun (H := example_host) run_1 None (Some (Js.lit "boom"))
      empty_world = (Ok (), empty_world).
Proof.
  destruct (ledger_updates_skip_unknown_run (H := example_host) empty_world
              run_1 (Js.lit "context") Running None None
              (Some (Js.lit "boom")) eq_refl)
    as (Hu & Hc & _).
  split; [exact Hu|exact Hc].
Defined.

Lemma updateStep_skips_unknown_step_witness :
  Runs.updateStep (H := example_host) run_1 (Js.lit "publish") Completed
    None world_context_done = (Ok (), world_context_done).
Proof.
  apply (updateStep_skips_unknown_step (H := example_host) world_context_done
           run_1 (Js.lit "publish") Completed None _
           world_context_done_ledger).
  by_decide.
Defined.

Lemma updateStep_touches_one_step_witness :
  ∃ w' m',
    Runs.updateStep (H := example_host) run_1 (Js.lit "sources") Running None
      world_context_done = (Ok (), w')
    ∧ Runs.readMeta (H := example_host) run_1 w' = (Ok (Some m'), w')
    ∧ StepMeta.name <$> RunMeta.steps m' = Runs.STEPS
    ∧ RunMeta.status m' = RunRunning.
Proof.
  destruct (updateStep_touches_one_step (H := example_host)
              world_context_done run_1 (Js.lit "sources") Running None _
              world_context_done_ledger)
    as (w' & m' & Hu & Hr & Hn & _ & _ & Hs & _); [by_decide|].
  exists w', m'. split; [exact Hu|]. split; [exact Hr|].
  split; [rewrite Hn; reflexivity|rewrite Hs; reflexivity].
Defined.

Lemma updateStep_never_clears_a_field_witness :
  ∃ w' m' s',
    Runs.updateStep (H := example_host) run_1 (Js.lit "context") Running None
      world_context_done = (Ok (), w')
    ∧ Runs.readMeta (H := example_host) run_1 w' = (Ok (Some m'), w')
    ∧ find_step (Js.lit "context") (RunMeta.steps m') = Some s'
    ∧ StepMeta.status s' = Running
    ∧ is_Some (StepMeta.completedAt s')
    ∧ StepMeta.artifact s' = Some (Js.lit "context.json").
Proof.
  assert (∃ s,
    find_step (Js.lit "context")
      (RunMeta.steps (default (fresh_meta run_1 [])
                        (record_of world_context_done run_1))) = Some s
    ∧ is_Some (StepMeta.completedAt s)
    ∧ StepMeta.artifact s = Some (Js.lit "context.json"))
    as (s & Hs & Hc & Ha)
    by (vm_compute; eexists; split; [reflexivity|]; split; eauto).
  destruct (updateStep_never_clears_a_field (H := example_host)
              world_context_done run_1 (Js.lit "context") Running None _ s
              world_context_done_ledger Hs)
    as (w' & m' & s' & Hu & Hr & Hf & Hst & _ & _ & Hart & _ & Hkeep & _).
  exists w', m', s'. split; [exact Hu|]. split; [exact Hr|].
  split; [exact Hf|]. split; [exact Hst|]. split; [exact (Hkeep Hc)|].
  rewrite Hart. exact Ha.
Defined.


Lemma example_host_compare a b :
  (localeCompare (Host := example_host) a b ≤ 0)%Z ↔ Js.leb a b.
Proof.
  unfold localeCompare, example_host. case_bool_decide as E.
  - subst. split; [intros _; apply leb_refl|lia].
  - destruct (Js.leb a b); simpl; split; try done; lia.
Defined.

Lemma example_host_consistent :
  consistent (localeCompare (Host := example_host)).
Proof.
  split.
  - intros a b Hab. apply example_host_compare.
    destruct (leb_total a b) as [Hl|Hl]; [|done].
    apply example_host_compare in Hl. lia.
  - intros a b c Hab%example_host_compare Hbc%example_host_compare.
    apply example_host_compare. by eapply leb_trans.
Defined.

Lemma listRuns_newest_first_witness :
  ∃ all,
    listRuns (H := example_host) 1 world_two_runs
    = (Ok (take 1 all), world_two_runs)
    ∧ length all = 2%nat
    ∧ RunMeta.runId <$> take 1 all = [run_2].
Proof.
  destruct (listRuns_newest_first (H := example_host) world_two_runs 1
              eq_refl)
    as (all & Hl & _ & Hperm & _); [vm_compute; exact I
                                   |exact example_host_consistent|].
  exists all. split; [exact Hl|].
  split; [rewrite Hperm; vm_compute; reflexivity|].
  clear Hperm. destruct all as [|x all']; vm_compute in Hl;
    [discriminate Hl|].
  injection Hl as <-. reflexivity.
Defined.

Lemma listRuns_throws_on_unreadable_record_witness :
  ∃ e' w', listRuns (H := example_host) 10 world_broken_record
           = (Throw e', w').
Proof.
  exact (listRuns_throws_on_unreadable_record (H := example_host)
           world_broken_record 10 run_1 (Js.lit "{") (Js.lit "SyntaxError")
           eq_refl eq_refl eq_refl).
Defined.

Lemma readEchoRefs_lists_parsable_files_witness :
  ∃ refs,
    Memory.readEchoRefs (H := example_host) world_catalog
    = (Ok refs, world_catalog)
    ∧ length refs = 3%nat
    ∧ EchoRef.echoId <$> refs
      = [Js.lit "echo-b2"; Js.lit "echo-a1"; Js.lit "echo-a1"]
    ∧ EchoRef.jsonPath <$> refs
      = [Some (Js.lit "echoes/echo-b2.json"); None; None].
Proof.
  destruct (readEchoRefs_lists_parsable_files (H := example_host)
              world_catalog catalog_dir eq_refl eq_refl
              example_host_consistent)
    as (refs & Hr & Hperm & _).
  exists refs. split; [exact Hr|].
  split; [rewrite Hperm; vm_compute; reflexivity|].
  clear Hperm. vm_compute in Hr. injection Hr as <-.
  split; vm_compute; reflexivity.
Defined.

Lemma readEchoRefs_survives_scan_faults_witness :
  ∃ refs w',
    Memory.readEchoRefs (H := example_host)
      (mkWorld None ∅ None 0%nat [None; Some disk_full] [] [] [] [] [])
    = (Ok refs, w')
    ∧ is_Some (echoes w').
Proof.
  destruct (readEchoRefs_survives_scan_faults (H := example_host)
              (mkWorld None ∅ None 0%nat [None; Some disk_full] [] [] [] [] [])
              [Some disk_full] (or_intror eq_refl))
    as (refs & w' & Hr & He & _).
  exists refs, w'. split; [exact Hr|exact He].
Defined.

Lemma ref_plain_is_plain : plain_fields ref_plain.
Proof. vm_compute. exact I. Defined.

Lemma parseEchoRef_reads_back_plain_fields_witness :
  ∃ r,
    Memory.parseEchoRef (Memory.echo_file_text ref_plain true) = Some r
    ∧ EchoRef.echoId r = Js.lit "echo-test123"
    ∧ EchoRef.title r = Js.lit "Test Echo Title"
    ∧ EchoRef.status r = Js.lit "draft".
Proof.
  destruct (parseEchoRef_reads_back_plain_fields ref_plain true
              ref_plain_is_plain)
    as (r & Hr & Hid & _ & Ht & Hs & _).
  exists r. split; [exact Hr|]. split; [exact Hid|].
  split; [exact Ht|exact Hs].
Defined.

Lemma parseEchoRef_reads_back_trimmed_body_witness :
  ∃ r,
    Memory.parseEchoRef (Memory.echo_file_text ref_plain false) = Some r
    ∧ EchoRef.markdown r = EchoRef.markdown ref_plain.
Proof.
  destruct (parseEchoRef_reads_back_trimmed_body ref_plain false
              ref_plain_is_plain eq_refl)
    as (r & Hr & Hm).
  exists r. split; [exact Hr|]. rewrite Hm. vm_compute. reflexivity.
Defined.

Lemma writeEchoRef_then_readEchoRefs_witness :
  ∃ refs w' d' r,
    (Memory.writeEchoRef (H := example_host) ref_plain
       (Some (JArr [JStr (Js.lit "https://example.com")]));;
     Memory.readEchoRefs (H := example_host)) empty_world = (Ok refs, w')
    ∧ echoes w' = Some d'
    ∧ d' !! Js.lit "echo-test123.md"
      = Some (Raw (Memory.echo_file_text ref_plain true))
    ∧ r ∈ refs
    ∧ EchoRef.echoId r = Js.lit "echo-test123"
    ∧ is_Some (EchoRef.jsonPath r).
Proof.
  destruct (writeEchoRef_then_readEchoRefs (H := example_host) empty_world
              ref_plain (Some (JArr [JStr (Js.lit "https://example.com")]))
              eq_refl ref_plain_is_plain)
    as (refs & w' & d' & r & Hrun & Hd & Hf & Hin & Hid & _ & _ & _ & _ & _
        & Hj);
    [vm_compute; reflexivity|vm_compute; reflexivity|vm_compute; reflexivity
    |].
  exists refs, w', d', r. split; [exact Hrun|]. split; [exact Hd|].
  split; [exact Hf|]. split; [exact Hin|].
  split; [exact Hid|]. apply Hj. left. exact I.
Defined.

Lemma loadEnv_entries_come_from_lines_witness :
  ∃ env,
    Server.loadEnv (world_configured [] [] []) = (Ok env, world_configured [] [] [])
    ∧ ∀ k v, env !! k = Some v → v ≠ [].
Proof.
  destruct (loadEnv_entries_come_from_lines (world_configured [] [] [])
              eq_refl)
    as (env & Hl & _ & Hall).
  exists env. split; [exact Hl|]. intros k v Hk.
  destruct (Hall k v Hk) as (txt & _ & _ & _ & _ & Hv & _). exact Hv.
Defined.

Lemma parse_env_last_line_wins_witness :
  Server.parse_env env_twice !! Js.lit "EXA_API_KEY" = Some (Js.lit "new").
Proof.
  apply (parse_env_last_line_wins env_twice [Js.lit "EXA_API_KEY=old"]
           [Js.lit "# rotated"] (Js.lit "EXA_API_KEY") (Js.lit "new")).
  - vm_compute. reflexivity.
  - intros E. vm_compute in E. discriminate E.
  - by_decide.
  - intros E. vm_compute in E. discriminate E.
  - by_decide.
  - intros l v' Hin E. apply list_elem_of_singleton in Hin. subst l.
    vm_compute in E. discriminate E.
Defined.

Lemma world_configured_has_keys faults posts gets :
  has_keys (world_configured faults posts gets) (Js.lit "lt_key")
    (Js.lit "or_key") (Js.lit "exa_key").
Proof. exists env_text. vm_compute. repeat split; reflexivity. Defined.

Lemma loretech_echo_without_keys_witness :
  Server.loretech_echo (H := example_host) example_args run_1 empty_world
  = (Ok Server.MISSING_KEYS, empty_world).
Proof.
  apply (loretech_echo_without_keys (H := example_host) empty_world
           example_args run_1 eq_refl).
  intros k1 k2 k3 (txt & He & _). discriminate He.
Defined.


Lemma loretech_echo_success_witness :
  ∃ w' m,
    Server.loretech_echo (H := example_host) example_args run_1
      (world_configured [] [Resolved ok_response] [])
    = (Ok (ToolResult.mk (Server.echo_success_text run_1 data_with_webset)
             false), w')
    ∧ Runs.readMeta (H := example_host) run_1 w' = (Ok (Some m), w')
    ∧ RunMeta.status m = RunCompleted
    ∧ step_status_in m (Js.lit "webset") = Some Running
    ∧ timers w' = [poll_job_1].
Proof.
  destruct (loretech_echo_success (H := example_host)
              (world_configured [] [Resolved ok_response] []) example_args
              run_1 (Js.lit "lt_key") (Js.lit "or_key") (Js.lit "exa_key")
              ok_response [] data_with_webset eq_refl
              (world_configured_has_keys _ _ _) eq_refl eq_refl eq_refl)
    as (w' & m & req & d & Hrun & Hr & Hst & _ & _ & _ & Hws & Htm & _);
    [vm_compute; reflexivity|].
  exists w', m. split; [exact Hrun|]. split; [exact Hr|].
  split; [exact Hst|]. split; [exact Hws|exact Htm].
Defined.

Lemma world_replayable_ledger :
  ledger_at (H := example_host) world_replayable run_1
    (default (fresh_meta run_1 []) (record_of world_replayable run_1)).
Proof. split; vm_compute; reflexivity. Defined.

Lemma loretech_rerun_success_arms_no_poll_witness :
  ∃ w' m,
    Server.loretech_rerun (H := example_host) rerun_args run_2
      world_replayable
    = (Ok (ToolResult.mk
             (Server.rerun_success_text rerun_args run_2 data_with_webset)
             false), w')
    ∧ Runs.readMeta (H := example_host) run_2 w' = (Ok (Some m), w')
    ∧ step_status_in m (Js.lit "webset") = Some Running
    ∧ timers w' = timers world_replayable.
Proof.
  destruct (loretech_rerun_success_arms_no_poll (H := example_host)
              world_replayable rerun_args run_2 (Js.lit "lt_key")
              (Js.lit "or_key") (Js.lit "exa_key") _
              (Server.echo_context args_with_intent) ok_response []
              data_with_webset eq_refl world_replayable_has_keys
              (proj2 world_replayable_ledger))
    as (w' & m & Hrun & Hr & _ & _ & _ & Hws & Htm & _);
    [vm_compute; reflexivity|vm_compute; reflexivity|reflexivity|reflexivity
    |vm_compute; reflexivity|].
  exists w', m. split; [exact Hrun|]. split; [exact Hr|].
  split; [exact Hws|exact Htm].
Defined.

Lemma loretech_echo_catches_rejected_fetch_witness :
  ∃ w' m,
    Server.loretech_echo (H := example_host) example_args run_1
      (world_configured [] [Rejected Server.FETCH_FAILED] [])
    = (Ok (ToolResult.mk (Js.lit "Echo creation failed: fetch failed") true),
       w')
    ∧ Runs.readMeta (H := example_host) run_1 w' = (Ok (Some m), w')
    ∧ RunMeta.status m = RunFailed
    ∧ step_status_in m (Js.lit "sources") = Some Running.
Proof.
  destruct (loretech_echo_catches_rejected_fetch (H := example_host)
              (world_configured [] [Rejected Server.FETCH_FAILED] [])
              example_args run_1 (Js.lit "lt_key") (Js.lit "or_key")
              (Js.lit "exa_key") Server.FETCH_FAILED [] eq_refl
              (world_configured_has_keys _ _ _) eq_refl)
    as (w' & m & Hrun & Hr & Hst & _ & _ & _ & Hs & _).
  exists w', m. split; [exact Hrun|]. split; [exact Hr|].
  split; [exact Hst|exact Hs].
Defined.

Lemma world_dataset_ready_ledger :
  ledger_at (H := example_host) world_dataset_ready run_1
    (default (fresh_meta run_1 []) (record_of world_dataset_ready run_1)).
Proof. split; vm_compute; reflexivity. Defined.

Lemma poll_stores_completed_dataset_witness :
  ∃ w' m',
    Server.run_poll (H := example_host) poll_job_1 world_dataset_ready
    = (Ok Server.Returned, w')
    ∧ Runs.run_file w' run_1 (Js.lit "dataset.json")
      = Some (Json (DValue (JArr [JStr (Js.lit "https://example.com")])))
    ∧ Runs.readMeta (H := example_host) run_1 w' = (Ok (Some m'), w')
    ∧ step_status_in m' (Js.lit "webset") = Some Completed.
Proof.
  destruct (poll_stores_completed_dataset (H := example_host)
              world_dataset_ready poll_job_1 _
              (default ∅ (echoes world_dataset_ready)) poll_ready []
              (PollData.mk (Some (Js.lit "completed"))
                 (Some [JStr (Js.lit "https://example.com")]))
              (JStr (Js.lit "https://example.com")) []
              world_dataset_ready_ledger)
    as (w' & m' & Hrun & Hf & _ & Hr & Hs & _);
    [by_decide|vm_compute; reflexivity|vm_compute; reflexivity
    |vm_compute; reflexivity
    |reflexivity|reflexivity|reflexivity|reflexivity|].
  exists w', m'. split; [exact Hrun|]. split; [exact Hf|].
  split; [exact Hr|exact Hs].
Defined.

Lemma poll_completes_webset_unless_refused_witness :
  ∃ e w' m',
    Server.run_poll (H := example_host) poll_job_1 world_replayable
    = (Ok e, w')
    ∧ e ≠ Server.Rescheduled
    ∧ Runs.readMeta (H := example_host) run_1 w' = (Ok (Some m'), w')
    ∧ step_status_in m' (Js.lit "webset") = Some Completed.
Proof.
  apply (poll_completes_webset_unless_refused (H := example_host)
           world_replayable poll_job_1 _ world_replayable_ledger).
  - by_decide.
  - vm_compute. reflexivity.
  - vm_compute. constructor.
Defined.

(** ** Identifiers that are not names of entries *)

(** The handlers hand the [echoId] of the payload to [path.join] as it is.
    With the identifier [notes/echo-1] the echo file is
    [echoes/notes/echo-1.md]; the directory [notes] does not exist, the
    write throws, and the replay ends in its [catch] block: the run is
    [failed] and its store step stays [running]. *)
Example rerun_with_nested_echo_id_is_caught :
  ∃ w' m,
    Server.loretech_rerun (H := example_host) rerun_args run_2
      (Server.with_posts [Resolved (response_named (Js.lit "notes/echo-1"))]
         world_replayable)
    = (Ok (ToolResult.mk (Js.lit "Rerun failed: " ++ ENOENT) true), w')
    ∧ Runs.readMeta (H := example_host) run_2 w' = (Ok (Some m), w')
    ∧ RunMeta.status m = RunFailed
    ∧ step_status_in m (Js.lit "compose") = Some Completed
    ∧ step_status_in m (Js.lit "store") = Some Running
    ∧ strayed w' = [ (Js.lit "echoes/notes/echo-1.md",
                      Raw (Memory.echo_file_text
                             (Server.echo_ref_of
                                (data_named (Js.lit "notes/echo-1")))
                             false)) ].
Proof.
  vm_compute. eexists _, _. repeat split; reflexivity.
Qed.

(** With the identifier [../runs/{run_1}/echo] the echo file is
    [runs/{run_1}/echo.md]: on a file system that follows the path, the
    replay under [run_2] replaces the artifact [echo.md] of the run it
    replays by the file of the new echo, and [echoes/] gets no file. *)
Example rerun_with_traversing_echo_id_writes_other_run :
  let echoId := Js.lit "../runs/" ++ run_1 ++ Js.lit "/echo" in
  let w := Server.with_posts [Resolved (response_named echoId)]
             world_replayable in
  let w' := (Server.loretech_rerun (H := traversing_host) rerun_args run_2
               w).2 in
  Runs.run_file w run_1 (Js.lit "echo.md") = Some (Raw (Js.lit "The take."))
  ∧ Runs.run_file w' run_1 (Js.lit "echo.md")
    = Some (Raw (Memory.echo_file_text
                   (Server.echo_ref_of (data_named echoId)) false))
  ∧ runs_dir w' !! run_1 ≠ runs_dir w !! run_1
  ∧ echoes w' = echoes w.
Proof.
  vm_compute. split; [reflexivity|]. split; [reflexivity|].
  split; [discriminate|reflexivity].
Qed.

(** The poll writes the dataset to [{echoId}.json]: with the identifier
    [../runs/{run_1}/meta] that file is [meta.json] of the run, which then
    holds the dataset and no record. *)
Example poll_with_traversing_echo_id_replaces_record :
  let job := PollJob.mk (Js.lit "../runs/" ++ run_1 ++ Js.lit "/meta")
               (Js.lit "pk_m4x7k9") run_1 (Js.lit "exa_key") in
  ∃ w',
    Server.run_poll (H := traversing_host) job world_dataset_ready
    = (Ok Server.Returned, w')
    ∧ is_Some (record_of world_dataset_ready run_1)
    ∧ Runs.run_file w' run_1 Runs.META
      = Some (Json (DValue (JArr [JStr (Js.lit "https://example.com")])))
    ∧ record_of w' run_1 = None.
Proof.
  vm_compute. eexists. split; [reflexivity|]. split; [eauto|].
  split; reflexivity.
Qed.
